(** * Rosatel chatbot: the conversation-orchestration engine

    A shallow embedding of [database/models.py] (cart and conversation
    state) and of [services/ai_brain.py] (preference extraction, proactive
    and fallback catalogue search, upsell-acceptance detection, directive
    parsing and the per-turn orchestrator), of the stores of [config.py],
    of [services/image_utils.py], of the session store of
    [services/session_manager.py] and of the cart end points of
    [routers/widget.py], followed by the vocabulary of the properties,
    sample data, the properties of the engine that the specification
    states, and further properties of the code.

    Conventions of the embedding.
    - Python [str] is [string]: a sequence of bytes, UTF-8 for text beyond
      ASCII.  Character classes ([\d], [\s], [str.isdigit], [str.strip])
      are the ASCII ones; [str.lower] folds ASCII and the two-byte UTF-8
      letters of Latin-1 (which covers the Spanish keyword tables).
    - Python [int] is [Z].  Python [float] is [Q]: every finite double is a
      rational and [<=] on doubles is the order of the rationals.
    - A [dict] with string keys is a [gmap string _]; a [dict] whose
      iteration order matters (keyword tables) is an association list.
    - Exceptions are explicit: fallible code returns [res A].
    - The catalogue back ends, the language model and the random generator
      are parameters. *)

From Stdlib Require Import ZArith QArith Qround Qabs Lia Ascii Sorted Permutation.
From stdpp Require Import gmap strings list.

(** ** The Python runtime: strings *)

Module Py.

Definition code (c : ascii) : nat := nat_of_ascii c.

Definition between (lo hi : nat) (c : ascii) : bool :=
  (lo <=? code c)%nat && (code c <=? hi)%nat.

Definition is_digit (c : ascii) : bool := between 48 57 c.
Definition is_upper (c : ascii) : bool := between 65 90 c.
Definition is_lower (c : ascii) : bool := between 97 122 c.
Definition is_alnum (c : ascii) : bool := is_digit c || is_upper c || is_lower c.

(** [str.isspace] on one ASCII character: TAB..CR, FS..US and the space. *)
Definition is_space (c : ascii) : bool :=
  between 9 13 c || between 28 31 c || (code c =? 32)%nat.

Definition chr (n : nat) : ascii := ascii_of_nat n.

Definition str1 (c : ascii) : string := String c "".

Definition eqs (a b : string) : bool := String.eqb a b.

Definition is_empty (s : string) : bool :=
  match s with EmptyString => true | _ => false end.

(** [len(s)] *)
Definition len (s : string) : nat := String.length s.

(** [s.startswith(p)] *)
Fixpoint startswith (p s : string) : bool :=
  match p with
  | EmptyString => true
  | String a p' =>
      match s with
      | EmptyString => false
      | String b s' => Ascii.eqb a b && startswith p' s'
      end
  end.

(** [sub in s] *)
Fixpoint str_in (sub s : string) : bool :=
  startswith sub s ||
  match s with
  | EmptyString => false
  | String _ s' => str_in sub s'
  end.

(** [any(kw in s for kw in kws)] *)
Definition any_in (kws : list string) (s : string) : bool :=
  existsb (fun kw => str_in kw s) kws.

(** [s.lower()].  [after_c3] records that the previous byte was the UTF-8
    lead byte 0xC3, whose continuation bytes 0x80..0x9E (but 0x97, the
    multiplication sign) are the capital letters U+00C0..U+00DE. *)
Fixpoint lower_from (after_c3 : bool) (s : string) : string :=
  match s with
  | EmptyString => EmptyString
  | String c s' =>
      let c' :=
        if after_c3
        then if between 128 158 c && negb (code c =? 151)%nat
             then chr (code c + 32) else c
        else if is_upper c then chr (code c + 32) else c in
      String c' (lower_from (code c =? 195)%nat s')
  end.

Definition lower (s : string) : string := lower_from false s.

(** [s.lstrip()], [s.rstrip()], [s.strip()] *)
Fixpoint lstrip (s : string) : string :=
  match s with
  | EmptyString => EmptyString
  | String c s' => if is_space c then lstrip s' else s
  end.

Fixpoint rstrip (s : string) : string :=
  match s with
  | EmptyString => EmptyString
  | String c s' =>
      let r := rstrip s' in
      if is_space c && is_empty r then EmptyString else String c r
  end.

Definition strip (s : string) : string := rstrip (lstrip s).

(** [s.replace(old, new)] for a non-empty [old]: every non-overlapping
    occurrence, scanning from the left.  [skip] counts the characters of
    an occurrence that is being stepped over. *)
Fixpoint replace_from (old new : string) (skip : nat) (s : string) : string :=
  match s with
  | EmptyString => EmptyString
  | String c s' =>
      match skip with
      | S k => replace_from old new k s'
      | O =>
          if startswith old s
          then new +:+ replace_from old new (len old - 1) s'
          else String c (replace_from old new 0 s')
      end
  end.

(** With an empty [old], Python inserts [new] before every character and
    at the end. *)
Fixpoint intersperse (new s : string) : string :=
  match s with
  | EmptyString => new
  | String c s' => new +:+ String c (intersperse new s')
  end.

Definition replace (old new s : string) : string :=
  if is_empty old then intersperse new s else replace_from old new 0 s.

(** [s.split(sep)] for a non-empty [sep]. *)
Fixpoint split_from (sep : string) (skip : nat) (cur : string) (s : string)
  : list string :=
  match s with
  | EmptyString => [String.rev cur]
  | String c s' =>
      match skip with
      | S k => split_from sep k cur s'
      | O =>
          if startswith sep s
          then String.rev cur :: split_from sep (len sep - 1) EmptyString s'
          else split_from sep 0 (String c cur) s'
      end
  end.

Definition split (sep s : string) : list string := split_from sep 0 EmptyString s.

(** [sep.join(parts)] *)
Fixpoint join (sep : string) (parts : list string) : string :=
  match parts with
  | [] => EmptyString
  | [p] => p
  | p :: rest => p +:+ sep +:+ join sep rest
  end.

Fixpoint all_chars (f : ascii → bool) (s : string) : bool :=
  match s with
  | EmptyString => true
  | String c s' => f c && all_chars f s'
  end.

(** [s.isdigit()] *)
Definition isdigit (s : string) : bool := negb (is_empty s) && all_chars is_digit s.

(** The first [n] characters and what follows them. *)
Fixpoint take (n : nat) (s : string) : string :=
  match n, s with
  | S k, String c s' => String c (take k s')
  | _, _ => EmptyString
  end.

Fixpoint drop (n : nat) (s : string) : string :=
  match n, s with
  | S k, String _ s' => drop k s'
  | _, _ => s
  end.

(** ** Decimal numerals *)

Definition digit_val (c : ascii) : Z := Z.of_nat (code c - 48).

(** The value of a string of decimal digits, most significant first. *)
Fixpoint digits_val (acc : Z) (s : string) : Z :=
  match s with
  | EmptyString => acc
  | String c s' => digits_val (10 * acc + digit_val c) s'
  end.

Definition digit_chr (d : Z) : ascii := chr (48 + Z.to_nat d).

Fixpoint show_pos (fuel : nat) (n : Z) (acc : string) : string :=
  match fuel with
  | O => acc
  | S f =>
      let acc' := String (digit_chr (n mod 10)) acc in
      if (n <? 10)%Z then acc' else show_pos f (n / 10) acc'
  end.

(** [str(n)] for an [int]. *)
Definition str_int (n : Z) : string :=
  if (n <? 0)%Z
  then String "-" (show_pos (S (Z.to_nat (Z.log2 (- n)))) (- n) EmptyString)
  else show_pos (S (Z.to_nat (Z.log2 n))) n EmptyString.

(** Nearest integer, ties to even: the rounding of [format(x, ".Nf")]. *)
Definition round_half_even (q : Q) : Z :=
  let fl := Qfloor q in
  let twice := Qfloor (2 * q)%Q in
  let frac2 := (twice - 2 * fl)%Z in
  if (frac2 =? 0)%Z then fl
  else if Qeq_bool (2 * q)%Q (inject_Z twice)
       then (if Z.even fl then fl else fl + 1)%Z
       else (fl + 1)%Z.

Fixpoint pad_zeros (width : nat) (s : string) : string :=
  if (len s <? width)%nat
  then match width with
       | O => s
       | S w => String "0" (pad_zeros w s)
       end
  else s.

(** [format(q, ".df")]: fixed point with [d] decimals. *)
Definition fmt_f (d : nat) (q : Q) : string :=
  let scaled := round_half_even (q * inject_Z (10 ^ Z.of_nat d))%Q in
  let neg := (Qnum q <? 0)%Z in
  let mag := Z.abs scaled in
  let ip := (mag / 10 ^ Z.of_nat d)%Z in
  let fp := (mag mod 10 ^ Z.of_nat d)%Z in
  let body :=
    match d with
    | O => str_int ip
    | _ => str_int ip +:+ "." +:+ pad_zeros d (str_int fp)
    end in
  if neg then String "-" body else body.

(** ** The Python runtime: [re]

    The subset of regular expressions the engine uses, with the semantics
    of Python's backtracking matcher: alternatives are tried in order,
    quantifiers are greedy, and the search returns the leftmost match. *)

Inductive regex : Type :=
| RLit (c : ascii)
| RClass (f : ascii → bool)
| RCat (r1 r2 : regex)
| RAlt (r1 r2 : regex)
| ROpt (r : regex)
| RStar (r : regex)
| RPlus (r : regex)
| RGroup (n : nat) (r : regex)
| REmpty.

(** Captured groups, most recent first. *)
Definition capturas : Type := list (nat * string).

Definition cont (R : Type) : Type := string → capturas → option R.

(** The text consumed between [s] and its suffix [s1]. *)
Definition consumed (s s1 : string) : string := take (len s - len s1) s.

(** Greedy iteration of [body]; an iteration has to consume a character. *)
Fixpoint star_loop {R} (body : string → capturas → cont R → option R)
    (fuel : nat) (s : string) (g : capturas) (k : cont R) : option R :=
  match fuel with
  | O => k s g
  | S fuel' =>
      match body s g (fun s1 g1 =>
                        if (len s1 <? len s)%nat
                        then star_loop body fuel' s1 g1 k else None) with
      | Some x => Some x
      | None => k s g
      end
  end.

Fixpoint rmatch {R} (r : regex) (s : string) (g : capturas) (k : cont R)
  : option R :=
  match r with
  | RLit c =>
      match s with
      | String c' s' => if Ascii.eqb c c' then k s' g else None
      | EmptyString => None
      end
  | RClass f =>
      match s with
      | String c' s' => if f c' then k s' g else None
      | EmptyString => None
      end
  | RCat r1 r2 => rmatch r1 s g (fun s1 g1 => rmatch r2 s1 g1 k)
  | RAlt r1 r2 =>
      match rmatch r1 s g k with
      | Some x => Some x
      | None => rmatch r2 s g k
      end
  | ROpt r1 =>
      match rmatch r1 s g k with
      | Some x => Some x
      | None => k s g
      end
  | RStar r1 => star_loop (rmatch r1) (len s) s g k
  | RPlus r1 =>
      rmatch r1 s g (fun s1 g1 => star_loop (rmatch r1) (len s1) s1 g1 k)
  | RGroup n r1 => rmatch r1 s g (fun s1 g1 => k s1 ((n, consumed s s1) :: g1))
  | REmpty => k s g
  end.

(** A literal word. *)
Fixpoint lit (w : string) : regex :=
  match w with
  | EmptyString => REmpty
  | String c EmptyString => RLit c
  | String c w' => RCat (RLit c) (lit w')
  end.

Fixpoint cat (rs : list regex) : regex :=
  match rs with
  | [] => REmpty
  | [r] => r
  | r :: rs' => RCat r (cat rs')
  end.

Fixpoint alt (rs : list regex) : regex :=
  match rs with
  | [] => RClass (fun _ => false)
  | [r] => r
  | r :: rs' => RAlt r (alt rs')
  end.

Definition digit : regex := RClass is_digit.   (* \d *)
Definition space : regex := RClass is_space.   (* \s *)

(** A match object: where it starts, [group(0)], the groups, and the text
    after the match. *)
Record Match : Type := mkMatch {
  m_start : nat;
  m_text : string;
  m_groups : capturas;
  m_rest : string
}.

(** [m.group(n)] for a group that took part in the match. *)
Fixpoint lookup_group (n : nat) (g : capturas) : string :=
  match g with
  | [] => EmptyString
  | (i, t) :: g' => if (i =? n)%nat then t else lookup_group n g'
  end.

Definition group (n : nat) (m : Match) : string :=
  match n with
  | O => m_text m
  | _ => lookup_group n (m_groups m)
  end.

Definition match_at (r : regex) (s : string) : option (string * capturas) :=
  rmatch r s [] (fun s1 g1 => Some (s1, g1)).

Fixpoint search_from (r : regex) (pos : nat) (s : string) : option Match :=
  match match_at r s with
  | Some (s1, g1) => Some (mkMatch pos (consumed s s1) g1 s1)
  | None =>
      match s with
      | EmptyString => None
      | String _ s' => search_from r (S pos) s'
      end
  end.

(** [re.search(r, s)] *)
Definition re_search (r : regex) (s : string) : option Match := search_from r 0 s.

(** After an empty match the scan moves on by one character. *)
Definition next_scan (m : Match) : option string :=
  if is_empty (m_text m)
  then match m_rest m with
       | EmptyString => None
       | String _ t => Some t
       end
  else Some (m_rest m).

Fixpoint findall_from (fuel : nat) (r : regex) (s : string) : list string :=
  match fuel with
  | O => []
  | S fuel' =>
      match re_search r s with
      | None => []
      | Some m =>
          group 1 m ::
          match next_scan m with
          | None => []
          | Some t => findall_from fuel' r t
          end
      end
  end.

(** [re.findall(r, s)] for a pattern with one group. *)
Definition re_findall (r : regex) (s : string) : list string :=
  findall_from (S (len s)) r s.

(** ** [sorted]

    [sorted(l, key=f)] is stable and compares keys with [<]; [lt a b] is
    [f(a) < f(b)]. *)

Fixpoint insertar {A} (lt : A → A → bool) (x : A) (l : list A) : list A :=
  match l with
  | [] => [x]
  | y :: l' => if lt y x then y :: insertar lt x l' else x :: y :: l'
  end.

Definition sorted_by {A} (lt : A → A → bool) (l : list A) : list A :=
  foldr (insertar lt) [] l.

Definition Qlt_bool (a b : Q) : bool := negb (Qle_bool b a).

(** ** Exceptions *)

Inductive exc : Type :=
| AttributeError | TypeError | ValueError | KeyError | IndexError | ReError.

Inductive res (A : Type) : Type :=
| Ok (a : A)
| Raise (e : exc).
Arguments Ok {A} a.
Arguments Raise {A} e.

Definition bind {A B} (m : res A) (f : A → res B) : res B :=
  match m with
  | Ok a => f a
  | Raise e => Raise e
  end.

Notation "'let*' x ':=' m 'in' k" := (bind m (fun x => k))
  (at level 10, x pattern, m at level 100, k at level 200, only parsing).

Definition is_ok {A} (m : res A) : bool :=
  match m with Ok _ => true | Raise _ => false end.

(** [try: m  except Exception: d] *)
Definition try_except {A} (m : res A) (d : A) : A :=
  match m with Ok a => a | Raise _ => d end.

Definition of_option {A} (e : exc) (o : option A) : res A :=
  match o with Some a => Ok a | None => Raise e end.

(** ** Replacement templates of [re.sub] *)

Definition is_octal (c : ascii) : bool := between 48 55 c.
Definition is_letter (c : ascii) : bool := is_upper c || is_lower c.

(** [chr(n)] for [n < 256], encoded in UTF-8. *)
Definition chr_utf8 (n : nat) : string :=
  if (n <? 128)%nat then str1 (chr n)
  else String (chr (192 + n / 64)) (str1 (chr (128 + n mod 64))).

Definition simple_escape (e : ascii) : option ascii :=
  if Ascii.eqb e "a" then Some (chr 7)
  else if Ascii.eqb e "b" then Some (chr 8)
  else if Ascii.eqb e "f" then Some (chr 12)
  else if Ascii.eqb e "n" then Some (chr 10)
  else if Ascii.eqb e "r" then Some (chr 13)
  else if Ascii.eqb e "t" then Some (chr 9)
  else if Ascii.eqb e "v" then Some (chr 11)
  else if Ascii.eqb e "\" then Some e
  else None.

Definition oct (c : ascii) : nat := code c - 48.

(** The replacement text of a template for a pattern without groups;
    [whole] is the matched text, which [\g<0>] stands for.  A reference to
    any other group, an escaped ASCII letter that is no escape, and a
    trailing backslash raise [re.error]. *)
Fixpoint expand_template (whole repl : string) : res string :=
  match repl with
  | EmptyString => Ok EmptyString
  | String c rest =>
      if negb (Ascii.eqb c "\")
      then (let* t := expand_template whole rest in Ok (String c t))
      else
        match rest with
        | EmptyString => Raise ReError
        | String e rest1 =>
            match simple_escape e with
            | Some x => (let* t := expand_template whole rest1 in Ok (String x t))
            | None =>
                if Ascii.eqb e "0" then
                  match rest1 with
                  | String d1 rest2 =>
                      if is_octal d1 then
                        match rest2 with
                        | String d2 rest3 =>
                            if is_octal d2
                            then (let* t := expand_template whole rest3 in Ok (chr_utf8 ((8 * oct d1 + oct d2) mod 256) +:+ t))
                            else (let* t := expand_template whole rest2 in Ok (chr_utf8 (oct d1) +:+ t))
                        | EmptyString => Ok (chr_utf8 (oct d1))
                        end
                      else (let* t := expand_template whole rest1 in Ok (chr_utf8 0 +:+ t))
                  | EmptyString => Ok (chr_utf8 0)
                  end
                else if is_digit e then
                  match rest1 with
                  | String d1 (String d2 rest3) =>
                      if is_octal e && is_octal d1 && is_octal d2
                      then
                        let n := (64 * oct e + 8 * oct d1 + oct d2)%nat in
                        if (255 <? n)%nat then Raise ReError
                        else (let* t := expand_template whole rest3 in Ok (chr_utf8 n +:+ t))
                      else Raise ReError
                  | _ => Raise ReError
                  end
                else if Ascii.eqb e "g" then
                  match rest1 with
                  | String a1 (String a2 (String a3 rest4)) =>
                      if Ascii.eqb a1 "<" && Ascii.eqb a2 "0" && Ascii.eqb a3 ">"
                      then (let* t := expand_template whole rest4 in Ok (whole +:+ t))
                      else Raise ReError
                  | _ => Raise ReError
                  end
                else if is_letter e then Raise ReError
                else (let* t := expand_template whole rest1 in Ok (String c (String e t)))
            end
        end
  end.

Fixpoint sub_from (fuel : nat) (r : regex) (repl : string) (s : string) : string :=
  match fuel with
  | O => s
  | S fuel' =>
      match re_search r s with
      | None => s
      | Some m =>
          take (m_start m) s +:+ repl +:+
          (if is_empty (m_text m)
           then match m_rest m with
                | EmptyString => EmptyString
                | String c t => String c (sub_from fuel' r repl t)
                end
           else sub_from fuel' r repl (m_rest m))
      end
  end.

(** [re.sub(lit w, repl, s)] for a literal pattern [w]: the template is
    compiled first, then every match is replaced. *)
Definition re_sub_lit (w : string) (repl : string) (s : string) : res string :=
  let* t := expand_template w repl in
  Ok (sub_from (S (len s)) (lit w) t s).

(** ** Python values

    The scalar values of a JSON row or of a context entry. *)

Inductive pyval : Type :=
| PNone
| PBool (b : bool)
| PInt (z : Z)
| PFloat (q : Q)
| PStr (s : string).

(** [bool(v)] *)
Definition truthy (v : pyval) : bool :=
  match v with
  | PNone => false
  | PBool b => b
  | PInt z => negb (z =? 0)%Z
  | PFloat q => negb (Qeq_bool q 0%Q)
  | PStr s => negb (is_empty s)
  end.

Definition as_number (v : pyval) : option Q :=
  match v with
  | PBool b => Some (if b then 1%Q else 0%Q)
  | PInt z => Some (inject_Z z)
  | PFloat q => Some q
  | _ => None
  end.

(** [a == b]: numbers compare by value across [bool], [int] and [float]. *)
Definition py_eq (a b : pyval) : bool :=
  match a, b with
  | PNone, PNone => true
  | PStr s, PStr t => eqs s t
  | _, _ =>
      match as_number a, as_number b with
      | Some x, Some y => Qeq_bool x y
      | _, _ => false
      end
  end.

(** A row of a catalogue answer: a JSON object, or some other JSON value. *)
Inductive fila : Type :=
| RDict (d : gmap string pyval)
| RVal (v : pyval).

(** An entry of the conversation context: a scalar or a stored product. *)
Inductive ctxval : Type :=
| CVal (v : pyval)
| CDict (d : gmap string pyval).

Section Floats.

(** [str(x)] and [float(s)] for a float [x] and a string [s] are the
    runtime's; [float] raises [ValueError] where [float_of_str] is [None]. *)
Variable repr_float : Q → string.
Variable float_of_str : string → option Q.

(** [str(v)] *)
Definition py_str (v : pyval) : string :=
  match v with
  | PNone => "None"
  | PBool true => "True"
  | PBool false => "False"
  | PInt z => str_int z
  | PFloat q => repr_float q
  | PStr s => s
  end.

(** [float(v)] *)
Definition py_float (v : pyval) : res Q :=
  match v with
  | PNone => Raise TypeError
  | PBool b => Ok (if b then 1%Q else 0%Q)
  | PInt z => Ok (inject_Z z)
  | PFloat q => Ok q
  | PStr s => of_option ValueError (float_of_str s)
  end.

(** [float(str(v).replace(",", ""))]: the price of a row, whatever its
    JSON type.  A number prints to a numeral that reads back as itself;
    ["None"], ["True"] and ["False"] are no numerals. *)
Definition precio_de (v : pyval) : res Q :=
  match v with
  | PFloat q => Ok q
  | PInt z => Ok (inject_Z z)
  | PStr s => of_option ValueError (float_of_str (replace "," "" s))
  | PNone | PBool _ => Raise ValueError
  end.

End Floats.

(** [v.lower()], [v.strip()]: methods of [str] only. *)
Definition as_str (v : pyval) : res string :=
  match v with
  | PStr s => Ok s
  | _ => Raise AttributeError
  end.

(** [float(s)] for the plain decimal numerals: an optional sign, digits,
    an optional fraction. *)
Definition decimal_of_str (s : string) : option Q :=
  let t := strip s in
  let '(neg, body) :=
    match t with
    | String "-" b => (true, b)
    | String "+" b => (false, b)
    | _ => (false, t)
    end in
  match split "." body with
  | [ip] =>
      if isdigit ip then Some (inject_Z ((if neg then -1 else 1) * digits_val 0 ip)) else None
  | [ip; fp] =>
      if all_chars is_digit ip && all_chars is_digit fp
         && negb (is_empty ip && is_empty fp)
      then Some (Qred (Qmake ((if neg then -1 else 1) * digits_val 0 (ip +:+ fp))
                             (Z.to_pos (10 ^ Z.of_nat (len fp)))))
      else None
  | _ => None
  end.

(** [str(x)] for a float with a short decimal expansion: the integer part,
    a point, and the decimals up to the last non-zero one. *)
Fixpoint decimals (fuel : nat) (q : Q) : string :=
  match fuel with
  | O => EmptyString
  | S f =>
      let d := Qfloor (q * 10)%Q in
      let r := Qred (q * 10 - inject_Z d)%Q in
      String (digit_chr d) (if Qeq_bool r 0%Q then EmptyString else decimals f r)
  end.

Definition repr_decimal (q : Q) : string :=
  let a := Qabs q in
  let ip := Qfloor a in
  (if (Qnum q <? 0)%Z then "-" else "") +:+
  str_int ip +:+ "." +:+ decimals 17 (Qred (a - inject_Z ip)%Q).

End Py.

(** ** [database/models.py]

    The timestamps [created_at] and [updated_at] and the message metadata
    are left out: nothing in the engine reads them. *)

Module Models.
Import Py.

Inductive CanalMensaje : Type := WHATSAPP | INSTAGRAM | WIDGET.

Record Producto : Type := mkProducto {
  prod_id : string;
  prod_categoria : string;
  prod_tipo : string;
  prod_producto : string;
  prod_foto : option string;
  prod_color : option string;
  prod_precio : Q;
  prod_stock : Z;
  prod_descuento : Q;
  prod_precio_final : Q;
  prod_descripcion : option string
}.

Record CarritoItem : Type := mkCarritoItem {
  producto_id : string;
  producto_nombre : string;
  cantidad : Z;
  precio_unitario : Q;
  subtotal : Q
}.

(** [cantidad * precio_unitario], an [int] times a [float]. *)
Definition importe (cant : Z) (precio : Q) : Q := (inject_Z cant * precio)%Q.

(** [CarritoItem(producto_id=.., producto_nombre=.., cantidad=..,
    precio_unitario=..)]: [__init__] overwrites [subtotal]. *)
Definition nuevo_CarritoItem (pid nombre : string) (cant : Z) (precio : Q)
  : CarritoItem :=
  mkCarritoItem pid nombre cant precio (importe cant precio).

Record Carrito : Type := mkCarrito {
  carrito_session_id : string;
  items : list CarritoItem
}.

(** [Carrito(session_id=sid)] *)
Definition nuevo_Carrito (sid : string) : Carrito := mkCarrito sid [].

(** [sum(item.subtotal for item in self.items)] *)
Definition total (c : Carrito) : Q :=
  fold_left (fun acc it => (acc + subtotal it)%Q) (items c) 0%Q.

Definition total_items (c : Carrito) : Z :=
  fold_left (fun acc it => (acc + cantidad it)%Z) (items c) 0%Z.

(** The loop of [agregar_item]: the first item with the product's id gets
    the quantity added and its subtotal recomputed; [None] when the loop
    ends without finding one. *)
Fixpoint incrementar (pid : string) (cant : Z) (l : list CarritoItem)
  : option (list CarritoItem) :=
  match l with
  | [] => None
  | it :: rest =>
      if eqs (producto_id it) pid
      then
        let c' := (cantidad it + cant)%Z in
        Some (mkCarritoItem (producto_id it) (producto_nombre it) c'
                (precio_unitario it) (importe c' (precio_unitario it)) :: rest)
      else
        match incrementar pid cant rest with
        | Some rest' => Some (it :: rest')
        | None => None
        end
  end.

Definition agregar_item (c : Carrito) (p : Producto) (cant : Z) : Carrito :=
  match incrementar (prod_id p) cant (items c) with
  | Some l => mkCarrito (carrito_session_id c) l
  | None =>
      mkCarrito (carrito_session_id c)
        (items c ++ [nuevo_CarritoItem (prod_id p) (prod_producto p) cant
                       (prod_precio_final p)])
  end.

Definition remover_item (c : Carrito) (pid : string) : Carrito :=
  mkCarrito (carrito_session_id c)
    (filter (fun it => producto_id it ≠ pid) (items c)).

Definition limpiar (c : Carrito) : Carrito := mkCarrito (carrito_session_id c) [].

Fixpoint lineas_carrito (i : Z) (l : list CarritoItem) : string :=
  match l with
  | [] => EmptyString
  | it :: rest =>
      str_int i +:+ ". " +:+ producto_nombre it +:+ chr_utf8 10 +:+
      "   " +:+ str_int (cantidad it) +:+ " x S/" +:+ fmt_f 2 (precio_unitario it) +:+
      " = S/" +:+ fmt_f 2 (subtotal it) +:+ chr_utf8 10 +:+
      lineas_carrito (i + 1) rest
  end.

(** [Carrito.to_chat_message] *)
Definition carrito_to_chat_message (c : Carrito) : string :=
  match items c with
  | [] => "Tu carrito esta vacio."
  | _ =>
      "**Tu carrito:**" +:+ chr_utf8 10 +:+ chr_utf8 10 +:+
      lineas_carrito 1 (items c) +:+
      chr_utf8 10 +:+ "**Total: S/" +:+ fmt_f 2 (total c) +:+ "**"
  end.

Record MensajeChat : Type := mkMensajeChat {
  role : string;
  content : string
}.

Record Conversacion : Type := mkConversacion {
  session_id : string;
  canal : CanalMensaje;
  user_id : option string;
  mensajes : list MensajeChat;
  carrito : option Carrito;
  contexto : gmap string ctxval
}.

Definition con_mensajes (c : Conversacion) (l : list MensajeChat) : Conversacion :=
  mkConversacion (session_id c) (canal c) (user_id c) l (carrito c) (contexto c).

Definition con_carrito (c : Conversacion) (k : option Carrito) : Conversacion :=
  mkConversacion (session_id c) (canal c) (user_id c) (mensajes c) k (contexto c).

Definition con_contexto (c : Conversacion) (m : gmap string ctxval) : Conversacion :=
  mkConversacion (session_id c) (canal c) (user_id c) (mensajes c) (carrito c) m.

Definition agregar_mensaje (c : Conversacion) (r t : string) : Conversacion :=
  con_mensajes c (mensajes c ++ [mkMensajeChat r t]).

(** [self.contexto[key] = value] *)
Definition actualizar_contexto (c : Conversacion) (key : string) (v : ctxval)
  : Conversacion :=
  con_contexto c (<[key := v]> (contexto c)).

(** [l[-n:]] for [n > 0] *)
Definition ultimos {A} (n : nat) (l : list A) : list A :=
  skipn (length l - n) l.

End Models.

(** ** [services/ai_brain.py] *)

Module AIBrain.
Import Py Models.

(** [d.get(k, dflt)] *)
Definition get {V} (d : gmap string V) (k : string) (dflt : V) : V :=
  default dflt (d !! k).

(** [k in d] *)
Definition tiene {V} (d : gmap string V) (k : string) : bool :=
  match d !! k with Some _ => true | None => false end.

Definition nl : string := chr_utf8 10.

(** *** The directive patterns ([self.action_patterns]) *)

Definition no_cierra (c : ascii) : bool := negb (Ascii.eqb c "]").

(** [\[NAME:([^\]]+)\]] *)
Definition tag_pattern (name : string) : regex :=
  cat [lit ("[" +:+ name +:+ ":"); RGroup 1 (RPlus (RClass no_cierra)); RLit "]"].

Definition P_BUSCAR_PRODUCTO : regex := tag_pattern "BUSCAR_PRODUCTO".
Definition P_PRODUCTO : regex := tag_pattern "PRODUCTO".
Definition P_AGREGAR_CARRITO : regex := tag_pattern "AGREGAR_CARRITO".
Definition P_CHECKOUT : regex := tag_pattern "CHECKOUT".
Definition T_VER_CARRITO : string := "[VER_CARRITO]".
Definition T_GENERAR_CHECKOUT : string := "[GENERAR_CHECKOUT]".

(** *** [_convertir_drive_url] *)

Definition id_char (c : ascii) : bool :=
  is_alnum c || Ascii.eqb c "_" || Ascii.eqb c "-".

(** [/(?:file/)?d/([a-zA-Z0-9_-]+)] *)
Definition P_DRIVE_PATH : regex :=
  cat [RLit "/"; ROpt (lit "file/"); lit "d/"; RGroup 1 (RPlus (RClass id_char))].

(** [[?&]id=([a-zA-Z0-9_-]+)] *)
Definition P_DRIVE_QUERY : regex :=
  cat [RClass (fun c => Ascii.eqb c "?" || Ascii.eqb c "&"); lit "id=";
       RGroup 1 (RPlus (RClass id_char))].

Definition lh3 (file_id : string) : string :=
  "https://lh3.googleusercontent.com/d/" +:+ file_id +:+ "=w300".

Definition _convertir_drive_url (url : string) : string :=
  if is_empty url then ""
  else
    match re_search P_DRIVE_PATH url with
    | Some m => lh3 (group 1 m)
    | None =>
        match re_search P_DRIVE_QUERY url with
        | Some m => lh3 (group 1 m)
        | None => url
        end
    end.

(** The same on a value read from a row: a falsy value gives [""], and
    [re.search] raises [TypeError] on anything else that is no string. *)
Definition convertir_drive_url_de (v : pyval) : res string :=
  if negb (truthy v) then Ok ""
  else
    match v with
    | PStr s => Ok (_convertir_drive_url s)
    | _ => Raise TypeError
    end.

(** *** [_generar_codigo_carrito]

    [random.choices(population, k=8)] picks [population[floor(u * 36)]]
    for eight draws [u] of the generator; a generator is the sequence of
    the indices drawn, reduced to the population. *)

Definition rng : Type := nat → nat.

Definition avanzar (k : nat) (g : rng) : rng := fun i => g (i + k)%nat.

(** [string.ascii_uppercase + string.digits] *)
Definition alfabeto : string := "ABCDEFGHIJKLMNOPQRSTUVWXYZ0123456789".

Definition elegir (pop : string) (i : nat) : ascii :=
  default "A"%char (String.get (i mod len pop) pop).

Fixpoint choices (pop : string) (k : nat) (g : rng) : string :=
  match k with
  | O => EmptyString
  | S k' => String (elegir pop (g 0%nat)) (choices pop k' (avanzar 1 g))
  end.

Definition _generar_codigo_carrito (g : rng) : string * rng :=
  ("RST" +:+ choices alfabeto 8 g, avanzar 8 g).

(** *** Records shown to the user and side effects *)

(** A product card: the [dict] with keys [id], [nombre], [precio], ... *)
Abbreviation tarjeta := (gmap string pyval).

Definition campo (d : tarjeta) (k : string) : pyval := get d k PNone.

(** The [dict]s appended to [acciones], by their ["tipo"].  The explicit
    checkout carries the key ["carrito"], the legacy one does not. *)
Inductive accion : Type :=
| AMostrarProducto (producto : tarjeta)
| ABuscar (query : string) (resultados : nat)
| AAgregarCarrito (pid nombre : string) (precio : pyval)
| ACheckout (codigo url : string) (carrito_snapshot : pyval)
| AVerCarrito
| ACheckoutLegacy (codigo url : string).

Definition tipo_accion (a : accion) : string :=
  match a with
  | AMostrarProducto _ => "mostrar_producto"
  | ABuscar _ _ => "buscar"
  | AAgregarCarrito _ _ _ => "agregar_carrito"
  | ACheckout _ _ _ => "checkout"
  | AVerCarrito => "ver_carrito"
  | ACheckoutLegacy _ _ => "checkout"
  end.

(** The catalogue back ends.  [MCPToolboxService] answers every call with a
    list (its own handlers turn failures into [[]]). *)
Record MCPToolboxService : Type := mkMCP {
  is_available : bool;
  buscar_productos : string → list fila;
  productos_economicos : Z → list fila;
  productos_con_descuento : list fila
}.

Record BigQueryService : Type := mkBQ {
  obtener_producto : string → option Producto;
  bq_buscar_productos : string → Z → list Producto
}.

(** What [procesar_mensaje] returns; the key ["texto_limpio"] is present in
    the answer of the upsell-acceptance detector only. *)
Record Respuesta : Type := mkRespuesta {
  r_texto : string + list string;
  r_texto_limpio : option string;
  r_burbujas : list string;
  r_productos : list tarjeta;
  r_acciones : list accion;
  r_carrito : option Carrito
}.

(** *** [extraer_preferencias] *)

(** A keyword table: a [dict] from a facet value to its keywords, in
    insertion order. *)
Definition tabla : Type := list (string * list string).

(** [for clave, keywords in tabla.items(): if any(kw in msg ...): ...; break] *)
Fixpoint primera_clave (t : tabla) (msg : string) : option string :=
  match t with
  | [] => None
  | (clave, keywords) :: t' =>
      if any_in keywords msg then Some clave else primera_clave t' msg
  end.

Definition ocasiones : tabla :=
  [ ("Amistad",
     ["amiga"; "amigo"; "amistad"; "companero"; "companera"; "colega";
      "jefe"; "jefa"; "trabajo"; "oficina"; "vecino"; "vecina";
      "conocido"; "gracias"; "agradecer"; "agradecimiento"; "detalle"]);
    ("Amor",
     ["novia"; "novio"; "esposa"; "esposo"; "amor"; "romantico"; "romantica";
      "enamorado"; "enamorada"; "pareja"; "san valentin"; "valentin";
      "te amo"; "te quiero"; "mi amor"; "corazon"]);
    ("Cumpleaños",
     ["cumpleanos"; "cumple"; "birthday"; "cumpleaños"; "anos"; "años";
      "feliz cumple"; "felicitacion"; "felicitar"]);
    ("Graduación",
     ["graduacion"; "graduado"; "graduada"; "egresado"; "egresada";
      "titulo"; "universidad"; "colegio"; "promocion"; "bachiller";
      "licenciado"; "ingeniero"; "doctor"; "magister"]);
    ("Aniversario",
     ["aniversario"; "anniversary"; "bodas"; "anos juntos"; "años juntos";
      "celebrar"; "fecha especial"]);
    ("Condolencias",
     ["condolencias"; "pesame"; "funeral"; "fallecio"; "fallecimiento";
      "murio"; "muerte"; "velorio"; "sepelio"; "duelo"; "luto";
      "descanse en paz"; "qepd"; "sentido pesame"]);
    ("Inauguraciones",
     ["inauguracion"; "apertura"; "nuevo local"; "nueva tienda";
      "nuevo negocio"; "emprendimiento"; "empresa nueva"; "oficina nueva"]);
    ("Mejórate Pronto",
     ["mejorate"; "enfermo"; "enferma"; "hospital"; "clinica"; "operacion";
      "recuperacion"; "salud"; "animo"; "fuerza"; "pronta recuperacion"]);
    ("Nacimiento",
     ["nacimiento"; "bebe"; "bebé"; "recien nacido"; "nacio"; "parto";
      "maternidad"; "baby shower"; "embarazada"; "nena"; "nene"]);
    ("Matrimonio",
     ["matrimonio"; "boda"; "casamiento"; "novia"; "novios"; "casarse";
      "compromiso"; "pedida de mano"; "civil"; "iglesia"]);
    ("Para Él",
     ["papa"; "papá"; "padre"; "dia del padre"; "abuelo"; "hermano";
      "tio"; "suegro"; "cunado"; "para el"; "hombre"; "varon";
      "masculino"; "caballero"]);
    ("Para su escritorio",
     ["escritorio"; "oficina"; "decoracion"; "decorar"; "desk";
      "trabajo"; "despacho"; "preservada"; "seca"]);
    ("Para Niños",
     ["nino"; "niño"; "nina"; "niña"; "hijo"; "hija"; "nietos";
      "sobrino"; "sobrina"; "pequeño"; "pequeña"; "infantil"; "kids"]);
    ("Variado", ["globos"; "complemento"; "adicional"; "extra"]) ].

Definition espacios : regex := RStar space.   (* zero or more [\s] *)
Definition numero (n : nat) : regex := RGroup n (RPlus digit).   (* group n: (\d+) *)

(** [patrones_precio], in order; the source of each pattern is quoted with blanks between its parts. *)
Definition patrones_precio : list regex :=
  [ (* (?:menos de|hasta|maximo|max|presupuesto de?) \s* (?: s/? \.? \s* )? (\d+) *)
    cat [alt [lit "menos de"; lit "hasta"; lit "maximo"; lit "max";
              RCat (lit "presupuesto d") (ROpt (RLit "e"))];
         espacios;
         ROpt (cat [RLit "s"; ROpt (RLit "/"); ROpt (RLit "."); espacios]);
         numero 1];
    (* s/? \.? \s* (\d+) *)
    cat [RLit "s"; ROpt (RLit "/"); ROpt (RLit "."); espacios; numero 1];
    (* (\d+) \s* (?:soles?|sol) *)
    cat [numero 1; espacios; alt [RCat (lit "sole") (ROpt (RLit "s")); lit "sol"]];
    (* tengo \s* (\d+) *)
    cat [lit "tengo"; espacios; numero 1];
    (* gastar \s* (?:unos?)? \s* (\d+) *)
    cat [lit "gastar"; espacios; ROpt (RCat (lit "uno") (ROpt (RLit "s")));
         espacios; numero 1] ].

(** [(?: entre \s* )? (\d+) \s* (?:a|y|-|hasta) \s* (\d+)] *)
Definition patron_rango : regex :=
  cat [ROpt (RCat (lit "entre") espacios); numero 1; espacios;
       alt [RLit "a"; RLit "y"; RLit "-"; lit "hasta"]; espacios; numero 2].

(** [float(m.group(n))] for a group of digits. *)
Definition monto_de (n : nat) (m : Match) : Q := inject_Z (digits_val 0 (group n m)).

(** The loop over [patrones_precio]: the first pattern that matches with
    an amount of at least 30 commits it and ends the loop; a pattern that
    matches a smaller amount is passed over. *)
Fixpoint primer_monto (pats : list regex) (msg : string) : option Q :=
  match pats with
  | [] => None
  | p :: pats' =>
      match re_search p msg with
      | Some m =>
          if Qle_bool 30 (monto_de 1 m) then Some (monto_de 1 m)
          else primer_monto pats' msg
      | None => primer_monto pats' msg
      end
  end.

Definition numero_ctx (q : Q) : ctxval := CVal (PFloat q).
Definition texto_ctx (s : string) : ctxval := CVal (PStr s).

Definition extraer_presupuesto (mensaje_lower : string) (c : Conversacion)
  : Conversacion :=
  let c1 :=
    match primer_monto patrones_precio mensaje_lower with
    | Some monto => actualizar_contexto c "presupuesto_max" (numero_ctx monto)
    | None => c
    end in
  match re_search patron_rango mensaje_lower with
  | Some m =>
      actualizar_contexto
        (actualizar_contexto c1 "presupuesto_min" (numero_ctx (monto_de 1 m)))
        "presupuesto_max" (numero_ctx (monto_de 2 m))
  | None => c1
  end.

Definition colores : tabla :=
  [ ("rojo", ["rojo"; "rojas"; "rojos"; "red"]);
    ("rosa", ["rosa"; "rosado"; "rosada"; "pink"; "fucsia"]);
    ("blanco", ["blanco"; "blanca"; "blancos"; "white"; "crema"]);
    ("amarillo", ["amarillo"; "amarilla"; "amarillos"; "yellow"]);
    ("naranja", ["naranja"; "anaranjado"; "orange"]);
    ("morado", ["morado"; "morada"; "purpura"; "lila"; "violeta"]);
    ("azul", ["azul"; "celeste"; "blue"]);
    ("variado", ["variado"; "colores"; "multicolor"; "surtido"; "mix"]) ].

Definition flores : tabla :=
  [ ("rosas", ["rosa"; "rosas"; "rose"; "roses"]);
    ("tulipanes", ["tulipan"; "tulipanes"; "tulips"]);
    ("girasoles", ["girasol"; "girasoles"; "sunflower"]);
    ("orquideas", ["orquidea"; "orquideas"; "orchid"]);
    ("liliums", ["lilium"; "liliums"; "lirio"; "lirios"; "lily"]);
    ("astromelias", ["astromelia"; "astromelias"; "alstroemeria"]);
    ("gladiolos", ["gladiolo"; "gladiolos"]) ].

Definition tipos_producto : tabla :=
  [ ("Peluche", ["peluche"; "oso"; "osito"; "hugo"; "kodi"; "muñeco"]);
    ("Chocolates", ["chocolate"; "chocolates"; "ferrero"; "iberica"; "bombones"; "dulces"]);
    ("Vino", ["vino"; "vinos"; "tinto"; "blanco"; "espumante"; "champagne"; "licor"]);
    ("Arreglo Floral", ["arreglo"; "centro de mesa"; "florero"]);
    ("Ramo", ["ramo"; "bouquet"; "ramillete"]);
    ("Caja Flores", ["caja"; "box"]);
    ("Corona Fúnebre", ["corona"; "lagrima"; "funebre"]);
    ("Globos", ["globo"; "globos"]) ].

(** One facet: the first entry of the table with a keyword in the message
    is written under [key]. *)
Definition extraer_faceta (t : tabla) (key : string) (mensaje_lower : string)
    (c : Conversacion) : Conversacion :=
  match primera_clave t mensaje_lower with
  | Some v => actualizar_contexto c key (texto_ctx v)
  | None => c
  end.

Definition extraer_intencion (keywords : list string) (key : string)
    (mensaje_lower : string) (c : Conversacion) : Conversacion :=
  if any_in keywords mensaje_lower
  then actualizar_contexto c key (CVal (PBool true)) else c.

Definition extraer_preferencias (mensaje : string) (c : Conversacion)
  : Conversacion :=
  let ml := lower mensaje in
  let c := extraer_faceta ocasiones "ocasion" ml c in
  let c := extraer_presupuesto ml c in
  let c := extraer_faceta colores "color_preferido" ml c in
  let c := extraer_faceta flores "flor_preferida" ml c in
  let c := extraer_faceta tipos_producto "tipo_producto" ml c in
  let c := extraer_intencion
             ["barato"; "economico"; "económico"; "poco presupuesto"; "ajustado"]
             "busca_economico" ml c in
  let c := extraer_intencion ["oferta"; "descuento"; "promocion"; "rebaja"]
             "busca_descuento" ml c in
  extraer_intencion ["premium"; "lujoso"; "elegante"; "especial"; "grande"]
    "busca_premium" ml c.

(** *** [_detectar_nueva_solicitud] *)

Definition solicitudes : tabla :=
  [ ("chocolate", ["chocolate"; "chocolates"; "ferrero"; "iberica"; "bombones"]);
    ("peluche", ["peluche"; "peluches"; "oso"; "osito"]);
    ("globo", ["globo"; "globos"]);
    ("vino", ["vino"; "vinos"; "licor"; "champagne"; "espumante"]);
    ("flores", ["flor"; "flores"; "rosas"; "tulipanes"; "girasoles"]);
    ("ramo", ["ramo"; "ramos"; "bouquet"]) ].

Definition _detectar_nueva_solicitud (mensaje : string) : option string :=
  let ml := lower mensaje in
  if str_in "carrito" ml || str_in "agregar" ml then None
  else
    if any_in ["tienes"; "tienen"; "hay"; "busco"; "necesito"; "muestrame";
               "ver "; "dame"] ml
    then primera_clave solicitudes ml
    else None.

Definition no_vacio {V} (d : gmap string V) : bool := negb (size d =? 0)%nat.

Definition texto_de (v : ctxval) : string :=
  match v with
  | CVal (PStr t) => t
  | _ => ""
  end.

(** The strings of [query_parts]; [" ".join] raises [TypeError] on an
    entry that is no string. *)
Fixpoint textos (parts : list ctxval) : res (list string) :=
  match parts with
  | [] => Ok []
  | CVal (PStr t) :: rest => let* ts := textos rest in Ok (t :: ts)
  | _ :: _ => Raise TypeError
  end.

(** The facets that make the query, in the order of the source:
    [tipo_producto], [flor_preferida], [ocasion], [color_preferido]. *)
Definition query_parts (ctx : gmap string ctxval) : list ctxval :=
  omap (fun k => ctx !! k)
    ["tipo_producto"; "flor_preferida"; "ocasion"; "color_preferido"].

(** [presupuesto * 1.2], the product taken exactly. *)
Definition tolerancia (presupuesto : Q) : Q := (presupuesto * (12 # 10))%Q.

(** [(not x["en_presupuesto"], x["precio_num"])] and [<] on such pairs. *)
Definition clave_fallback (t : tarjeta) : bool * Q :=
  match campo t "en_presupuesto", campo t "precio_num" with
  | PBool b, PFloat q => (negb b, q)
  | _, _ => (false, 0%Q)
  end.

Definition lt_clave (a b : bool * Q) : bool :=
  if Bool.eqb (fst a) (fst b) then Qlt_bool (snd a) (snd b)
  else negb (fst a) && fst b.

Section Brain.

(** The runtime's [str(x)] for a float and for a [dict], and [float(s)]. *)
Variable repr_float : Q → string.
Variable float_of_str : string → option Q.
Variable repr_dict : tarjeta → string.

(** The services the brain holds: [self.mcp_service], [self.bq_service]. *)
Variable mcp : MCPToolboxService.
Variable bq : BigQueryService.

Definition str (v : pyval) : string := py_str repr_float v.

Definition str_ctx (v : ctxval) : string :=
  match v with
  | CVal x => str x
  | CDict d => repr_dict d
  end.

(** [float(str(v).replace(",", ""))] *)
Definition precio_fila (v : pyval) : res Q := precio_de float_of_str v.

Definition ctx_float (v : ctxval) : res Q :=
  match v with
  | CVal x => py_float float_of_str x
  | CDict _ => Raise TypeError
  end.

(** *** [_buscar_por_solicitud] *)

Definition tarjeta_solicitud (d : gmap string pyval) : res tarjeta :=
  let* nombre := as_str (get d "Producto" (PStr "")) in
  let* precio_num := precio_fila (get d "Precio_final" (PStr "0")) in
  let* imagen := convertir_drive_url_de (get d "Foto" (PStr "")) in
  Ok (list_to_map
        [("id", get d "ID" (PStr ""));
         ("nombre", PStr (strip nombre));
         ("precio", PStr ("S/" +:+ str (get d "Precio_final" (PStr ""))));
         ("precio_num", PFloat precio_num);
         ("imagen", PStr imagen);
         ("categoria", get d "Categoria" (PStr ""));
         ("tipo", get d "Tipo" (PStr ""))]).

Fixpoint tarjetas_solicitud (ultimo_upsell_id : string) (l : list fila)
  : res (list tarjeta) :=
  match l with
  | [] => Ok []
  | RVal _ :: l' => tarjetas_solicitud ultimo_upsell_id l'
  | RDict d :: l' =>
      if eqs (str (get d "ID" (PStr ""))) ultimo_upsell_id
      then tarjetas_solicitud ultimo_upsell_id l'
      else
        let* t := tarjeta_solicitud d in
        let* ts := tarjetas_solicitud ultimo_upsell_id l' in
        Ok (t :: ts)
  end.

Definition _buscar_por_solicitud (tipo : string) (c : Conversacion) : list tarjeta :=
  match buscar_productos mcp tipo with
  | [] => []
  | productos_raw =>
      let ultimo_upsell_id :=
        if no_vacio (contexto c)
        then str_ctx (get (contexto c) "ultimo_upsell_id" (CVal (PStr "")))
        else "" in
      try_except (tarjetas_solicitud ultimo_upsell_id (firstn 5 productos_raw)) []
  end.

(** *** [_buscar_productos_fallback] *)

(** [for alt in alternativas: if isinstance(alt, dict) and alt.get("ID")
    not in ids_vistos: productos_raw.append(alt); ids_vistos.add(...)]:
    the rows this loop appends. *)
Fixpoint combinar (ids_vistos : list pyval) (alternativas : list fila) : list fila :=
  match alternativas with
  | [] => []
  | RVal _ :: rest => combinar ids_vistos rest
  | RDict d :: rest =>
      let i := get d "ID" PNone in
      if existsb (py_eq i) ids_vistos then combinar ids_vistos rest
      else RDict d :: combinar (i :: ids_vistos) rest
  end.

Definition ids_de (l : list fila) : list pyval :=
  omap (fun p => match p with RDict d => Some (get d "ID" PNone) | RVal _ => None end) l.

Definition alternativa (ctx : gmap string ctxval) (k : string) : list fila :=
  match ctx !! k with
  | Some v => buscar_productos mcp (texto_de v)
  | None => []
  end.

(** The body of the inner [try] of the loop over [productos_raw]. *)
Definition tarjeta_fallback (presupuesto : Q) (d : gmap string pyval) : res tarjeta :=
  let* precio := precio_fila (get d "Precio_final" (PStr "0")) in
  let* imagen := convertir_drive_url_de (get d "Foto" (PStr "")) in
  let* nombre := as_str (get d "Producto" (PStr "")) in
  Ok (list_to_map
        [("id", get d "ID" (PStr ""));
         ("nombre", PStr (strip nombre));
         ("precio", PStr ("S/" +:+ fmt_f 0 precio));
         ("precio_num", PFloat precio);
         ("imagen", PStr imagen);
         ("categoria", get d "Categoria" (PStr ""));
         ("tipo", get d "Tipo" (PStr ""));
         ("en_presupuesto", PBool (Qle_bool precio (tolerancia presupuesto)))]).

(** [productos_con_precio]: a row that is no [dict], or whose card raises,
    is passed over. *)
Fixpoint productos_con_precio (presupuesto : Q) (l : list fila) : list tarjeta :=
  match l with
  | [] => []
  | RVal _ :: l' => productos_con_precio presupuesto l'
  | RDict d :: l' =>
      match tarjeta_fallback presupuesto d with
      | Ok t => t :: productos_con_precio presupuesto l'
      | Raise _ => productos_con_precio presupuesto l'
      end
  end.

(** Lines 318-344: rank the cards, those within the tolerance first, then
    by price, and take the first three. *)
Definition ranking_fallback (presupuesto : Q) (productos_raw : list fila)
  : list tarjeta :=
  firstn 3
    (sorted_by (fun a b => lt_clave (clave_fallback a) (clave_fallback b))
       (productos_con_precio presupuesto productos_raw)).

Definition candidatos_fallback (ctx : gmap string ctxval) (query : string)
  : list fila :=
  let productos_raw := buscar_productos mcp query in
  let productos_raw :=
    if (length productos_raw <? 3)%nat
    then
      let alternativas :=
        alternativa ctx "tipo_producto" ++ alternativa ctx "flor_preferida"
        ++ alternativa ctx "ocasion" in
      productos_raw ++ combinar (ids_de productos_raw) alternativas
    else productos_raw in
  match productos_raw with
  | [] => productos_economicos mcp 5
  | _ => productos_raw
  end.

Definition _buscar_productos_fallback (c : Conversacion) : res (list tarjeta) :=
  let ctx := contexto c in
  let tiene_ocasion := tiene ctx "ocasion" in
  let tiene_tipo := tiene ctx "tipo_producto" in
  let tiene_presupuesto := tiene ctx "presupuesto_max" in
  let tiene_preferencia := tiene ctx "color_preferido" || tiene ctx "flor_preferida" in
  if negb tiene_presupuesto then Ok []
  else if negb (tiene_ocasion || tiene_tipo || tiene_preferencia) then Ok []
  else
    let* query :=
      match query_parts ctx with
      | [] => Ok "flores"
      | parts => let* ts := textos parts in Ok (join " " ts)
      end in
    let* presupuesto := ctx_float (get ctx "presupuesto_max" (CVal (PInt 500))) in
    Ok (ranking_fallback presupuesto (candidatos_fallback ctx query)).

(** *** [_detectar_upselling_response] *)

Definition afirmaciones : list string :=
  ["si"; "sí"; "ok"; "dale"; "claro"; "por supuesto"; "me interesa";
   "perfecto"; "bueno"; "va"; "muestrame"; "mostrame"].

Definition es_oferta (m : MensajeChat) : bool :=
  eqs (role m) "assistant" &&
  str_in "?" (lower (content m)) &&
  any_in ["globo"; "chocolate"; "peluche"; "complementar"; "agregar"]
    (lower (content m)).

(** The loop over [reversed(mensajes[-10:])]: the most recent offer. *)
Definition oferta_encontrada (msgs : list MensajeChat) : string :=
  match find es_oferta (rev (ultimos 10 msgs)) with
  | Some m => lower (content m)
  | None => ""
  end.

(** The card built in the three branches of the detector. *)
Definition tarjeta_upsell (d : gmap string pyval) : res tarjeta :=
  let* precio_num := precio_fila (get d "Precio_final" (PStr "0")) in
  let* imagen := convertir_drive_url_de (get d "Foto" (PStr "")) in
  Ok (list_to_map
        [("id", get d "ID" (PStr ""));
         ("nombre", get d "Producto" (PStr ""));
         ("precio", PStr ("S/" +:+ str (get d "Precio_final" (PStr ""))));
         ("precio_num", PFloat precio_num);
         ("imagen", PStr imagen);
         ("categoria", get d "Categoria" (PStr ""));
         ("tipo", get d "Tipo" (PStr ""))]).

(** [v in carrito_ids], a set of strings. *)
Definition en_ids (v : pyval) (ids : list string) : bool :=
  match v with
  | PStr t => existsb (eqs t) ids
  | _ => false
  end.

(** A loop that appends cards inside a [try]: the first exception ends
    the loop and keeps the cards appended so far.  [saltar] tells which
    rows the loop passes over. *)
Fixpoint tarjetas_hasta_error (saltar : gmap string pyval → bool) (l : list fila)
  : list tarjeta :=
  match l with
  | [] => []
  | RVal _ :: _ => []
  | RDict d :: l' =>
      if saltar d then tarjetas_hasta_error saltar l'
      else
        match tarjeta_upsell d with
        | Ok t => t :: tarjetas_hasta_error saltar l'
        | Raise _ => []
        end
  end.

(** The filter of the chocolate branch: a row stays when its id is not in
    the cart and no name of the cart occurs in its name. *)
Fixpoint chocolates_filtrados (ids nombres : list string) (l : list fila)
  : res (list fila) :=
  match l with
  | [] => Ok []
  | RVal _ :: _ => Raise AttributeError
  | RDict d :: l' =>
      let prod_id := str (get d "ID" (PStr "")) in
      let* prod_nombre := as_str (get d "Producto" (PStr "")) in
      let* rest := chocolates_filtrados ids nombres l' in
      if negb (existsb (eqs prod_id) ids)
         && negb (existsb (fun n => negb (is_empty n) && str_in n (lower prod_nombre))
                    nombres)
      then Ok (RDict d :: rest) else Ok rest
  end.

Definition _detectar_upselling_response (mensaje : string) (c : Conversacion)
  : option Respuesta :=
  let mensaje_lower := strip (lower mensaje) in
  if str_in "carrito" mensaje_lower || str_in "agregar" mensaje_lower then None
  else if negb (existsb (fun afirm => startswith afirm mensaje_lower
                                      || eqs mensaje_lower afirm) afirmaciones)
  then None
  else
    let oferta := oferta_encontrada (mensajes c) in
    let its := match carrito c with Some k => items k | None => [] end in
    let carrito_ids := map producto_id its in
    let carrito_nombres := map (fun it => lower (producto_nombre it)) its in
    if is_empty oferta then None
    else
      let '(texto, productos) :=
        if str_in "globo" oferta then
          match buscar_productos mcp "globos" with
          | [] => ("", [])
          | globos =>
              ("Aqui tienes los globos disponibles:",
               tarjetas_hasta_error
                 (fun g => en_ids (get g "ID" PNone) carrito_ids) (firstn 3 globos))
          end
        else if str_in "chocolate" oferta then
          match buscar_productos mcp "chocolates" with
          | [] => ("", [])
          | chocolates =>
              match chocolates_filtrados carrito_ids carrito_nombres chocolates with
              | Raise _ => ("", [])
              | Ok [] => ("Ya tienes chocolates en tu carrito. Algo mas que necesites?", [])
              | Ok filtrados =>
                  ("Excelente eleccion! Te muestro los chocolates:",
                   tarjetas_hasta_error (fun _ => false) (firstn 3 filtrados))
              end
          end
        else if str_in "peluche" oferta then
          match buscar_productos mcp "peluche" with
          | [] => ("", [])
          | peluches =>
              ("Aqui tienes los peluches disponibles:",
               tarjetas_hasta_error (fun _ => false) (firstn 3 peluches))
          end
        else ("", []) in
      match productos with
      | [] => None
      | _ => Some (mkRespuesta (inl texto) (Some texto) [texto] productos []
                     (carrito c))
      end.

(** *** [_formatear_resultado_busqueda] *)

(** [p.get(K, p.get(k, dflt))] *)
Definition get2 (d : gmap string pyval) (K k : string) (dflt : pyval) : pyval :=
  get d K (get d k dflt).

(** [float(v or 0)] *)
Definition float_o_cero (v : pyval) : res Q :=
  if truthy v then py_float float_of_str v else Ok 0%Q.

(** [', '.join(extra)]: [tipo] enters [extra] as it is. *)
Definition linea_extra (tipo color : pyval) (descuento precio_original : Q)
  : res (option string) :=
  let* e1 :=
    if truthy tipo
    then match tipo with PStr t => Ok [t] | _ => Raise TypeError end
    else Ok [] in
  let e2 := if truthy color then ["Color: " +:+ str color] else [] in
  let e3 := if Qlt_bool 0 descuento
            then ["Descuento: antes S/" +:+ fmt_f 0 precio_original] else [] in
  match e1 ++ e2 ++ e3 with
  | [] => Ok None
  | extra => Ok (Some ("   (" +:+ join ", " extra +:+ ")"))
  end.

Definition lineas_producto (d : gmap string pyval) : res (list string) :=
  let prod_id := get2 d "ID" "id" (PStr "") in
  let* nombre := as_str (get2 d "Producto" "producto" (PStr "Producto")) in
  let* precio_final := precio_fila (get2 d "Precio_final" "precio_final" (PInt 0)) in
  let* precio_original := precio_fila (get2 d "Precio" "precio" (PInt 0)) in
  let color := get2 d "Color" "color" (PStr "") in
  let* descuento := float_o_cero (get2 d "Descuento" "descuento" (PInt 0)) in
  let foto_url := get2 d "Foto" "foto" (PStr "") in
  let* stock := float_o_cero (get2 d "Stock" "stock" (PInt 0)) in
  let tipo := get2 d "Tipo" "tipo" (PStr "") in
  let* imagen_directa := convertir_drive_url_de foto_url in
  let* extra := linea_extra tipo color descuento precio_original in
  Ok (("[PRODUCTO:" +:+ str prod_id +:+ "|" +:+ strip nombre +:+ "|" +:+
       fmt_f 0 precio_final +:+ "|" +:+ imagen_directa +:+ "]")
      :: match extra with Some e => [e; ""] | None => [""] end).

Fixpoint lineas_catalogo (l : list fila) : res (list string) :=
  match l with
  | [] => Ok []
  | RVal _ :: l' => lineas_catalogo l'
  | RDict d :: l' =>
      let* a := lineas_producto d in
      let* b := lineas_catalogo l' in
      Ok (a ++ b)
  end.

Definition _formatear_resultado_busqueda (resultados : list fila) : res string :=
  match resultados with
  | [] => Ok "No se encontraron productos."
  | _ =>
      let* lineas := lineas_catalogo (firstn 5 resultados) in
      Ok (join nl ("CATALOGO DISPONIBLE (copia estos datos exactamente):" :: ""
                   :: lineas))
  end.

(** *** [_buscar_productos_proactivo] *)

(** Lines 625-651.  The rows within the budget, in the order of the
    catalogue answer; a row that is no [dict] or whose price does not
    parse is passed over. *)
Fixpoint productos_filtrados (presupuesto : Q) (l : list fila) : list fila :=
  match l with
  | [] => []
  | RDict d :: l' =>
      match precio_fila (get d "Precio_final" (PStr "0")) with
      | Ok precio =>
          if Qle_bool precio presupuesto
          then RDict d :: productos_filtrados presupuesto l'
          else productos_filtrados presupuesto l'
      | Raise _ => productos_filtrados presupuesto l'
      end
  | RVal _ :: l' => productos_filtrados presupuesto l'
  end.

Definition get_precio_safe (x : fila) : Q :=
  match x with
  | RDict d => try_except (precio_fila (get d "Precio_final" (PStr "9999"))) 9999%Q
  | RVal _ => 9999%Q
  end.

Definition es_dict (x : fila) : bool :=
  match x with RDict _ => true | RVal _ => false end.

(** When no row is within the budget: the three cheapest. *)
Definition mas_cercanos (l : list fila) : list fila :=
  firstn 3
    (sorted_by (fun a b => Qlt_bool (get_precio_safe a) (get_precio_safe b))
       (List.filter es_dict l)).

Definition seleccion_proactiva (presupuesto : Q) (productos_principales : list fila)
  : list fila :=
  match productos_filtrados presupuesto productos_principales with
  | [] => mas_cercanos productos_principales
  | filtrados => filtrados
  end.

(** The catalogue lookups of the [try] block of lines 603-620. *)
Definition productos_principales (ctx : gmap string ctxval) (query : string)
  : list fila :=
  if is_available mcp then
    let r := buscar_productos mcp query in
    let r :=
      match r with
      | [] =>
          if (1 <? length (query_parts ctx))%nat then
            match ctx !! "ocasion", ctx !! "tipo_producto" with
            | Some o, _ => buscar_productos mcp (texto_de o)
            | None, Some t => buscar_productos mcp (texto_de t)
            | None, None => r
            end
          else r
      | _ => r
      end in
    match r with
    | [] => productos_economicos mcp 10
    | _ => r
    end
  else [].

(** [next((g for g in globos if "cumple" in g.get("Producto", "").lower()),
    globos[0])] *)
Fixpoint primer_cumple (l : list fila) : res (option fila) :=
  match l with
  | [] => Ok None
  | RVal _ :: _ => Raise AttributeError
  | RDict d :: l' =>
      let* nombre := as_str (get d "Producto" (PStr "")) in
      if str_in "cumple" (lower nombre) then Ok (Some (RDict d))
      else primer_cumple l'
  end.

(** The loop over [descuentos[:2]]. *)
Fixpoint oferta_especial (ocasion : string) (l : list fila) : res (list (string * fila)) :=
  match l with
  | [] => Ok []
  | RVal _ :: _ => Raise AttributeError
  | RDict d :: l' =>
      let* categoria := as_str (get d "Categoria" (PStr "")) in
      let cat := lower categoria in
      if str_in (lower ocasion) cat || str_in cat (lower ocasion)
      then Ok [("Oferta especial", RDict d)]
      else oferta_especial ocasion l'
  end.

(** The cross-selling [try] block: an exception ends the block and keeps
    the complements found so far. *)
Definition complementos (ctx : gmap string ctxval) (query : string)
  : list (string * fila) :=
  let ocasion := texto_de (get ctx "ocasion" (CVal (PStr ""))) in
  let tipo := texto_de (get ctx "tipo_producto" (CVal (PStr ""))) in
  let c1 :=
    if existsb (fun t => str_in t (lower tipo)) ["flor"; "ramo"; "arreglo"; "rosas"]
       || existsb (fun f => str_in f (lower query)) ["rosa"; "tulipan"; "girasol"; "flor"]
    then
      match buscar_productos mcp "chocolates" with
      | choco :: _ => [("Chocolates", choco)]
      | [] => []
      end ++
      match buscar_productos mcp "peluche" with
      | peluche :: _ => [("Peluche", peluche)]
      | [] => []
      end
    else if str_in "peluche" (lower tipo) || str_in "peluche" (lower query)
    then
      match buscar_productos mcp "rosas" with
      | flor :: _ => [("Ramo de rosas", flor)]
      | [] => []
      end
    else [] in
  let r2 :=
    if str_in "cumple" (lower ocasion) then
      match buscar_productos mcp "globos" with
      | [] => Ok []
      | g0 :: _ as globos =>
          let* g := primer_cumple globos in
          Ok [("Globos", default g0 g)]
      end
    else Ok [] in
  match r2 with
  | Raise _ => c1
  | Ok c2 =>
      match oferta_especial ocasion (firstn 2 (productos_con_descuento mcp)) with
      | Raise _ => c1 ++ c2
      | Ok c3 => c1 ++ c2 ++ c3
      end
  end.

(** The [upsell_producto] stored in the context, and [prod_id_comp]. *)
Definition tarjeta_complemento (prod_comp : fila) : res (tarjeta * pyval) :=
  match prod_comp with
  | RVal _ => Raise AttributeError
  | RDict d =>
      let precio_comp := get d "Precio_final" (PStr "") in
      let prod_id_comp := get d "ID" (PStr "") in
      let* foto_comp := convertir_drive_url_de (get d "Foto" (PStr "")) in
      let* precio_num := precio_fila precio_comp in
      Ok (list_to_map
            [("id", prod_id_comp);
             ("nombre", get d "Producto" (PStr ""));
             ("precio", PStr ("S/" +:+ str precio_comp));
             ("precio_num", PFloat precio_num);
             ("imagen", PStr foto_comp);
             ("categoria", get d "Categoria" (PStr ""));
             ("tipo", get d "Tipo" (PStr ""));
             ("es_upsell", PBool true)],
          prod_id_comp)
  end.

Definition texto_catalogo (resultado cross_sell_text : string) : string :=
  nl +:+ "CATALOGO DISPONIBLE:" +:+ nl +:+ resultado +:+ nl +:+
  "INSTRUCCIONES:" +:+ nl +:+
  "- Muestra 2-3 productos del catalogo usando [PRODUCTO:id|nombre|precio|url]" +:+ nl +:+
  "- NO incluyas productos de complemento/upselling en tu respuesta (se agregan automaticamente)" +:+ nl +:+
  "- " +:+ (if is_empty cross_sell_text then "No hay upselling para esta busqueda"
           else cross_sell_text) +:+ nl.

Definition cross_sell_pregunta : string :=
  nl +:+ nl +:+ "Al final pregunta: 'Te gustaria agregarlo?' (el producto de upselling ya se muestra como tarjeta)".

Definition busqueda_explicita (mensaje_lower : string) : bool :=
  any_in ["muestrame"; "mostrar"; "ver opciones"; "que tienes"; "opciones";
          "quiero ver"; "enseñame"; "tienen"] mensaje_lower.

Definition contexto_suficiente (ctx : gmap string ctxval) (mensaje_lower : string)
  : bool :=
  let tiene_ocasion := tiene ctx "ocasion" in
  let tiene_preferencia :=
    tiene ctx "color_preferido" || tiene ctx "flor_preferida"
    || tiene ctx "tipo_producto" in
  let tiene_presupuesto := tiene ctx "presupuesto_min" || tiene ctx "presupuesto_max" in
  let tiene_tipo := tiene ctx "tipo_producto" in
  (tiene_ocasion && tiene_presupuesto) || (tiene_tipo && tiene_presupuesto)
  || (tiene_preferencia && tiene_presupuesto) || busqueda_explicita mensaje_lower.

(** The excerpt for the prompt and the conversation, whose context has
    gained the upsell candidate when there is one. *)
Definition _buscar_productos_proactivo (mensaje : string) (c : Conversacion)
  : res (string * Conversacion) :=
  let ctx := contexto c in
  if negb (contexto_suficiente ctx (lower mensaje)) then Ok ("", c)
  else
    let* query :=
      match query_parts ctx with
      | [] => Ok mensaje
      | parts => let* ts := textos parts in Ok (join " " ts)
      end in
    let* presupuesto := ctx_float (get ctx "presupuesto_max" (CVal (PInt 500))) in
    match productos_principales ctx query with
    | [] => Ok ("", c)
    | principales =>
        let* resultado :=
          _formatear_resultado_busqueda
            (firstn 5 (seleccion_proactiva presupuesto principales)) in
        match complementos ctx query with
        | [] => Ok (texto_catalogo resultado "", c)
        | (_, prod_comp) :: _ =>
            let* (upsell_producto, prod_id_comp) := tarjeta_complemento prod_comp in
            let c1 := actualizar_contexto c "upsell_producto" (CDict upsell_producto) in
            let c2 := actualizar_contexto c1 "ultimo_upsell_id" (CVal prod_id_comp) in
            Ok (texto_catalogo resultado cross_sell_pregunta, c2)
        end
    end.

(** *** [_procesar_acciones] *)

(** [self._ejecutar_busqueda]: the catalogue search behind the legacy
    search directive. *)
Variable _ejecutar_busqueda : string → list Producto.

(** The local state of [_procesar_acciones], with the conversation it
    mutates and the random generator it draws from. *)
Record Estado : Type := mkEstado {
  respuesta_procesada : string;
  productos_display : list tarjeta;
  acciones : list accion;
  conv : Conversacion;
  gen : rng
}.

Definition parte (i : nat) (parts : list string) : string := nth i parts "".

(** [float(precio) if precio.replace(".", "").isdigit() else 0] *)
Definition precio_num_de (precio : string) : res pyval :=
  if isdigit (replace "." "" precio)
  then match decimal_of_str precio with
       | Some q => Ok (PFloat q)
       | None => Raise ValueError
       end
  else Ok (PInt 0).

(** The body of the loop over the [PRODUCTO] matches. *)
Definition paso_producto (st : Estado) (match_str : string) : res Estado :=
  let parts := split "|" match_str in
  if (3 <=? length parts)%nat then
    let prod_id := strip (parte 0 parts) in
    let nombre := strip (parte 1 parts) in
    let precio := strip (parte 2 parts) in
    let imagen_url :=
      if (3 <? length parts)%nat then _convertir_drive_url (strip (parte 3 parts))
      else "" in
    let* precio_num := precio_num_de precio in
    let producto_display : tarjeta :=
      list_to_map
        [("id", PStr prod_id); ("nombre", PStr nombre);
         ("precio", PStr ("S/" +:+ precio)); ("precio_num", precio_num);
         ("imagen", PStr imagen_url)] in
    Ok (mkEstado
          (replace ("[PRODUCTO:" +:+ match_str +:+ "]")
             (nl +:+ "**" +:+ nombre +:+ "** - S/" +:+ precio)
             (respuesta_procesada st))
          (productos_display st ++ [producto_display])
          (acciones st ++ [AMostrarProducto producto_display])
          (conv st) (gen st))
  else Ok st.

Fixpoint pasos_producto (st : Estado) (ms : list string) : res Estado :=
  match ms with
  | [] => Ok st
  | m :: ms' => let* st1 := paso_producto st m in pasos_producto st1 ms'
  end.

Definition tarjeta_busqueda (p : Producto) : tarjeta :=
  let con_descuento := negb (Qeq_bool (prod_descuento p) 0) in
  list_to_map
    [("id", PStr (prod_id p));
     ("nombre", PStr (prod_producto p));
     ("precio", PStr ("S/" +:+ fmt_f 2 (prod_precio_final p)));
     ("precio_num", PFloat (prod_precio_final p));
     ("imagen", PStr (match prod_foto p with
                      | Some f => _convertir_drive_url f
                      | None => ""
                      end));
     ("descuento", if con_descuento then PFloat (prod_descuento p) else PInt 0);
     ("precio_original",
      if con_descuento then PStr ("S/" +:+ repr_float (prod_precio p)) else PNone)].

Definition linea_producto (t : tarjeta) : string :=
  "- **" +:+ str (campo t "nombre") +:+ "** - " +:+ str (campo t "precio").

Definition no_encontrado : string :=
  nl +:+ "No encontre productos con esas caracteristicas. Quieres probar con algo diferente?".

Definition paso_buscar (respuesta : string) (st : Estado) : Estado :=
  match re_search P_BUSCAR_PRODUCTO respuesta with
  | None => st
  | Some m =>
      let query := strip (group 1 m) in
      let productos_encontrados := _ejecutar_busqueda query in
      let st1 :=
        match productos_encontrados with
        | [] =>
            mkEstado (replace (group 0 m) no_encontrado (respuesta_procesada st))
              (productos_display st) (acciones st) (conv st) (gen st)
        | _ =>
            let display :=
              productos_display st
              ++ map tarjeta_busqueda (firstn 3 productos_encontrados) in
            mkEstado
              (replace (group 0 m) (nl +:+ join nl (map linea_producto display))
                 (respuesta_procesada st))
              display (acciones st) (conv st) (gen st)
        end in
      mkEstado (respuesta_procesada st1) (productos_display st1)
        (acciones st1 ++ [ABuscar query (length productos_encontrados)])
        (conv st1) (gen st1)
  end.

(** [float(parts[2].strip()) if len(parts) > 2 else 0], and [0] when
    [float] raises. *)
Definition precio_agregar (parts : list string) : pyval :=
  if (2 <? length parts)%nat
  then match float_of_str (strip (parte 2 parts)) with
       | Some q => PFloat q
       | None => PInt 0
       end
  else PInt 0.

(** The product an add-to-cart directive resolves to: by id when the id is
    a numeral, else (or when the id is unknown) by name. *)
Definition resolver_producto (producto_id nombre : string) : option Producto :=
  let por_id := if isdigit producto_id then obtener_producto bq producto_id else None in
  match por_id with
  | Some p => Some p
  | None =>
      if negb (is_empty nombre)
      then head (bq_buscar_productos bq nombre 1)
      else None
  end.

Definition paso_agregar (respuesta : string) (st : Estado) : Estado :=
  match re_search P_AGREGAR_CARRITO respuesta with
  | None => st
  | Some m =>
      let parts := split "|" (strip (group 1 m)) in
      let producto_id := strip (parte 0 parts) in
      let nombre := if (1 <? length parts)%nat then strip (parte 1 parts)
                    else "Producto" in
      let precio := precio_agregar parts in
      let texto := replace (group 0 m) "" (respuesta_procesada st) in
      match resolver_producto producto_id nombre with
      | None =>
          mkEstado texto (productos_display st) (acciones st) (conv st) (gen st)
      | Some producto =>
          let c := conv st in
          let k := match carrito c with
                   | Some k => k
                   | None => nuevo_Carrito (session_id c)
                   end in
          let c1 := con_carrito c (Some (agregar_item k producto 1)) in
          let c2 := if no_vacio (contexto c1)
                    then con_contexto c1 (delete "ultimo_upsell_id" (contexto c1))
                    else c1 in
          mkEstado texto (productos_display st)
            (acciones st ++ [AAgregarCarrito (prod_id producto)
                               (prod_producto producto) precio])
            c2 (gen st)
      end
  end.

Definition checkout_url (codigo : string) : string :=
  "https://rosatel.pe/checkout/" +:+ codigo.

(** [conversacion.carrito.to_dict() if conversacion.carrito else None]:
    [Carrito] defines no [to_dict], nor does the base class of the
    models, so the attribute lookup raises when there is a cart. *)
Definition carrito_to_dict (k : option Carrito) : res pyval :=
  match k with
  | Some _ => Raise AttributeError
  | None => Ok PNone
  end.

Definition paso_checkout (respuesta : string) (st : Estado) : res Estado :=
  match re_search P_CHECKOUT respuesta with
  | None => Ok st
  | Some m =>
      let '(codigo, g) :=
        if eqs (strip (group 1 m)) "codigo_random"
        then _generar_codigo_carrito (gen st)
        else (strip (group 1 m), gen st) in
      let url := checkout_url codigo in
      let texto := replace (group 0 m) (nl +:+ nl +:+ "Link de pago: " +:+ url)
                     (respuesta_procesada st) in
      let* snapshot := carrito_to_dict (carrito (conv st)) in
      Ok (mkEstado texto (productos_display st)
            (acciones st ++ [ACheckout codigo url snapshot]) (conv st) g)
  end.

Definition paso_ver_carrito (respuesta : string) (st : Estado) : res Estado :=
  if str_in T_VER_CARRITO respuesta then
    let carrito_msg :=
      match carrito (conv st) with
      | Some k => carrito_to_chat_message k
      | None => "Tu carrito esta vacio."
      end in
    let* texto := re_sub_lit T_VER_CARRITO (nl +:+ carrito_msg) (respuesta_procesada st) in
    Ok (mkEstado texto (productos_display st) (acciones st ++ [AVerCarrito])
          (conv st) (gen st))
  else Ok st.

Definition carrito_con_items (c : Conversacion) : option Carrito :=
  match carrito c with
  | Some k => match items k with [] => None | _ => Some k end
  | None => None
  end.

Definition paso_generar_checkout (respuesta : string) (st : Estado) : res Estado :=
  if str_in T_GENERAR_CHECKOUT respuesta then
    match carrito_con_items (conv st) with
    | Some k =>
        let '(codigo, g) := _generar_codigo_carrito (gen st) in
        let url := checkout_url codigo in
        let checkout_msg :=
          nl +:+ "Resumen de tu pedido:" +:+ nl +:+ carrito_to_chat_message k +:+
          nl +:+ nl +:+ "Link de pago: " +:+ url +:+ nl in
        let* texto := re_sub_lit T_GENERAR_CHECKOUT checkout_msg (respuesta_procesada st) in
        Ok (mkEstado texto (productos_display st)
              (acciones st ++ [ACheckoutLegacy codigo url]) (conv st) g)
    | None => Ok st
    end
  else Ok st.

(** The parser: the cleaned text, the cards, the side effects, and the
    conversation and generator after it.  Every search reads the raw
    [respuesta]; every rewrite applies to [respuesta_procesada]. *)
Definition _procesar_acciones (respuesta : string) (c : Conversacion) (g : rng)
  : res Estado :=
  let st0 := mkEstado respuesta [] [] c g in
  let* st1 := pasos_producto st0 (re_findall P_PRODUCTO respuesta) in
  let st2 := paso_buscar respuesta st1 in
  let st3 := paso_agregar respuesta st2 in
  let* st4 := paso_checkout respuesta st3 in
  let* st5 := paso_ver_carrito respuesta st4 in
  let* st6 := paso_generar_checkout respuesta st5 in
  Ok (mkEstado (strip (respuesta_procesada st6)) (productos_display st6)
        (acciones st6) (conv st6) (gen st6)).

(** *** [_generar_respuesta] and [procesar_mensaje] *)

(** The language model behind [self.model.generate_content], [None] when no
    API key is configured: from the conversation, the catalogue excerpt and
    the message (which make the prompt) to [response.text], or an error.
    [_respuesta_demo] is the offline reply generator. *)
Variable modelo : option (Conversacion → string → string → res string).
Variable _respuesta_demo : string → Conversacion → res (string * Conversacion).

Definition _generar_respuesta (c : Conversacion) (mensaje_usuario : string)
  : res (string * Conversacion) :=
  match modelo with
  | None => _respuesta_demo mensaje_usuario c
  | Some generate_content =>
      match _buscar_productos_proactivo mensaje_usuario c with
      | Raise _ => _respuesta_demo mensaje_usuario c
      | Ok (productos_context, c1) =>
          match generate_content c1 productos_context mensaje_usuario with
          | Raise _ => _respuesta_demo mensaje_usuario c1
          | Ok text =>
              if is_empty text
              then Ok ("Lo siento, no pude procesar tu mensaje. Podrias repetirlo?", c1)
              else Ok (strip text, c1)
          end
      end
  end.

(** Lines 133-145: the pending upsell candidate goes last, once.  The
    candidate is whatever the context holds under ["upsell_producto"], if
    truthy; the item assignment raises [TypeError] on a value that is no
    [dict]. *)
Definition ctx_truthy (v : ctxval) : bool :=
  match v with
  | CVal x => truthy x
  | CDict d => no_vacio d
  end.

Definition mismo_id (upsell p : tarjeta) : bool :=
  eqs (str (get p "id" (PStr ""))) (str (get upsell "id" (PStr ""))).

Definition agregar_upsell (productos : list tarjeta) (c : Conversacion)
  : res (list tarjeta * Conversacion) :=
  match productos, contexto c !! "upsell_producto" with
  | _ :: _, Some upsell_prod =>
      if ctx_truthy upsell_prod then
        match upsell_prod with
        | CDict u =>
            let upsell := <["es_upsell" := PBool true]> u in
            Ok (List.filter (fun p => negb (mismo_id upsell p)) productos ++ [upsell],
                con_contexto c (delete "upsell_producto" (contexto c)))
        | CVal _ => Raise TypeError
        end
      else Ok (productos, c)
  | _, _ => Ok (productos, c)
  end.

(** Lines 151-171: the fallback when no card is shown. *)
Definition fallback_productos (mensaje_usuario texto : string) (c : Conversacion)
  : res (list tarjeta) :=
  match _detectar_nueva_solicitud mensaje_usuario with
  | Some nueva_solicitud => Ok (_buscar_por_solicitud nueva_solicitud c)
  | None =>
      let resp_lower := lower texto in
      let msg_lower := lower mensaje_usuario in
      let skip_fallback :=
        str_in "agregado" resp_lower || str_in "finaliza" resp_lower
        || str_in "carrito" msg_lower || str_in "lo quiero" msg_lower in
      if skip_fallback then Ok [] else _buscar_productos_fallback c
  end.

(** [[b.strip() for b in texto.split("|NUEVA_BURBUJA|") if b.strip()]] *)
Definition en_burbujas (texto : string) : list string :=
  List.filter (fun b => negb (is_empty b)) (map strip (split "|NUEVA_BURBUJA|" texto)).

Definition procesar_mensaje (c : Conversacion) (mensaje_usuario : string) (g : rng)
  : res (Respuesta * Conversacion * rng) :=
  let c := extraer_preferencias mensaje_usuario c in
  match _detectar_upselling_response mensaje_usuario c with
  | Some respuesta_upsell =>
      let c := agregar_mensaje c "user" mensaje_usuario in
      let c := agregar_mensaje c "assistant"
                 (default "" (r_texto_limpio respuesta_upsell)) in
      Ok (respuesta_upsell, c, g)
  | None =>
      let c := agregar_mensaje c "user" mensaje_usuario in
      let* (respuesta_raw, c) := _generar_respuesta c mensaje_usuario in
      let* st := _procesar_acciones respuesta_raw c g in
      let* (productos, c) := agregar_upsell (productos_display st) (conv st) in
      let* productos :=
        match productos with
        | [] => fallback_productos mensaje_usuario (respuesta_procesada st) c
        | _ => Ok productos
        end in
      let burbujas := en_burbujas (respuesta_procesada st) in
      let c := agregar_mensaje c "assistant" (join " " burbujas) in
      Ok (mkRespuesta
            (match burbujas with [b] => inl b | _ => inr burbujas end)
            None burbujas productos (acciones st) (carrito c),
          c, gen st)
  end.

End Brain.

End AIBrain.

(** ** [config.py]: the stores, and the store hours of [services/ai_brain.py] *)

Module Horarios.
Import Py AIBrain.

(** An entry of [TIENDAS_ROSATEL]. *)
Record Tienda : Type := mkTienda {
  nombre : string;
  direccion : string;
  telefono : string;
  horario : string;
  hora_apertura : Z;
  hora_cierre : Z
}.

Definition TIENDAS_ROSATEL : list Tienda :=
  [ mkTienda "Rosatel La Fontana" "Av. la Fontana 790, La Molina" "(01) 4464666"
      "10:00 AM - 10:00 PM" 10 22;
    mkTienda "Rosatel Surco" "Santiago de Surco" "(01) 4464666"
      "8:00 AM - 10:00 PM" 8 22;
    mkTienda "Rosatel Surco Centro" "Santiago de Surco" "943 030 983"
      "8:00 AM - 10:00 PM" 8 22 ].

(** [tienda["hora_apertura"] <= hora_actual < tienda["hora_cierre"]] *)
Definition _verificar_tienda_abierta (tienda : Tienda) (hora_actual : Z) : bool :=
  (hora_apertura tienda <=? hora_actual)%Z && (hora_actual <? hora_cierre tienda)%Z.

(** The line [estado_tiendas] of the prompt of [_generar_respuesta], from
    [hora_lima.strftime("%H:%M")] and [hora_lima.hour]. *)
Definition estado_tiendas (hora_actual : string) (hora_int : Z) : string :=
  if (22 <=? hora_int)%Z || (hora_int <? 8)%Z then
    "HORA ACTUAL: " +:+ hora_actual +:+
    " - Las tiendas fisicas estan CERRADAS (abren 8AM-10PM). Solo tienda online disponible."
  else if (hora_int <? 10)%Z then
    "HORA ACTUAL: " +:+ hora_actual +:+
    " - Solo Surco y Surco Centro estan abiertas. La Fontana abre a las 10AM."
  else
    "HORA ACTUAL: " +:+ hora_actual +:+ " - Todas las tiendas estan ABIERTAS.".

(** The lines of [ESTADO TIENDAS] in [_construir_contexto]. *)
Definition linea_estado (hora : Z) (tienda : Tienda) : string :=
  "- " +:+ nombre tienda +:+ ": " +:+
  (if _verificar_tienda_abierta tienda hora then "ABIERTA" else "CERRADA") +:+
  " (horario: " +:+ horario tienda +:+ ")".

Definition estado_tiendas_contexto (hora : Z) : string :=
  "ESTADO TIENDAS:" +:+ nl +:+ join nl (map (linea_estado hora) TIENDAS_ROSATEL).

End Horarios.

(** ** [services/image_utils.py] *)

Module ImageUtils.
Import Py AIBrain.

Definition uc (file_id : string) : string :=
  "https://drive.google.com/uc?export=view&id=" +:+ file_id.

(** [convert_drive_url]: [None] for an empty URL, the URL itself when it
    is a direct one already or when it holds no file id. *)
Definition convert_drive_url (url : string) : option string :=
  if is_empty url then None
  else if str_in "uc?export=view" url then Some url
  else
    match re_search P_DRIVE_PATH url with
    | Some m => Some (uc (group 1 m))
    | None =>
        match re_search P_DRIVE_QUERY url with
        | Some m => Some (uc (group 1 m))
        | None => Some url
        end
    end.

(** [extract_drive_file_id] *)
Definition extract_drive_file_id (url : string) : option string :=
  if is_empty url then None
  else
    match re_search P_DRIVE_PATH url with
    | Some m => Some (group 1 m)
    | None =>
        match re_search P_DRIVE_QUERY url with
        | Some m => Some (group 1 m)
        | None => None
        end
    end.

(** [id=([a-zA-Z0-9_-]+)] *)
Definition P_ID : regex := cat [lit "id="; RGroup 1 (RPlus (RClass id_char))].

Definition thumbnail (file_id size : string) : string :=
  "https://drive.google.com/thumbnail?id=" +:+ file_id +:+ "&sz=" +:+ size.

(** [get_image_thumbnail] *)
Definition get_image_thumbnail (url size : string) : option string :=
  if is_empty url then None
  else
    match convert_drive_url url with
    | None => None
    | Some direct_url =>
        if is_empty direct_url then None
        else
          match re_search P_ID direct_url with
          | Some m => Some (thumbnail (group 1 m) size)
          | None => Some direct_url
          end
    end.

End ImageUtils.

(** ** [services/session_manager.py]

    The session store without Redis ([self._redis] is [None]): the
    dictionary [_local_sessions].  As in [Models], the time stamps and the
    [metadata] of a message are outside the model.

    The store holds values: [guardar_conversacion] files the conversation
    as it is at the call.  In the code the [contexto] that is filed is the
    dictionary of the conversation itself, not a copy, so that a write to
    a conversation after it was created or saved shows in the store before
    the conversation is saved again.  The model describes the store as a
    call leaves it and as the next call finds it when the conversation in
    hand was not written to in between; this is the case of the end
    points when they answer: they save the conversation after they have
    written to it. *)

Module SessionManager.
Import Py Models.

(** The [dict]s that [_serializar_conversacion] builds. *)
Record ItemData : Type := mkItemData {
  i_producto_id : string;
  i_producto_nombre : string;
  i_cantidad : Z;
  i_precio_unitario : Q;
  i_subtotal : Q
}.

Record CarritoData : Type := mkCarritoData {
  k_session_id : string;
  k_items : list ItemData
}.

Record MensajeData : Type := mkMensajeData {
  m_role : string;
  m_content : string
}.

Record ConversacionData : Type := mkConversacionData {
  d_session_id : string;
  d_canal : string;
  d_user_id : option string;
  d_mensajes : list MensajeData;
  d_carrito : option CarritoData;
  d_contexto : gmap string ctxval
}.

(** [canal.value] and [CanalMensaje(v)], which raises [ValueError] on a
    string that is no value of the enumeration. *)
Definition canal_value (c : CanalMensaje) : string :=
  match c with
  | WHATSAPP => "whatsapp"
  | INSTAGRAM => "instagram"
  | WIDGET => "widget"
  end.

Definition canal_de (v : string) : res CanalMensaje :=
  if eqs v "whatsapp" then Ok WHATSAPP
  else if eqs v "instagram" then Ok INSTAGRAM
  else if eqs v "widget" then Ok WIDGET
  else Raise ValueError.

Definition _serializar_conversacion (conv : Conversacion) : ConversacionData :=
  mkConversacionData (session_id conv) (canal_value (canal conv)) (user_id conv)
    (map (fun m => mkMensajeData (role m) (content m)) (mensajes conv))
    (match carrito conv with
     | Some k =>
         Some (mkCarritoData (carrito_session_id k)
                 (map (fun item => mkItemData (producto_id item) (producto_nombre item)
                                     (cantidad item) (precio_unitario item) (subtotal item))
                    (items k)))
     | None => None
     end)
    (contexto conv).

(** [CarritoItem] built from the entries of [item_data]: the constructor
    recomputes the subtotal. *)
Definition item_de (item_data : ItemData) : CarritoItem :=
  nuevo_CarritoItem (i_producto_id item_data) (i_producto_nombre item_data)
    (i_cantidad item_data) (i_precio_unitario item_data).

Definition _deserializar_conversacion (data : ConversacionData) : res Conversacion :=
  let mensajes := map (fun m => mkMensajeChat (m_role m) (m_content m)) (d_mensajes data) in
  let carrito :=
    match d_carrito data with
    | Some carrito_data =>
        Some (mkCarrito (k_session_id carrito_data) (map item_de (k_items carrito_data)))
    | None => None
    end in
  let* canal := canal_de (d_canal data) in
  Ok (mkConversacion (d_session_id data) canal (d_user_id data) mensajes carrito
        (d_contexto data)).

(** [_local_sessions] *)
Abbreviation sesiones := (gmap string ConversacionData).

Definition guardar_conversacion (s : sesiones) (conversacion : Conversacion) : sesiones :=
  <[session_id conversacion := _serializar_conversacion conversacion]> s.

(** [obtener_conversacion]: the stored conversation, or a new one with an
    empty cart, which is stored. *)
Definition obtener_conversacion (s : sesiones) (sid : string) (canal : CanalMensaje)
    (user_id : option string) : res (Conversacion * sesiones) :=
  match s !! sid with
  | Some data =>
      let* conversacion := _deserializar_conversacion data in
      Ok (conversacion, s)
  | None =>
      let conversacion :=
        mkConversacion sid canal user_id [] (Some (nuevo_Carrito sid)) ∅ in
      Ok (conversacion, guardar_conversacion s conversacion)
  end.

Definition eliminar_conversacion (s : sesiones) (sid : string) : sesiones :=
  delete sid s.

End SessionManager.

(** ** The cart end points of [routers/widget.py] *)

Module Widget.
Import Py Models AIBrain SessionManager.

(** What an end point does: it answers, or raises [HTTPException], or
    fails with another exception. *)
Inductive http (A : Type) : Type :=
| Responde (a : A)
| HTTPException (status_code : Z) (detail : string)
| Falla (e : exc).
Arguments Responde {A} a.
Arguments HTTPException {A} status_code detail.
Arguments Falla {A} e.

(** [WELCOME_MESSAGE] of [config.py] *)
Definition WELCOME_MESSAGE : string :=
  "Hola! Soy Rosa de Rosatel. Buscas algo especial hoy?".

Section EndPoints.

(** [settings.widget_api_key] and the catalogue. *)
Variable widget_api_key : string.
Variable bq : BigQueryService.

(** [verificar_api_key]: [not x_api_key or x_api_key != ...]. *)
Definition verificar_api_key (x_api_key : option string) : bool :=
  match x_api_key with
  | Some k => negb (is_empty k) && eqs k widget_api_key
  | None => false
  end.

(** The answer of [agregar_al_carrito]: the message, [len(items)] and the
    total. *)
Record Agregado : Type := mkAgregado {
  agregado_mensaje : string;
  carrito_items : nat;
  carrito_total : Q
}.

Definition agregar_al_carrito (s : sesiones) (sid producto_id : string) (cantidad : Z)
    (x_api_key : option string) : http Agregado * sesiones :=
  if negb (verificar_api_key x_api_key) then (HTTPException 401 "API key inválida", s)
  else
    match obtener_producto bq producto_id with
    | None => (HTTPException 404 "Producto no encontrado", s)
    | Some producto =>
        if (prod_stock producto <? cantidad)%Z
        then (HTTPException 400 "Stock insuficiente", s)
        else
          match obtener_conversacion s sid WIDGET None with
          | Raise e => (Falla e, s)
          | Ok (conversacion, s1) =>
              match carrito conversacion with
              | None => (Falla AttributeError, s1)
              | Some k =>
                  let k' := agregar_item k producto cantidad in
                  (Responde (mkAgregado (prod_producto producto +:+ " agregado al carrito")
                               (length (items k')) (total k')),
                   guardar_conversacion s1 (con_carrito conversacion (Some k')))
              end
          end
    end.

(** The answer of [ver_carrito]: the items and the total. *)
Definition ver_carrito (s : sesiones) (sid : string) (x_api_key : option string)
  : http (list CarritoItem * Q) * sesiones :=
  if negb (verificar_api_key x_api_key) then (HTTPException 401 "API key inválida", s)
  else
    match obtener_conversacion s sid WIDGET None with
    | Raise e => (Falla e, s)
    | Ok (conversacion, s1) =>
        match carrito conversacion with
        | None => (Responde ([], 0%Q), s1)
        | Some k =>
            match items k with
            | [] => (Responde ([], 0%Q), s1)
            | _ => (Responde (items k, total k), s1)
            end
        end
    end.

(** The parameters of the brain. *)
Variable repr_float : Q → string.
Variable float_of_str : string → option Q.
Variable repr_dict : tarjeta → string.
Variable mcp : MCPToolboxService.
Variable ejecutar_busqueda : string → list Producto.
Variable modelo : option (Conversacion → string → string → res string).
Variable _respuesta_demo : string → Conversacion → res (string * Conversacion).

(** [IniciarChatResponse] *)
Record IniciarChatResponse : Type := mkIniciarChatResponse {
  ic_session_id : string;
  mensaje_bienvenida : string
}.

(** [iniciar_chat]; [uuid12] is [uuid.uuid4().hex[:12]]. *)
Definition iniciar_chat (s : sesiones) (request_session_id : option string)
    (uuid12 : string) (x_api_key : option string) : http IniciarChatResponse * sesiones :=
  if negb (verificar_api_key x_api_key)
  then (HTTPException 401 "API key inválida", s)
  else
    let session_id :=
      match request_session_id with
      | Some sid => if is_empty sid then "widget_" +:+ uuid12 else sid
      | None => "widget_" +:+ uuid12
      end in
    match obtener_conversacion s session_id WIDGET None with
    | Raise e => (Falla e, s)
    | Ok (conversacion, s1) =>
        let s2 :=
          match mensajes conversacion with
          | [] =>
              guardar_conversacion s1
                (agregar_mensaje conversacion "assistant" WELCOME_MESSAGE)
          | _ => s1
          end in
        (Responde (mkIniciarChatResponse session_id WELCOME_MESSAGE), s2)
    end.

(** [MensajeResponse] *)
Record MensajeResponse : Type := mkMensajeResponse {
  mr_texto : string;
  mr_burbujas : list string;
  mr_productos : option (list tarjeta);
  mr_carrito : option (list CarritoItem * Q)
}.

(** [enviar_mensaje].  The answer travels with the generator and the
    sessions after the call.  What a failing call leaves in the store is
    outside the model: the conversation that a new session has just
    stored shares its context with the one the turn mutates.
    [MensajeResponse] refuses a [texto] that is no string: the list of
    bubbles of a turn without bubbles. *)
Definition enviar_mensaje (s : sesiones) (session_id mensaje : string)
    (x_api_key : option string) (g : rng) : http (MensajeResponse * rng * sesiones) :=
  if negb (verificar_api_key x_api_key)
  then HTTPException 401 "API key inválida"
  else if is_empty mensaje || is_empty (strip mensaje)
  then HTTPException 400 "Mensaje vacío"
  else
    match obtener_conversacion s session_id WIDGET None with
    | Raise e => Falla e
    | Ok (conversacion, s1) =>
        match procesar_mensaje repr_float float_of_str repr_dict mcp bq ejecutar_busqueda
                modelo _respuesta_demo conversacion (strip mensaje) g with
        | Raise e => Falla e
        | Ok (respuesta, conversacion, g') =>
            let conversacion := extraer_preferencias mensaje conversacion in
            let s2 := guardar_conversacion s1 conversacion in
            let productos_data :=
              match r_productos respuesta with
              | [] => None
              | ps => Some ps
              end in
            let carrito_data :=
              match carrito conversacion with
              | Some k =>
                  match items k with
                  | [] => None
                  | its => Some (its, total k)
                  end
              | None => None
              end in
            match r_burbujas respuesta with
            | texto_principal :: _ =>
                Responde (mkMensajeResponse texto_principal (r_burbujas respuesta)
                            productos_data carrito_data, g', s2)
            | [] =>
                match r_texto respuesta with
                | inl texto =>
                    Responde (mkMensajeResponse texto [] productos_data carrito_data, g', s2)
                | inr _ => Falla ValueError
                end
            end
        end
    end.

End EndPoints.

End Widget.

(** * The vocabulary of the properties *)

Import Py Models AIBrain.

(** ** The cart *)

(** The items of a cart that carry a product id. *)
Definition items_de (pid : string) (c : Carrito) : list CarritoItem :=
  List.filter (fun it => eqs (producto_id it) pid) (items c).

(** A sequence of [agregar_item] calls, each with its product and quantity. *)
Definition agregar_llamadas (c : Carrito) (llamadas : list (Producto * Z)) : Carrito :=
  fold_left (fun k pc => agregar_item k (fst pc) (snd pc)) llamadas c.

(** The quantities a sequence of calls adds up to. *)
Definition suma_cantidades (llamadas : list (Producto * Z)) : Z :=
  fold_right Z.add 0%Z (map snd llamadas).

(** An item after [cant] more units: quantity raised, subtotal recomputed. *)
Definition con_mas (it : CarritoItem) (cant : Z) : CarritoItem :=
  mkCarritoItem (producto_id it) (producto_nombre it) (cantidad it + cant)
    (precio_unitario it) (importe (cantidad it + cant) (precio_unitario it)).

(** An item of the cart that is consistent: its subtotal is its quantity
    times its unit price. *)
Definition subtotal_al_dia (it : CarritoItem) : Prop :=
  subtotal it = importe (cantidad it) (precio_unitario it).

(** ** The turn *)

(** The conversation when the model is invoked: preferences extracted and
    the user message appended. *)
Definition al_generar (c : Conversacion) (mensaje : string) : Conversacion :=
  agregar_mensaje (extraer_preferencias mensaje c) "user" mensaje.

(** The candidate as a card flagged as upsell. *)
Definition marcado (u : tarjeta) : tarjeta := <["es_upsell" := PBool true]> u.

(** Two conversations with the same pending candidate under
    ["upsell_producto"]. *)
Definition mismo_upsell (c c' : Conversacion) : Prop :=
  contexto c' !! "upsell_producto" = contexto c !! "upsell_producto".

(** ** The catalogue searches *)






(** Two catalogue back ends (or one back end at two moments) that answer
    every query alike. *)
Definition mismo_catalogo (m1 m2 : MCPToolboxService) : Prop :=
  is_available m1 = is_available m2 ∧
  (∀ q, buscar_productos m1 q = buscar_productos m2 q) ∧
  (∀ n, productos_economicos m1 n = productos_economicos m2 n) ∧
  productos_con_descuento m1 = productos_con_descuento m2.

(** The keys of the context that the proactive search reads. *)
Definition claves_preferencia : list string :=
  ["ocasion"; "color_preferido"; "flor_preferida"; "tipo_producto";
   "presupuesto_min"; "presupuesto_max"].

(** Two contexts that agree on those keys. *)
Definition mismas_preferencias (ctx ctx' : gmap string ctxval) : Prop :=
  Forall (fun k => ctx !! k = ctx' !! k) claves_preferencia.

(** What the proactive search writes: nothing, or the two upsell keys. *)
Definition anotar (up : option (tarjeta * pyval)) (c : Conversacion) : Conversacion :=
  match up with
  | Some (upsell_producto, prod_id_comp) =>
      actualizar_contexto
        (actualizar_contexto c "upsell_producto" (CDict upsell_producto))
        "ultimo_upsell_id" (CVal prod_id_comp)
  | None => c
  end.

Section PlanProactivo.

Variable repr_float : Q → string.
Variable float_of_str : string → option Q.

(** The excerpt and the upsell candidate as a function of the message and
    of the context alone. *)
Definition plan_proactivo (mcp : MCPToolboxService) (mensaje : string)
    (ctx : gmap string ctxval) : res (string * option (tarjeta * pyval)) :=
  if negb (contexto_suficiente ctx (lower mensaje)) then Ok ("", None)
  else
    let* query :=
      match query_parts ctx with
      | [] => Ok mensaje
      | parts => let* ts := textos parts in Ok (join " " ts)
      end in
    let* presupuesto := ctx_float float_of_str (get ctx "presupuesto_max" (CVal (PInt 500))) in
    match productos_principales mcp ctx query with
    | [] => Ok ("", None)
    | principales =>
        let* resultado :=
          _formatear_resultado_busqueda repr_float float_of_str
            (firstn 5 (seleccion_proactiva float_of_str presupuesto principales)) in
        match complementos mcp ctx query with
        | [] => Ok (texto_catalogo resultado "", None)
        | (_, prod_comp) :: _ =>
            let* up := tarjeta_complemento repr_float float_of_str prod_comp in
            Ok (texto_catalogo resultado cross_sell_pregunta, Some up)
        end
    end.

End PlanProactivo.

(** ** Tags in a text *)

(** [p] and [w] differ at a position that both have. *)
Fixpoint choca (p w : string) : bool :=
  match p, w with
  | String a p', String b w' => negb (Ascii.eqb a b) || choca p' w'
  | _, _ => false
  end.

(** [t] does not go on with a character of the class. *)
Definition corta (f : ascii → bool) (t : string) : Prop :=
  match t with
  | EmptyString => True
  | String c _ => f c = false
  end.

(** One character of the class: what [rmatch (RClass f)] computes. *)
Definition paso_clase {R} (f : ascii → bool) (s : string) (g : capturas) (k : cont R)
  : option R :=
  match s with
  | String c s' => if f c then k s' g else None
  | EmptyString => None
  end.

(** The text of a directive tag: [[name:contenido]]. *)
Definition prefijo (name : string) : string := "[" +:+ name +:+ ":".
Definition tag (name contenido : string) : string :=
  prefijo name +:+ contenido +:+ "]".

(** No opening bracket, no bracket at all. *)
Definition sin_abre (s : string) : Prop :=
  all_chars (fun c => negb (Ascii.eqb c "[")) s = true.
Definition sin_corchetes (s : string) : Prop :=
  all_chars (fun c => negb (Ascii.eqb c "[") && negb (Ascii.eqb c "]")) s = true.

(** A pattern, or a literal, that can only start at an opening bracket. *)
Definition empieza_en_corchete (r : regex) : Prop :=
  match_at r "" = None ∧
  ∀ c s, Ascii.eqb "[" c = false → match_at r (String c s) = None.

(** A response with two tags of the directive [name], with contents [g1]
    and [g2], between pieces of prose. *)
Definition dos_tags (name pre g1 mid g2 post : string) : string :=
  pre +:+ tag name g1 +:+ mid +:+ tag name g2 +:+ post.

(** What is left of a later tag, with content [g2], once [str.replace] has
    rewritten the first: every verbatim copy of the first tag is rewritten
    with it. *)
Definition segundo_tag (name g1 g2 new : string) : string :=
  if eqs g1 g2 then new else tag name g2.

(** Tags of one directive, each followed by its prose. *)
Fixpoint con_tags (f : string → string) (ts : list (string * string)) : string :=
  match ts with
  | [] => ""
  | (g, post) :: ts' => f g +:+ post +:+ con_tags f ts'
  end.

(** A response made of prose and tags of the directive [name] only: the
    first tag, with content [g1], and the tags that follow it. *)
Definition varios_tags (name pre g1 mid : string) (ts : list (string * string))
  : string :=
  pre +:+ tag name g1 +:+ mid +:+ con_tags (tag name) ts.

(** A later tag and the prose after it: a content without brackets and not
    empty, so that the tag is a directive, and prose without an opening
    bracket. *)
Definition trozo_llano (t : string * string) : Prop :=
  sin_corchetes (fst t) ∧ fst t ≠ "" ∧ sin_abre (snd t).

(** The pieces of such a response: prose without an opening bracket, and
    contents without brackets that are not empty. *)
Record prosa_y_tags (pre g1 mid : string) (ts : list (string * string)) : Prop := {
  pt_pre : sin_abre pre;
  pt_g1 : sin_corchetes g1;
  pt_g1_ne : g1 ≠ "";
  pt_mid : sin_abre mid;
  pt_ts : Forall trozo_llano ts
}.

(** The visible text for [varios_tags] when the directive's step puts
    [new] in place of the first tag. *)
Definition texto_varios_tags (name pre g1 mid : string) (ts : list (string * string))
    (new : string) : string :=
  strip (pre +:+ new +:+ mid +:+ con_tags (fun g => segundo_tag name g1 g new) ts).

(** ** The directives of a response *)

(** A [PRODUCTO] match with fewer than three fields. *)
Definition incompleta (match_str : string) : Prop :=
  (length (split "|" match_str) < 3)%nat.

(** A match with three fields or more, as the loop tests it. *)
Definition completa (match_str : string) : bool :=
  (3 <=? length (split "|" match_str))%nat.

(** The kinds of side effect. *)
Definition es_agregar (a : accion) : bool :=
  match a with AAgregarCarrito _ _ _ => true | _ => false end.
Definition es_buscar (a : accion) : bool :=
  match a with ABuscar _ _ => true | _ => false end.
Definition es_checkout (a : accion) : bool :=
  match a with ACheckout _ _ _ => true | _ => false end.
Definition es_mostrar (a : accion) : bool :=
  match a with AMostrarProducto _ => true | _ => false end.

(** The actions a step appends are of none of the three kinds. *)
Definition ajenas (l : list accion) : Prop :=
  List.filter es_agregar l = [] ∧ List.filter es_buscar l = [] ∧
  List.filter es_checkout l = [].

Section EfectosDirectivas.

Variable repr_float : Q → string.
Variable float_of_str : string → option Q.
Variable bq : BigQueryService.
Variable ejecutar_busqueda : string → list Producto.

(** What an add-to-cart directive with a given content does to a
    conversation: the action it records, if its product resolves, and the
    conversation with the product in the cart. *)
Definition aplicar_agregar (contenido : string) (c : Conversacion)
  : list accion * Conversacion :=
  let parts := split "|" (strip contenido) in
  let producto_id := strip (parte 0 parts) in
  let nombre := if (1 <? length parts)%nat then strip (parte 1 parts) else "Producto" in
  match resolver_producto bq producto_id nombre with
  | None => ([], c)
  | Some producto =>
      let k := match carrito c with
               | Some k => k
               | None => nuevo_Carrito (session_id c)
               end in
      let c1 := con_carrito c (Some (agregar_item k producto 1)) in
      ([AAgregarCarrito (prod_id producto) (prod_producto producto)
          (precio_agregar float_of_str parts)],
       if no_vacio (contexto c1)
       then con_contexto c1 (delete "ultimo_upsell_id" (contexto c1)) else c1)
  end.

(** What a legacy search directive with a given content records. *)
Definition aplicar_buscar (contenido : string) : list accion :=
  [ABuscar (strip contenido) (length (ejecutar_busqueda (strip contenido)))].

(** What the legacy search step puts in place of a tag with a given
    content, and the cards it displays. *)
Definition reemplazo_buscar (contenido : string) : string * list tarjeta :=
  match ejecutar_busqueda (strip contenido) with
  | [] => (no_encontrado, [])
  | ps =>
      let display := map (tarjeta_busqueda repr_float) (firstn 3 ps) in
      (nl +:+ join nl (map (linea_producto repr_float) display), display)
  end.

End EfectosDirectivas.

(** The code of an explicit checkout directive with a given content, and
    the generator after it. *)
Definition codigo_checkout (contenido : string) (g : rng) : string * rng :=
  if eqs (strip contenido) "codigo_random"
  then _generar_codigo_carrito g
  else (strip contenido, g).

(** The text an explicit checkout directive is replaced by. *)
Definition enlace_checkout (codigo : string) : string :=
  nl +:+ nl +:+ "Link de pago: " +:+ checkout_url codigo.

(** * The vocabulary of the further properties *)

Import ImageUtils SessionManager Widget.

(** ** The cart as a whole *)

(** The ids of the items of a cart, in order. *)
Definition ids_carrito (c : Carrito) : list string := map producto_id (items c).

(** A cart with one item per product id and every subtotal up to date. *)
Definition bien_formado (c : Carrito) : Prop :=
  NoDup (ids_carrito c) ∧ Forall subtotal_al_dia (items c).

(** The mutators of [Carrito]. *)
Inductive mutacion : Type :=
| Agregar (p : Producto) (cant : Z)
| Remover (pid : string)
| Limpiar.

Definition mutar (c : Carrito) (m : mutacion) : Carrito :=
  match m with
  | Agregar p cant => agregar_item c p cant
  | Remover pid => remover_item c pid
  | Limpiar => limpiar c
  end.

Definition mutaciones (c : Carrito) (ms : list mutacion) : Carrito :=
  fold_left mutar ms c.

(** ** Preference extraction as a whole *)

(** A conversation with nothing in its context. *)
Definition conversacion_en_blanco : Conversacion :=
  mkConversacion "" WIDGET None [] None ∅.

(** What [extraer_preferencias] writes for a message. *)
Definition escritos (mensaje : string) : gmap string ctxval :=
  contexto (extraer_preferencias mensaje conversacion_en_blanco).

(** A step that only writes entries, the same ones whatever the
    conversation. *)
Definition solo_escribe (f : Conversacion → Conversacion) : Prop :=
  ∃ W : gmap string ctxval, ∀ c, f c = con_contexto c (W ∪ contexto c).

(** The steps of [extraer_preferencias] on the lowered message, in the
    order of the source. *)
Definition pasos_preferencias (ml : string) : list (Conversacion → Conversacion) :=
  [ extraer_faceta ocasiones "ocasion" ml;
    extraer_presupuesto ml;
    extraer_faceta colores "color_preferido" ml;
    extraer_faceta flores "flor_preferida" ml;
    extraer_faceta tipos_producto "tipo_producto" ml;
    extraer_intencion
      ["barato"; "economico"; "económico"; "poco presupuesto"; "ajustado"]
      "busca_economico" ml;
    extraer_intencion ["oferta"; "descuento"; "promocion"; "rebaja"]
      "busca_descuento" ml;
    extraer_intencion ["premium"; "lujoso"; "elegante"; "especial"; "grande"]
      "busca_premium" ml ].

(** ** The stores *)

(** The names of the stores that are open at an hour. *)
Definition abiertas (hora : Z) : list string :=
  map Horarios.nombre
    (List.filter (fun t => Horarios._verificar_tienda_abierta t hora)
       Horarios.TIENDAS_ROSATEL).

(** ** The thread of a conversation *)

(** Two states of one conversation with the same identity and history. *)
Definition mismo_hilo (c c' : Conversacion) : Prop :=
  session_id c' = session_id c ∧ canal c' = canal c ∧ user_id c' = user_id c
  ∧ mensajes c' = mensajes c.

(** The units in the cart of a conversation, none without a cart. *)
Definition unidades (c : Conversacion) : Z :=
  match carrito c with
  | Some k => total_items k
  | None => 0
  end.

(** ** Runs of a character class *)

(** The longest prefix of [s] in the class [f], and what follows it. *)
Fixpoint corrida (f : ascii → bool) (s : string) : string :=
  match s with
  | String c s' => if f c then String c (corrida f s') else EmptyString
  | EmptyString => EmptyString
  end.

Fixpoint tras (f : ascii → bool) (s : string) : string :=
  match s with
  | String c s' => if f c then tras f s' else s
  | EmptyString => EmptyString
  end.

(** A file id: a non-empty run of letters, digits, [_] and [-]. *)
Definition es_file_id (s : string) : Prop :=
  s ≠ "" ∧ all_chars id_char s = true.

(** The continuation that ends a match. *)
Definition K0 : cont (string * capturas) := fun s1 g1 => Some (s1, g1).

(** The patterns whose only group is a run of file-id characters at the
    end: a match captures a file id. *)
Definition captura_id (r : regex) : Prop :=
  ∀ s rest g, match_at r s = Some (rest, g) → es_file_id (lookup_group 1 g).

(** ** The direct search and the detector *)

(** The id, as [_buscar_por_solicitud] reads it from the context, of the
    product last offered as upsell. *)
Definition ultimo_upsell (repr_float : Q → string) (repr_dict : tarjeta → string)
    (c : Conversacion) : string :=
  if no_vacio (contexto c)
  then str_ctx repr_float repr_dict (get (contexto c) "ultimo_upsell_id" (CVal (PStr "")))
  else "".

(** A card made from one of the rows, whose id is not [ultimo]. *)
Definition de_fila_distinta (repr_float : Q → string) (ultimo : string)
    (filas : list fila) (t : tarjeta) : Prop :=
  ∃ d, RDict d ∈ filas ∧ t !! "id" = Some (get d "ID" (PStr ""))
       ∧ str repr_float (get d "ID" (PStr "")) ≠ ultimo.

(** The items of the conversation's cart; none without a cart. *)
Definition items_carrito (c : Conversacion) : list CarritoItem :=
  match carrito c with Some k => items k | None => [] end.

(** The card shows the row [d]. *)
Definition muestra (t : tarjeta) (d : gmap string pyval) : Prop :=
  t !! "id" = Some (get d "ID" (PStr ""))
  ∧ t !! "nombre" = Some (get d "Producto" (PStr "")).

(** The row is in the cart, by id or by name, as the chocolate branch of
    the detector decides it. *)
Definition en_carrito_por_id_o_nombre (repr_float : Q → string)
    (its : list CarritoItem) (d : gmap string pyval) : Prop :=
  str repr_float (get d "ID" (PStr "")) ∈ map producto_id its
  ∨ ∃ it nombre, it ∈ its ∧ producto_nombre it ≠ ""
      ∧ get d "Producto" (PStr "") = PStr nombre
      ∧ str_in (lower (producto_nombre it)) (lower nombre) = true.

(** ** The legacy checkout *)

(** The code of a checkout: ["RST"] and eight capital letters or digits. *)
Definition es_codigo_carrito (codigo : string) : Prop :=
  ∃ sufijo, codigo = "RST" +:+ sufijo ∧ len sufijo = 8%nat
            ∧ all_chars (fun ch => is_upper ch || is_digit ch) sufijo = true.

Definition es_checkout_legacy (a : accion) : bool :=
  match a with ACheckoutLegacy _ _ => true | _ => false end.

(** ** Responses made of prose and product directives *)

(** Text in ASCII, on which the character classes of the runtime are the
    ASCII ones. *)
Definition solo_ascii (s : string) : Prop :=
  all_chars (fun ch => (code ch <? 128)%nat) s = true.

(** A field of a directive: no bracket and no bar. *)
Definition sin_barra (s : string) : Prop :=
  all_chars (fun ch => negb (Ascii.eqb ch "|")) s = true.

Definition campo_llano (s : string) : Prop := sin_corchetes s ∧ sin_barra s.

(** The product directive with the fields [fs], and the line of text the
    parser puts in its place. *)
Definition directiva (fs : list string) : string := tag "PRODUCTO" (join "|" fs).

Definition linea_directiva (fs : list string) : string :=
  nl +:+ "**" +:+ strip (parte 1 fs) +:+ "** - S/" +:+ strip (parte 2 fs).

(** Pieces, each followed by its prose. *)
Fixpoint con_directivas (f : list string → string) (ts : list (list string * string))
  : string :=
  match ts with
  | [] => ""
  | (fs, post) :: ts' => f fs +:+ post +:+ con_directivas f ts'
  end.

(** A directive the parser can read, and the prose after it: three fields
    or more, plain, a price in ASCII that [float] accepts when it is made
    of digits and dots, and prose without an opening bracket. *)
Definition bien_escrita (t : list string * string) : Prop :=
  (3 ≤ length (fst t))%nat ∧ Forall campo_llano (fst t) ∧ sin_abre (snd t)
  ∧ is_ok (precio_num_de (strip (parte 2 (fst t)))) = true
  ∧ solo_ascii (parte 2 (fst t)).

(** The card of the directive with the fields [fs]. *)
Definition muestra_campos (fs : list string) (t : tarjeta) : Prop :=
  t !! "id" = Some (PStr (strip (parte 0 fs)))
  ∧ t !! "nombre" = Some (PStr (strip (parte 1 fs)))
  ∧ t !! "precio" = Some (PStr ("S/" +:+ strip (parte 2 fs)))
  ∧ t !! "imagen" = Some (PStr (if (3 <? length fs)%nat
                                then _convertir_drive_url (strip (parte 3 fs)) else ""))
  ∧ ∃ v, precio_num_de (strip (parte 2 fs)) = Ok v ∧ t !! "precio_num" = Some v.

(** ** Sessions *)

(** Every item of the cart of the conversation has its subtotal up to
    date. *)
Definition carrito_al_dia (c : Conversacion) : Prop :=
  match carrito c with
  | Some k => Forall subtotal_al_dia (items k)
  | None => True
  end.

(** A store whose sessions were all saved from conversations, under their
    own session id. *)
Definition sesiones_guardadas (s : sesiones) : Prop :=
  ∀ sid data, s !! sid = Some data →
    ∃ c, data = _serializar_conversacion c ∧ session_id c = sid.

(** The end point answered. *)
Definition respondio {A} (h : http A) : bool :=
  match h with Responde _ => true | _ => false end.

(** The conversation [obtener_conversacion] creates for a new session. *)
Definition conversacion_inicial (sid : string) (canal : CanalMensaje)
    (user_id : option string) : Conversacion :=
  mkConversacion sid canal user_id [] (Some (nuevo_Carrito sid)) ∅.

(** ** Rows of the catalogue and the numerals of the excerpt *)

(** A numeral as [format(x, ".0f")] writes it: digits, after a sign or
    not. *)
Definition numeral (s : string) : Prop :=
  all_chars (fun ch => is_digit ch || Ascii.eqb ch "-") s = true.

(** A row of the catalogue whose id, name and photo can stand in a
    directive: no bracket and no bar in them. *)
Definition fila_llana (repr_float : Q → string) (d : gmap string pyval) : Prop :=
  campo_llano (py_str repr_float (get2 d "ID" "id" (PStr "")))
  ∧ (∀ n, get2 d "Producto" "producto" (PStr "Producto") = PStr n → campo_llano n)
  ∧ (∀ u, convertir_drive_url_de (get2 d "Foto" "foto" (PStr "")) = Ok u → campo_llano u).

(** * A sample catalogue, sample conversations and sample responses *)

Definition producto_demo : Producto :=
  mkProducto "26" "Flores" "Caja" "Caja Rosatel con 12 Rosas Rojas" None
    (Some "Rojo") 125 10 0 125 None.

Definition fila_demo (i nombre : string) (precio : Q) (categoria tipo : string) : fila :=
  RDict (list_to_map
           [("ID", PStr i); ("Producto", PStr nombre); ("Precio", PFloat precio);
            ("Precio_final", PFloat precio); ("Categoria", PStr categoria);
            ("Tipo", PStr tipo); ("Descuento", PInt 0); ("Stock", PInt 10);
            ("Foto", PStr "https://drive.google.com/uc?export=view&id=demo1")]).

Definition mcp_demo : MCPToolboxService :=
  mkMCP true
    (fun q =>
       if eqs q "globos" then [fila_demo "9" "Globo Feliz Cumple" 15 "Variado" "Globos"]
       else if eqs q "chocolates"
       then [fila_demo "7" "Chocolates Ferrero" 35 "Chocolates" "Caja"]
       else [fila_demo "26" "Caja Rosatel con 12 Rosas Rojas" 125 "Cumpleaños" "Caja";
             fila_demo "27" "Ramo con Rosas y Chocolates" 145 "Cumpleaños" "Ramo"])
    (fun _ => []) [].

Definition bq_demo : BigQueryService :=
  mkBQ (fun i => if eqs i "26" then Some producto_demo else None) (fun _ _ => []).

Definition conversacion_nueva : Conversacion :=
  mkConversacion "widget_1" WIDGET None [] (Some (nuevo_Carrito "widget_1")) ∅.

Definition sin_azar : rng := fun i => i.

(** A model that shows two cards, the second being the balloon that the
    proactive search keeps as upsell candidate. *)
Definition modelo_tarjetas : option (Conversacion → string → string → res string) :=
  Some (fun _ _ _ =>
          Ok "Te muestro opciones: [PRODUCTO:26|Caja Rosatel con 12 Rosas Rojas|125|] [PRODUCTO:9|Globo Feliz Cumple|15|]|NUEVA_BURBUJA|Te gustaria agregarlo?").

(** A model that answers in plain text. *)
Definition modelo_texto : option (Conversacion → string → string → res string) :=
  Some (fun _ _ _ => Ok "Con gusto. Que ocasion es?").

Definition demo_nulo (m : string) (c : Conversacion) : res (string * Conversacion) :=
  Ok ("Cuentame mas. Que ocasion es y cuanto quieres gastar?", c).

Definition mensaje_cumple : string := "flores para cumple, 150 soles".

Definition generado_1 : string * Conversacion :=
  match _generar_respuesta repr_decimal decimal_of_str mcp_demo modelo_tarjetas
          demo_nulo (al_generar conversacion_nueva mensaje_cumple) mensaje_cumple with
  | Ok x => x
  | Raise _ => ("", conversacion_nueva)
  end.

Definition estado_1 : Estado :=
  match _procesar_acciones repr_decimal decimal_of_str bq_demo (fun _ => [])
          (fst generado_1) (snd generado_1) sin_azar with
  | Ok st => st
  | Raise _ => mkEstado "" [] [] conversacion_nueva sin_azar
  end.

Definition candidato_1 : tarjeta :=
  match contexto (conv estado_1) !! "upsell_producto" with
  | Some (CDict u) => u
  | _ => ∅
  end.

Definition conversacion_con_candidato : Conversacion :=
  mkConversacion "widget_2" WIDGET None
    [mkMensajeChat "assistant" "Hola! Soy Rosa de Rosatel. Buscas algo especial hoy?"]
    (Some (nuevo_Carrito "widget_2"))
    {[ "upsell_producto" :=
         CDict (list_to_map [("id", PStr "9"); ("nombre", PStr "Globo Feliz Cumple");
                             ("precio", PStr "S/15"); ("es_upsell", PBool true)]) ]}.

Definition mensaje_saludo : string := "hola, buenas tardes".

Definition generado_2 : string * Conversacion :=
  match _generar_respuesta repr_decimal decimal_of_str mcp_demo modelo_texto
          demo_nulo (al_generar conversacion_con_candidato mensaje_saludo)
          mensaje_saludo with
  | Ok x => x
  | Raise _ => ("", conversacion_nueva)
  end.

Definition estado_2 : Estado :=
  match _procesar_acciones repr_decimal decimal_of_str bq_demo (fun _ => [])
          (fst generado_2) (snd generado_2) sin_azar with
  | Ok st => st
  | Raise _ => mkEstado "" [] [] conversacion_nueva sin_azar
  end.

(** The example of the specification: prices 50, 120 and 200, budget 100. *)
Definition tres_precios : list fila :=
  [fila_demo "1" "Ramo A" 50 "Flores" "Ramo";
   fila_demo "2" "Ramo B" 120 "Flores" "Ramo";
   fila_demo "3" "Ramo C" 200 "Flores" "Ramo"].



(** The client accepts an offer of chocolates while the only chocolates of
    the catalogue are in the cart already. *)
Definition conversacion_con_chocolates : Conversacion :=
  mkConversacion "widget_4" WIDGET None
    [mkMensajeChat "user" "rosas para mi novia";
     mkMensajeChat "assistant" "Agregado! Que tal unos chocolates por S/35 para complementar?"]
    (Some (mkCarrito "widget_4"
             [nuevo_CarritoItem "7" "Chocolates Ferrero" 1 35]))
    ∅.

(** A catalogue with one plush toy, and a conversation whose cart holds
    it while the assistant offers a plush toy. *)
Definition mcp_peluches : MCPToolboxService :=
  mkMCP true (fun _ => [fila_demo "12" "Peluche Hugo" 79 "Peluches" "Peluche"])
    (fun _ => []) [].

Definition conversacion_con_peluche : Conversacion :=
  mkConversacion "widget_5" WIDGET None
    [mkMensajeChat "assistant" "Puedo agregarte un peluche por S/79?"]
    (Some (mkCarrito "widget_5" [nuevo_CarritoItem "12" "Peluche Hugo" 1 79]))
    ∅.

Definition respuesta_incompleta : string :=
  "Mira esta opcion: [PRODUCTO:12|Rosas] Cuando quieras: [GENERAR_CHECKOUT]".

Definition respuesta_dos_copias : string :=
  dos_tags "AGREGAR_CARRITO" "Listo " "26|Caja Rosatel con 12 Rosas Rojas|125"
    " y " "26|Caja Rosatel con 12 Rosas Rojas|125" "".

Definition respuesta_tres_tags : string :=
  varios_tags "AGREGAR_CARRITO" "Listo " "26|Caja Rosatel con 12 Rosas Rojas|125" " y "
    [("26|Caja Rosatel con 12 Rosas Rojas|125", " y ");
     ("27|Ramo con Rosas y Chocolates|145", " Algo mas?")].

Definition carrito_con_caja : Carrito :=
  agregar_item (nuevo_Carrito "widget_1") producto_demo 1.

(** ** Further sample data *)

(** A conversation in which the assistant has offered a balloon, with the
    balloon of another catalogue in the cart. *)
Definition conversacion_con_globo : Conversacion :=
  mkConversacion "widget_7" WIDGET None
    [mkMensajeChat "assistant" "Quieres agregar un globo por S/15?"]
    (Some (mkCarrito "widget_7" [nuevo_CarritoItem "26" "Caja Rosatel con 12 Rosas Rojas" 1 125]))
    ∅.

Definition conversacion_con_caja : Conversacion :=
  mkConversacion "widget_1" WIDGET None [] (Some carrito_con_caja) ∅.

(** A response with two product directives, the second with a photo. *)
Definition trozos_demo : list (list string * string) :=
  [(["26"; " Caja Rosatel con 12 Rosas Rojas "; "125"], " y tambien ");
   (["9"; "Globo Feliz Cumple"; "15.50"; "https://drive.google.com/file/d/abc_1/view"],
    " Cual prefieres?")].

Definition respuesta_agrega_caja : string :=
  "Listo! [AGREGAR_CARRITO:26|Caja Rosatel con 12 Rosas Rojas|125] Algo mas?".

(** A row as the catalogue service gives it: the id as a number, the name
    with blanks around it, the prices as text with a thousands comma, the
    photo as a Drive address. *)
Definition fila_tulipanes : gmap string pyval :=
  list_to_map
    [("ID", PInt 31); ("Producto", PStr " Tulipanes en Caja ");
     ("Precio", PStr "1,300"); ("Precio_final", PStr "1,249.50");
     ("Tipo", PStr "Caja"); ("Descuento", PInt 4); ("Stock", PInt 3);
     ("Foto", PStr "https://drive.google.com/file/d/1AbC_dEf/view")].

(** A catalogue of balloons whose first row carries its id as a number,
    and a conversation in which the assistant has offered a balloon while
    the cart holds the first two balloons of the catalogue. *)
Definition fila_globo (i : pyval) (nombre : string) (precio : Q) : fila :=
  RDict (list_to_map
           [("ID", i); ("Producto", PStr nombre); ("Precio_final", PFloat precio);
            ("Categoria", PStr "Variado"); ("Tipo", PStr "Globos")]).

Definition mcp_globos : MCPToolboxService :=
  mkMCP true
    (fun _ => [fila_globo (PInt 9) "Globo Feliz Cumple" 15;
               fila_globo (PStr "11") "Globo Corazon" 18;
               fila_globo (PStr "12") "Globo Estrella" 20])
    (fun _ => []) [].

Definition conversacion_con_dos_globos : Conversacion :=
  mkConversacion "widget_8" WIDGET None
    [mkMensajeChat "assistant" "Quieres agregar un globo por S/15?"]
    (Some (mkCarrito "widget_8"
             [nuevo_CarritoItem "9" "Globo Feliz Cumple" 1 15;
              nuevo_CarritoItem "11" "Globo Corazon" 1 18]))
    ∅.

(** * Properties of the cart *)

Lemma eqs_refl s : eqs s s = true.
Proof. apply String.eqb_refl. Qed.

Lemma eqs_true a b : eqs a b = true ↔ a = b.
Proof. apply String.eqb_eq. Qed.

Lemma incrementar_ausente pid q l :
  List.filter (fun it => eqs (producto_id it) pid) l = [] →
  incrementar pid q l = None.
Proof.
  induction l as [|it l IH]; simpl; [reflexivity|].
  destruct (eqs (producto_id it) pid); [discriminate|].
  intros H. rewrite (IH H). reflexivity.
Qed.

Lemma incrementar_presente pid q l it resto :
  List.filter (fun it => eqs (producto_id it) pid) l = it :: resto →
  ∃ l', incrementar pid q l = Some l' ∧
        List.filter (fun it => eqs (producto_id it) pid) l' = con_mas it q :: resto.
Proof.
  induction l as [|x l IH]; simpl; [discriminate|].
  destruct (eqs (producto_id x) pid) eqn:E.
  - intros [= <- <-]. eexists. split; [reflexivity|].
    simpl. rewrite E. reflexivity.
  - intros H. destruct (IH H) as (l' & -> & Hl').
    eexists. split; [reflexivity|]. simpl. rewrite E. exact Hl'.
Qed.

Lemma agregar_item_nuevo c p q :
  items_de (prod_id p) c = [] →
  items_de (prod_id p) (agregar_item c p q)
  = [nuevo_CarritoItem (prod_id p) (prod_producto p) q (prod_precio_final p)].
Proof.
  unfold items_de, agregar_item. intros H.
  rewrite (incrementar_ausente _ q _ H). simpl.
  rewrite List.filter_app, H. simpl. rewrite eqs_refl. reflexivity.
Qed.

Lemma agregar_item_existente c p q it resto :
  items_de (prod_id p) c = it :: resto →
  items_de (prod_id p) (agregar_item c p q) = con_mas it q :: resto.
Proof.
  unfold items_de, agregar_item. intros H.
  destruct (incrementar_presente _ q _ _ _ H) as (l' & -> & Hl'). exact Hl'.
Qed.

Lemma agregar_llamadas_existente pid llamadas : ∀ c it,
  Forall (fun pc => prod_id (fst pc) = pid) llamadas →
  items_de pid c = [it] →
  subtotal_al_dia it →
  ∃ it', items_de pid (agregar_llamadas c llamadas) = [it'] ∧
         cantidad it' = (cantidad it + suma_cantidades llamadas)%Z ∧
         precio_unitario it' = precio_unitario it ∧
         subtotal_al_dia it'.
Proof.
  induction llamadas as [|[p q] llamadas IH]; intros c it Hids Hit Hsub.
  - exists it. simpl. rewrite Z.add_0_r. auto.
  - apply Forall_cons in Hids as [Hp Hids]. simpl in Hp. subst pid.
    simpl. pose proof (agregar_item_existente c p q it [] Hit) as H1.
    destruct (IH _ _ Hids H1) as (it' & Hit' & Hc & Hpu & Hs); [reflexivity|].
    exists it'. repeat split; auto.
    rewrite Hc. unfold suma_cantidades. simpl. lia.
Qed.

(** C1.  For every sequence of [agregar_item] calls with one product id, on
    a cart that does not hold that id yet (in particular the empty cart of
    a new conversation), after each call of the sequence the cart holds
    exactly one [CarritoItem] for the id, its [cantidad] is the sum of the
    quantities added so far and its [subtotal] is [cantidad] times
    [precio_unitario]. *)
Theorem C1_agregar_item_un_item_por_id
    (c0 : Carrito) (pid : string) (llamadas : list (Producto * Z)) (k : nat) :
  Forall (fun pc => prod_id (fst pc) = pid) llamadas →
  items_de pid c0 = [] →
  (0 < k ≤ length llamadas)%nat →
  ∃ it, items_de pid (agregar_llamadas c0 (firstn k llamadas)) = [it] ∧
        cantidad it = suma_cantidades (firstn k llamadas) ∧
        subtotal it = importe (cantidad it) (precio_unitario it).
Proof.
  intros Hids Hc0 [Hk Hlen].
  assert (Hpre : Forall (fun pc => prod_id (fst pc) = pid) (firstn k llamadas)).
  { apply Forall_take. exact Hids. }
  destruct k as [|k]; [lia|].
  destruct llamadas as [|[p q] resto]; [simpl in Hlen; lia|].
  simpl firstn in *. apply Forall_cons in Hpre as [Hp Hresto].
  simpl in Hp. subst pid. simpl.
  pose proof (agregar_item_nuevo c0 p q Hc0) as H1.
  destruct (agregar_llamadas_existente _ _ _ _ Hresto H1) as (it & Hit & Hc & _ & Hs);
    [reflexivity|].
  exists it. split; [exact Hit|]. split; [|exact Hs].
  rewrite Hc. unfold suma_cantidades. simpl. lia.
Qed.

Lemma C1_witness :
  Forall (fun pc => prod_id (fst pc) = "26")
    [(producto_demo, 2%Z); (producto_demo, 3%Z)] ∧
  items_de "26" (nuevo_Carrito "widget_1") = [] ∧
  (0 < 2 ≤ length [(producto_demo, 2%Z); (producto_demo, 3%Z)])%nat ∧
  ∃ it, items_de "26"
          (agregar_llamadas (nuevo_Carrito "widget_1")
             (firstn 2 [(producto_demo, 2%Z); (producto_demo, 3%Z)])) = [it] ∧
        cantidad it = suma_cantidades (firstn 2 [(producto_demo, 2%Z); (producto_demo, 3%Z)]) ∧
        subtotal it = importe (cantidad it) (precio_unitario it).
Proof.
  assert (H1 : Forall (fun pc => prod_id (fst pc) = "26")
                 [(producto_demo, 2%Z); (producto_demo, 3%Z)])
    by (repeat constructor).
  assert (H2 : items_de "26" (nuevo_Carrito "widget_1") = []) by reflexivity.
  assert (H3 : (0 < 2 ≤ length [(producto_demo, 2%Z); (producto_demo, 3%Z)])%nat)
    by (simpl; lia).
  exact (conj H1 (conj H2 (conj H3
    (C1_agregar_item_un_item_por_id _ _ _ _ H1 H2 H3)))).
Defined.

(** * Properties of the orchestrator *)

Section Orquestador.

Variable repr_float : Q → string.
Variable float_of_str : string → option Q.
Variable repr_dict : tarjeta → string.
Variable mcp : MCPToolboxService.
Variable bq : BigQueryService.
Variable ejecutar_busqueda : string → list Producto.
Variable modelo : option (Conversacion → string → string → res string).
Variable respuesta_demo : string → Conversacion → res (string * Conversacion).

Local Abbreviation turno :=
  (procesar_mensaje repr_float float_of_str repr_dict mcp bq ejecutar_busqueda
     modelo respuesta_demo).
Local Abbreviation detector := (_detectar_upselling_response repr_float float_of_str mcp).
Local Abbreviation generar :=
  (_generar_respuesta repr_float float_of_str mcp modelo respuesta_demo).
Local Abbreviation parser := (_procesar_acciones repr_float float_of_str bq ejecutar_busqueda).
Local Abbreviation fallback := (fallback_productos repr_float float_of_str repr_dict mcp).

Lemma mismo_id_marcado u p : mismo_id repr_float (marcado u) p = mismo_id repr_float u p.
Proof.
  unfold mismo_id, marcado, get. rewrite lookup_insert_ne by discriminate. reflexivity.
Qed.

Lemma mismo_id_del_marcado u : mismo_id repr_float u (marcado u) = true.
Proof.
  unfold mismo_id, marcado, get. rewrite lookup_insert_ne by discriminate.
  apply eqs_refl.
Qed.

Lemma filter_negado {A} (f : A → bool) l :
  List.filter f (List.filter (fun x => negb (f x)) l) = [].
Proof.
  induction l as [|x l IH]; simpl; [reflexivity|].
  destruct (f x) eqn:E; simpl; [exact IH|]. rewrite E. exact IH.
Qed.

Lemma agregar_upsell_pendiente p ps c u :
  contexto c !! "upsell_producto" = Some (CDict u) →
  no_vacio u = true →
  agregar_upsell repr_float (p :: ps) c
  = Ok (List.filter (fun x => negb (mismo_id repr_float (marcado u) x)) (p :: ps)
          ++ [marcado u],
        con_contexto c (delete "upsell_producto" (contexto c))).
Proof.
  intros Hu Hne. unfold agregar_upsell. rewrite Hu. simpl. rewrite Hne. reflexivity.
Qed.

(** C2.  In a turn that reaches the directive parser, when the parser
    returns a non-empty list of cards and the context holds a pending
    upsell candidate [u] (a non-empty [dict] under ["upsell_producto"]),
    [procesar_mensaje] returns a list of cards whose last element is [u]
    flagged with [es_upsell = True], in which the id of [u] (compared as
    the code compares ids, through [str]) occurs exactly once, and the
    candidate is gone from the context. *)
Theorem C2_upsell_una_vez_al_final
    (c : Conversacion) (mensaje : string) (g : rng)
    (raw : string) (c1 : Conversacion) (st : Estado) (u : tarjeta) :
  detector mensaje (extraer_preferencias mensaje c) = None →
  generar (al_generar c mensaje) mensaje = Ok (raw, c1) →
  parser raw c1 g = Ok st →
  productos_display st ≠ [] →
  contexto (conv st) !! "upsell_producto" = Some (CDict u) →
  no_vacio u = true →
  ∃ r cF gF,
    turno c mensaje g = Ok (r, cF, gF) ∧
    last (r_productos r) = Some (marcado u) ∧
    marcado u !! "es_upsell" = Some (PBool true) ∧
    marcado u !! "id" = u !! "id" ∧
    length (List.filter (mismo_id repr_float u) (r_productos r)) = 1%nat ∧
    contexto cF !! "upsell_producto" = None.
Proof.
  intros Hdet Hgen Hpar Hne Hu Hvac.
  destruct (productos_display st) as [|p ps] eqn:Hps; [congruence|].
  pose proof (agregar_upsell_pendiente p ps (conv st) u Hu Hvac) as Hup.
  unfold procesar_mensaje. rewrite Hdet.
  unfold al_generar in Hgen. rewrite Hgen. simpl.
  rewrite Hpar. simpl. rewrite Hps, Hup.
  remember (List.filter (fun x => negb (mismo_id repr_float (marcado u) x)) (p :: ps))
    as resto eqn:Hresto.
  simpl.
  destruct (resto ++ [marcado u]) as [|q qs] eqn:Hl.
  { apply (f_equal (@length _)) in Hl. rewrite length_app in Hl. simpl in Hl. lia. }
  rewrite <- Hl. simpl.
  eexists _, _, _. split; [reflexivity|]. simpl.
  split; [apply last_snoc|].
  split; [apply lookup_insert_eq|].
  split; [apply lookup_insert_ne; discriminate|].
  split.
  - rewrite List.filter_app, Hresto.
    rewrite (List.filter_ext (fun x => negb (mismo_id repr_float (marcado u) x))
               (fun x => negb (mismo_id repr_float u x)))
      by (intros x; rewrite mismo_id_marcado; reflexivity).
    rewrite filter_negado.
    cbn [List.filter app]. rewrite mismo_id_del_marcado. reflexivity.
  - apply lookup_delete_eq.
Qed.

Lemma pasos_producto_conv ms : ∀ st st',
  pasos_producto st ms = Ok st' → conv st' = conv st.
Proof.
  induction ms as [|m ms IH]; intros st st'; simpl.
  - intros [= <-]. reflexivity.
  - destruct (paso_producto st m) as [st1|e] eqn:E; simpl; [|discriminate].
    intros H. rewrite (IH _ _ H).
    unfold paso_producto in E.
    destruct (3 <=? length (split "|" m))%nat; [|injection E as <-; reflexivity].
    destruct (precio_num_de _); simpl in E; [|discriminate].
    injection E as <-. reflexivity.
Qed.

Lemma paso_buscar_conv raw st :
  conv (paso_buscar repr_float ejecutar_busqueda raw st) = conv st.
Proof.
  unfold paso_buscar. destruct (re_search _ raw); [|reflexivity].
  destruct (ejecutar_busqueda _); reflexivity.
Qed.

Lemma paso_agregar_upsell raw st :
  mismo_upsell (conv st) (conv (paso_agregar float_of_str bq raw st)).
Proof.
  unfold paso_agregar, mismo_upsell. destruct (re_search _ raw); [|reflexivity].
  destruct (resolver_producto _ _ _); [|reflexivity].
  simpl. destruct (no_vacio _); simpl; [|reflexivity].
  apply lookup_delete_ne. discriminate.
Qed.

Lemma paso_checkout_conv raw st st' :
  paso_checkout raw st = Ok st' → conv st' = conv st.
Proof.
  unfold paso_checkout. destruct (re_search _ raw); [|intros [= <-]; reflexivity].
  destruct (if eqs _ _ then _ else _) as [codigo g'].
  destruct (carrito_to_dict _); simpl; [|discriminate].
  intros [= <-]. reflexivity.
Qed.

Lemma paso_ver_carrito_conv raw st st' :
  paso_ver_carrito raw st = Ok st' → conv st' = conv st.
Proof.
  unfold paso_ver_carrito. destruct (str_in _ raw); [|intros [= <-]; reflexivity].
  destruct (re_sub_lit _ _ _); simpl; [|discriminate].
  intros [= <-]. reflexivity.
Qed.

Lemma paso_generar_checkout_conv raw st st' :
  paso_generar_checkout raw st = Ok st' → conv st' = conv st.
Proof.
  unfold paso_generar_checkout.
  destruct (str_in _ raw); [|intros [= <-]; reflexivity].
  destruct (carrito_con_items _); [|intros [= <-]; reflexivity].
  destruct (_generar_codigo_carrito _) as [codigo g'].
  destruct (re_sub_lit _ _ _); simpl; [|discriminate].
  intros [= <-]. reflexivity.
Qed.

Lemma parser_conserva_upsell raw c g st :
  parser raw c g = Ok st → mismo_upsell c (conv st).
Proof.
  unfold _procesar_acciones.
  destruct (pasos_producto _ _) as [st1|] eqn:E1; simpl; [|discriminate].
  destruct (paso_checkout raw _) as [st4|] eqn:E4; simpl; [|discriminate].
  destruct (paso_ver_carrito raw st4) as [st5|] eqn:E5; simpl; [|discriminate].
  destruct (paso_generar_checkout raw st5) as [st6|] eqn:E6; simpl; [|discriminate].
  intros [= <-]. simpl.
  apply paso_generar_checkout_conv in E6. apply paso_ver_carrito_conv in E5.
  apply paso_checkout_conv in E4. apply pasos_producto_conv in E1.
  unfold mismo_upsell. rewrite E6, E5, E4.
  rewrite paso_agregar_upsell, paso_buscar_conv, E1. reflexivity.
Qed.

(** C10.  In a turn that reaches the directive parser, when the parser
    returns no card, the entry ["upsell_producto"] of the context at the
    end of the turn is the one the context held when the parser started:
    neither the parser, nor the reconciliation step, nor the fallback
    search consumes or modifies it.  The turn returns unless the fallback
    search itself raises. *)
Theorem C10_upsell_intacto_sin_tarjetas
    (c : Conversacion) (mensaje : string) (g : rng)
    (raw : string) (c1 : Conversacion) (st : Estado) :
  detector mensaje (extraer_preferencias mensaje c) = None →
  generar (al_generar c mensaje) mensaje = Ok (raw, c1) →
  parser raw c1 g = Ok st →
  productos_display st = [] →
  match turno c mensaje g with
  | Ok (r, cF, gF) =>
      contexto cF !! "upsell_producto" = contexto c1 !! "upsell_producto"
      ∧ contexto cF = contexto (conv st)
  | Raise _ => is_ok (fallback mensaje (respuesta_procesada st) (conv st)) = false
  end.
Proof.
  intros Hdet Hgen Hpar Hps.
  pose proof (parser_conserva_upsell _ _ _ _ Hpar) as Hframe.
  unfold procesar_mensaje. rewrite Hdet.
  unfold al_generar in Hgen. rewrite Hgen. simpl.
  rewrite Hpar. simpl. rewrite Hps. simpl.
  destruct (fallback mensaje (respuesta_procesada st) (conv st)) as [l|e]; simpl.
  - split; [exact Hframe|reflexivity].
  - reflexivity.
Qed.

End Orquestador.

Lemma C2_witness :
  let turno := procesar_mensaje repr_decimal decimal_of_str (fun _ => "") mcp_demo
                 bq_demo (fun _ => []) modelo_tarjetas demo_nulo in
  contexto (conv estado_1) !! "upsell_producto" = Some (CDict candidato_1) ∧
  candidato_1 !! "id" = Some (PStr "9") ∧
  map (fun t => t !! "id") (productos_display estado_1)
  = [Some (PStr "26"); Some (PStr "9")] ∧
  ∃ r cF gF,
    turno conversacion_nueva mensaje_cumple sin_azar = Ok (r, cF, gF) ∧
    last (r_productos r) = Some (marcado candidato_1) ∧
    marcado candidato_1 !! "es_upsell" = Some (PBool true) ∧
    marcado candidato_1 !! "id" = candidato_1 !! "id" ∧
    length (List.filter (mismo_id repr_decimal candidato_1) (r_productos r)) = 1%nat ∧
    contexto cF !! "upsell_producto" = None.
Proof.
  intros turno.
  split; [vm_compute; reflexivity|].
  split; [vm_compute; reflexivity|].
  split; [vm_compute; reflexivity|].
  apply (C2_upsell_una_vez_al_final repr_decimal decimal_of_str (fun _ => "")
           mcp_demo bq_demo (fun _ => []) modelo_tarjetas demo_nulo
           conversacion_nueva mensaje_cumple sin_azar
           (fst generado_1) (snd generado_1) estado_1 candidato_1).
  - vm_compute. reflexivity.
  - vm_compute. reflexivity.
  - vm_compute. reflexivity.
  - intros H. apply (f_equal (@length _)) in H. vm_compute in H. discriminate H.
  - vm_compute. reflexivity.
  - vm_compute. reflexivity.
Defined.

Lemma C10_witness :
  let turno := procesar_mensaje repr_decimal decimal_of_str (fun _ => "") mcp_demo
                 bq_demo (fun _ => []) modelo_texto demo_nulo in
  productos_display estado_2 = [] ∧
  is_Some (contexto (snd generado_2) !! "upsell_producto") ∧
  match turno conversacion_con_candidato mensaje_saludo sin_azar with
  | Ok (r, cF, gF) =>
      contexto cF !! "upsell_producto" = contexto (snd generado_2) !! "upsell_producto"
      ∧ contexto cF = contexto (conv estado_2)
  | Raise _ =>
      is_ok (fallback_productos repr_decimal decimal_of_str (fun _ => "") mcp_demo
               mensaje_saludo (respuesta_procesada estado_2) (conv estado_2)) = false
  end.
Proof.
  intros turno.
  split; [vm_compute; reflexivity|].
  split; [vm_compute; eexists; reflexivity|].
  apply (C10_upsell_intacto_sin_tarjetas repr_decimal decimal_of_str (fun _ => "")
           mcp_demo bq_demo (fun _ => []) modelo_texto demo_nulo
           conversacion_con_candidato mensaje_saludo sin_azar
           (fst generado_2) (snd generado_2) estado_2).
  - vm_compute. reflexivity.
  - vm_compute. reflexivity.
  - vm_compute. reflexivity.
  - vm_compute. reflexivity.
Defined.

(** * Properties of the preference extractor *)

Lemma actualizar_contexto_otro c k v k' :
  k ≠ k' → contexto (actualizar_contexto c k v) !! k' = contexto c !! k'.
Proof. intros H. simpl. apply lookup_insert_ne. exact H. Qed.

Lemma actualizar_contexto_mismo c k v :
  contexto (actualizar_contexto c k v) !! k = Some v.
Proof. simpl. apply lookup_insert_eq. Qed.

Lemma extraer_faceta_otro t key ml c k' :
  key ≠ k' → contexto (extraer_faceta t key ml c) !! k' = contexto c !! k'.
Proof.
  intros H. unfold extraer_faceta. destruct (primera_clave t ml); [|reflexivity].
  apply actualizar_contexto_otro. exact H.
Qed.

Lemma extraer_intencion_otro kws key ml c k' :
  key ≠ k' → contexto (extraer_intencion kws key ml c) !! k' = contexto c !! k'.
Proof.
  intros H. unfold extraer_intencion. destruct (any_in kws ml); [|reflexivity].
  apply actualizar_contexto_otro. exact H.
Qed.

(** The budget keys after [extraer_preferencias] are those after the
    budget step: no other facet writes them. *)
Lemma extraer_preferencias_presupuesto mensaje c k :
  k = "presupuesto_min" ∨ k = "presupuesto_max" →
  contexto (extraer_preferencias mensaje c) !! k
  = contexto (extraer_presupuesto (lower mensaje)
                (extraer_faceta ocasiones "ocasion" (lower mensaje) c)) !! k.
Proof.
  intros Hk. unfold extraer_preferencias.
  rewrite !extraer_intencion_otro by (destruct Hk; subst; discriminate).
  rewrite !extraer_faceta_otro by (destruct Hk; subst; discriminate).
  reflexivity.
Qed.

(** What the loop over [patrones_precio] commits comes from a pattern that
    matched, and is at least 30. *)
Lemma primer_monto_umbral pats ml q :
  primer_monto pats ml = Some q →
  ∃ p m, p ∈ pats ∧ re_search p ml = Some m ∧ q = monto_de 1 m ∧ Qle_bool 30 q = true.
Proof.
  induction pats as [|p pats IH]; simpl; [discriminate|].
  destruct (re_search p ml) as [m|] eqn:Em.
  - destruct (Qle_bool 30 (monto_de 1 m)) eqn:Eq.
    + intros [= <-]. exists p, m. repeat split; auto. apply list_elem_of_here.
    + intros H. destruct (IH H) as (p' & m' & Hin & Hs & Hq & Hle).
      exists p', m'. repeat split; auto. apply list_elem_of_further. exact Hin.
  - intros H. destruct (IH H) as (p' & m' & Hin & Hs & Hq & Hle).
    exists p', m'. repeat split; auto. apply list_elem_of_further. exact Hin.
Qed.

(** The budget keys after preference extraction.  A message in which the
    range pattern matches gets both [presupuesto_min] and [presupuesto_max]
    set to the two numbers of the range, whatever their size.  In a message
    without a range, [presupuesto_min] is left as it was, and
    [presupuesto_max] is either left as it was or set to an amount of at
    least 30 matched by one of the single-amount patterns. *)
Lemma presupuesto_umbral_y_rango (mensaje : string) (c : Conversacion) :
  let c' := extraer_preferencias mensaje c in
  match re_search patron_rango (lower mensaje) with
  | Some m =>
      contexto c' !! "presupuesto_min" = Some (numero_ctx (monto_de 1 m)) ∧
      contexto c' !! "presupuesto_max" = Some (numero_ctx (monto_de 2 m))
  | None =>
      contexto c' !! "presupuesto_min" = contexto c !! "presupuesto_min" ∧
      (contexto c' !! "presupuesto_max" = contexto c !! "presupuesto_max" ∨
       ∃ p m, p ∈ patrones_precio ∧ re_search p (lower mensaje) = Some m ∧
              Qle_bool 30 (monto_de 1 m) = true ∧
              contexto c' !! "presupuesto_max" = Some (numero_ctx (monto_de 1 m)))
  end.
Proof.
  intros c'. subst c'.
  rewrite !extraer_preferencias_presupuesto by auto.
  set (c0 := extraer_faceta ocasiones "ocasion" (lower mensaje) c).
  assert (Hmin0 : contexto c0 !! "presupuesto_min" = contexto c !! "presupuesto_min")
    by (apply extraer_faceta_otro; discriminate).
  assert (Hmax0 : contexto c0 !! "presupuesto_max" = contexto c !! "presupuesto_max")
    by (apply extraer_faceta_otro; discriminate).
  unfold extraer_presupuesto.
  destruct (re_search patron_rango (lower mensaje)) as [m|].
  - split.
    + rewrite actualizar_contexto_otro by discriminate.
      apply actualizar_contexto_mismo.
    + apply actualizar_contexto_mismo.
  - destruct (primer_monto patrones_precio (lower mensaje)) as [q|] eqn:Eq.
    + split.
      * rewrite actualizar_contexto_otro by discriminate. exact Hmin0.
      * right. destruct (primer_monto_umbral _ _ _ Eq) as (p & m & Hin & Hs & -> & Hle).
        exists p, m. repeat split; auto. apply actualizar_contexto_mismo.
    + split; [exact Hmin0|]. left. exact Hmax0.
Qed.

(** C4 fails on the code.  The loop over the single-amount patterns
    commits an amount only when it is at least 30, so that a quantity is
    not taken for a budget; the range branch that follows it has no such
    test, and commits the quantities of "un ramo de 12 a 24 rosas" as a
    budget between 12 and 24. *)
Theorem C4_rango_sin_umbral :
  let c := extraer_preferencias "quiero un ramo de 12 a 24 rosas" conversacion_nueva in
  let c' := extraer_preferencias "tengo 12 soles" conversacion_nueva in
  contexto c !! "presupuesto_min" = Some (CVal (PFloat 12))
  ∧ contexto c !! "presupuesto_max" = Some (CVal (PFloat 24))
  ∧ Qle_bool 30 24 = false
  ∧ contexto c' !! "presupuesto_max" = None.
Proof. vm_compute. repeat split; reflexivity. Qed.

(** * Properties of the two catalogue searches *)

Section Ordenar.

Context {A : Type} (lt : A → A → bool).

(** [lt] is the strict part of a total preorder. *)
Hypothesis lt_asym : ∀ a b, lt a b = true → lt b a = false.
Hypothesis le_trans : ∀ a b c, lt b a = false → lt c b = false → lt c a = false.





End Ordenar.







Section Busquedas.

Variable float_of_str : string → option Q.





(** The key of a card of the fallback search: out of tolerance or not,
    then the price. *)
Lemma clave_de_tarjeta_fallback presupuesto d t :
  tarjeta_fallback float_of_str presupuesto d = Ok t →
  ∃ precio, precio_fila float_of_str (get d "Precio_final" (PStr "0")) = Ok precio ∧
            clave_fallback t
            = (negb (Qle_bool precio (tolerancia presupuesto)), precio).
Proof.
  unfold tarjeta_fallback.
  destruct (precio_fila float_of_str _) as [precio|]; simpl; [|discriminate].
  destruct (convertir_drive_url_de _); simpl; [|discriminate].
  destruct (as_str _); simpl; [|discriminate].
  intros [= <-]. exists precio. split; [reflexivity|].
  unfold clave_fallback, campo, get. simpl.
  repeat (rewrite lookup_insert_ne by discriminate).
  rewrite lookup_insert_eq. simpl.
  repeat (rewrite lookup_insert_ne by discriminate).
  rewrite lookup_insert_eq. reflexivity.
Qed.

End Busquedas.

Lemma proactivo_tres_precios :
  seleccion_proactiva decimal_of_str 100 tres_precios
  = [fila_demo "1" "Ramo A" 50 "Flores" "Ramo"].
Proof. vm_compute. reflexivity. Qed.


(** The fallback search, when it searches, is the ranking of lines 318-344
    applied to the rows it gathered. *)
Lemma fallback_es_ranking float_of_str mcp c l :
  _buscar_productos_fallback float_of_str mcp c = Ok l →
  l = [] ∨ ∃ presupuesto query,
             l = ranking_fallback float_of_str presupuesto
                   (candidatos_fallback mcp (contexto c) query).
Proof.
  unfold _buscar_productos_fallback.
  destruct (negb (tiene (contexto c) "presupuesto_max")); [intros [= <-]; auto|].
  destruct (negb _); [intros [= <-]; auto|].
  destruct (match query_parts (contexto c) with [] => _ | _ => _ end) as [query|];
    simpl; [|discriminate].
  destruct (ctx_float float_of_str _) as [presupuesto|]; simpl; [|discriminate].
  intros [= <-]. right. eauto.
Qed.

(** * Determinism of the proactive search *)

Section Determinismo.

Variable repr_float : Q → string.
Variable float_of_str : string → option Q.

Lemma proactivo_plan mcp mensaje c :
  _buscar_productos_proactivo repr_float float_of_str mcp mensaje c
  = let* (texto, up) := plan_proactivo repr_float float_of_str mcp mensaje (contexto c) in
    Ok (texto, anotar up c).
Proof.
  unfold _buscar_productos_proactivo, plan_proactivo.
  destruct (negb (contexto_suficiente _ _)); [reflexivity|].
  destruct (match query_parts (contexto c) with [] => _ | _ => _ end) as [query|];
    simpl; [|reflexivity].
  destruct (ctx_float float_of_str _) as [presupuesto|]; simpl; [|reflexivity].
  destruct (productos_principales mcp (contexto c) query); [reflexivity|].
  destruct (_formatear_resultado_busqueda _ _ _) as [resultado|]; simpl; [|reflexivity].
  destruct (complementos mcp (contexto c) query) as [|[n prod_comp] ?]; [reflexivity|].
  destruct (tarjeta_complemento _ _ prod_comp) as [[u i]|]; reflexivity.
Qed.

(** The plan reads the back end through its answers only. *)
Lemma productos_principales_ext m1 m2 ctx query :
  mismo_catalogo m1 m2 →
  productos_principales m1 ctx query = productos_principales m2 ctx query.
Proof.
  intros (Ha & Hb & He & Hd). unfold productos_principales.
  rewrite Ha, He, (Hb query).
  destruct (ctx !! "ocasion") as [o|]; [rewrite (Hb (texto_de o)); reflexivity|].
  destruct (ctx !! "tipo_producto") as [t|]; [rewrite (Hb (texto_de t))|];
    reflexivity.
Qed.

Lemma complementos_ext m1 m2 ctx query :
  mismo_catalogo m1 m2 → complementos m1 ctx query = complementos m2 ctx query.
Proof.
  intros (Ha & Hb & He & Hd). unfold complementos.
  rewrite !Hb, Hd. reflexivity.
Qed.

Lemma plan_proactivo_ext m1 m2 mensaje ctx :
  mismo_catalogo m1 m2 →
  plan_proactivo repr_float float_of_str m1 mensaje ctx
  = plan_proactivo repr_float float_of_str m2 mensaje ctx.
Proof.
  intros H. unfold plan_proactivo.
  destruct (negb _); [reflexivity|].
  destruct (match query_parts ctx with [] => _ | _ => _ end) as [query|];
    simpl; [|reflexivity].
  rewrite (productos_principales_ext m1 m2 ctx query H).
  rewrite (complementos_ext m1 m2 ctx query H). reflexivity.
Qed.

(** The plan reads the context through the preference keys only. *)
Lemma mismas_preferencias_lookup ctx ctx' k :
  mismas_preferencias ctx ctx' → k ∈ claves_preferencia → ctx !! k = ctx' !! k.
Proof. intros H Hk. exact (proj1 (Forall_forall _ _) H k Hk). Qed.

Ltac clave := unfold claves_preferencia; set_solver.

Section Preferencias.

Variables (ctx ctx' : gmap string ctxval).
Hypothesis H : mismas_preferencias ctx ctx'.

Lemma lee_igual k : k ∈ claves_preferencia → ctx !! k = ctx' !! k.
Proof. apply mismas_preferencias_lookup. exact H. Qed.

Lemma tiene_preferencias k : k ∈ claves_preferencia → tiene ctx k = tiene ctx' k.
Proof. intros Hk. unfold tiene. rewrite (lee_igual k Hk). reflexivity. Qed.

Lemma get_preferencias k d : k ∈ claves_preferencia → get ctx k d = get ctx' k d.
Proof. intros Hk. unfold get. rewrite (lee_igual k Hk). reflexivity. Qed.

Lemma contexto_suficiente_preferencias ml :
  contexto_suficiente ctx ml = contexto_suficiente ctx' ml.
Proof.
  unfold contexto_suficiente.
  rewrite !(tiene_preferencias "ocasion"), !(tiene_preferencias "color_preferido"),
    !(tiene_preferencias "flor_preferida"), !(tiene_preferencias "tipo_producto"),
    !(tiene_preferencias "presupuesto_min"), !(tiene_preferencias "presupuesto_max")
    by clave.
  reflexivity.
Qed.

Lemma query_parts_preferencias : query_parts ctx = query_parts ctx'.
Proof.
  unfold query_parts. cbn [omap list_omap].
  rewrite (lee_igual "tipo_producto"), (lee_igual "flor_preferida"),
    (lee_igual "ocasion"), (lee_igual "color_preferido") by clave.
  reflexivity.
Qed.

Lemma productos_principales_preferencias mcp query :
  productos_principales mcp ctx query = productos_principales mcp ctx' query.
Proof.
  unfold productos_principales.
  rewrite query_parts_preferencias, (lee_igual "ocasion"), (lee_igual "tipo_producto")
    by clave.
  reflexivity.
Qed.

Lemma complementos_preferencias mcp query :
  complementos mcp ctx query = complementos mcp ctx' query.
Proof.
  unfold complementos.
  rewrite (get_preferencias "ocasion"), (get_preferencias "tipo_producto") by clave.
  reflexivity.
Qed.

Lemma plan_proactivo_preferencias mcp mensaje :
  plan_proactivo repr_float float_of_str mcp mensaje ctx
  = plan_proactivo repr_float float_of_str mcp mensaje ctx'.
Proof.
  unfold plan_proactivo.
  rewrite contexto_suficiente_preferencias, query_parts_preferencias,
    (get_preferencias "presupuesto_max") by clave.
  destruct (negb _); [reflexivity|].
  destruct (match query_parts ctx' with [] => _ | _ => _ end) as [query|];
    simpl; [|reflexivity].
  rewrite productos_principales_preferencias, complementos_preferencias.
  reflexivity.
Qed.

End Preferencias.

Lemma anotar_preferencias up c :
  mismas_preferencias (contexto c) (contexto (anotar up c)).
Proof.
  destruct up as [[u i]|]; simpl.
  - unfold mismas_preferencias, claves_preferencia.
    repeat constructor; rewrite !lookup_insert_ne by discriminate; reflexivity.
  - unfold mismas_preferencias. apply Forall_forall. reflexivity.
Qed.

Lemma anotar_idem up c : anotar up (anotar up c) = anotar up c.
Proof.
  destruct up as [[u i]|]; [|reflexivity].
  unfold anotar, actualizar_contexto, con_contexto. simpl. f_equal.
  apply map_eq. intros k.
  destruct (decide (k = "ultimo_upsell_id")) as [->|H1].
  { rewrite !lookup_insert_eq. reflexivity. }
  rewrite (lookup_insert_ne _ "ultimo_upsell_id" k) by congruence.
  destruct (decide (k = "upsell_producto")) as [->|H2].
  { rewrite lookup_insert_eq.
    rewrite (lookup_insert_ne _ "ultimo_upsell_id" "upsell_producto") by discriminate.
    rewrite lookup_insert_eq. reflexivity. }
  rewrite !lookup_insert_ne by congruence. reflexivity.
Qed.

(** C6.  Two calls of the proactive search with the same message on the
    same conversation, against a catalogue that answers every query alike
    both times, give the same excerpt and the same conversation, hence the
    same upsell candidate; and the second call gives that same excerpt and
    candidate also when it runs on the conversation as the first call
    left it, since the search reads none of the keys it writes. *)
Theorem C6_proactivo_determinista
    (m1 m2 : MCPToolboxService) (mensaje : string) (c : Conversacion) :
  mismo_catalogo m1 m2 →
  _buscar_productos_proactivo repr_float float_of_str m1 mensaje c
  = _buscar_productos_proactivo repr_float float_of_str m2 mensaje c
  ∧ match _buscar_productos_proactivo repr_float float_of_str m1 mensaje c with
    | Ok (texto, c1) =>
        _buscar_productos_proactivo repr_float float_of_str m2 mensaje c1
        = Ok (texto, c1)
    | Raise e =>
        _buscar_productos_proactivo repr_float float_of_str m2 mensaje c = Raise e
    end.
Proof.
  intros H. rewrite !proactivo_plan.
  rewrite (plan_proactivo_ext m1 m2 mensaje (contexto c) H).
  split; [reflexivity|].
  destruct (plan_proactivo repr_float float_of_str m2 mensaje (contexto c))
    as [[texto up]|e] eqn:E; simpl.
  - rewrite proactivo_plan.
    rewrite <- (plan_proactivo_preferencias _ _ (anotar_preferencias up c) m2 mensaje).
    rewrite E. simpl. rewrite anotar_idem. reflexivity.
  - reflexivity.
Qed.

End Determinismo.

Lemma mismo_catalogo_refl m : mismo_catalogo m m.
Proof. repeat split. Qed.

Lemma C6_witness :
  mismo_catalogo mcp_demo mcp_demo ∧
  _buscar_productos_proactivo repr_decimal decimal_of_str mcp_demo mensaje_cumple
    (al_generar conversacion_nueva mensaje_cumple)
  = _buscar_productos_proactivo repr_decimal decimal_of_str mcp_demo mensaje_cumple
      (al_generar conversacion_nueva mensaje_cumple)
  ∧ match _buscar_productos_proactivo repr_decimal decimal_of_str mcp_demo
            mensaje_cumple (al_generar conversacion_nueva mensaje_cumple) with
    | Ok (texto, c1) =>
        _buscar_productos_proactivo repr_decimal decimal_of_str mcp_demo
          mensaje_cumple c1 = Ok (texto, c1)
    | Raise e =>
        _buscar_productos_proactivo repr_decimal decimal_of_str mcp_demo
          mensaje_cumple (al_generar conversacion_nueva mensaje_cumple) = Raise e
    end.
Proof.
  split; [apply mismo_catalogo_refl|].
  apply (C6_proactivo_determinista repr_decimal decimal_of_str mcp_demo mcp_demo
           mensaje_cumple (al_generar conversacion_nueva mensaje_cumple)).
  apply mismo_catalogo_refl.
Defined.

(** * The upsell-acceptance detector *)

(** C7 fails on the code.  All the candidates of the offer are in the
    cart: the filter of the chocolate branch removes every one, the branch
    sets its text ("Ya tienes chocolates en tu carrito. ..."), and the
    detector returns nothing, because it answers only when the list of
    products is not empty. *)
Theorem C7_detector_sin_respuesta :
  chocolates_filtrados repr_decimal ["7"] ["chocolates ferrero"]
    (buscar_productos mcp_demo "chocolates") = Ok []
  ∧ _detectar_upselling_response repr_decimal decimal_of_str mcp_demo "si"
      conversacion_con_chocolates = None.
Proof. vm_compute. split; reflexivity. Qed.

(** The plush-toy branch does not look at the cart at all: a plush toy
    that is in the cart is offered again. *)
Lemma detector_repite_peluche :
  match _detectar_upselling_response repr_decimal decimal_of_str mcp_peluches "si"
          conversacion_con_peluche with
  | Some r => map (fun t => t !! "id") (r_productos r) = [Some (PStr "12")]
  | None => False
  end.
Proof. vm_compute. reflexivity. Qed.

(** * The checkout directive *)

Lemma elegir_alfabeto i :
  is_upper (elegir alfabeto i) || is_digit (elegir alfabeto i) = true.
Proof.
  unfold elegir. change (len alfabeto) with 36%nat.
  assert (H : (i mod 36 < 36)%nat) by (apply Nat.mod_upper_bound; discriminate).
  revert H. generalize (i mod 36)%nat. intros n H.
  do 36 (destruct n as [|n]; [reflexivity|]). lia.
Qed.

Lemma choices_alfabeto k : ∀ g,
  len (choices alfabeto k g) = k ∧
  all_chars (fun c => is_upper c || is_digit c) (choices alfabeto k g) = true.
Proof.
  induction k as [|k IH]; intros g; simpl; [split; reflexivity|].
  destruct (IH (avanzar 1 g)) as [Hl Ha]. split.
  - unfold len in *. simpl. rewrite Hl. reflexivity.
  - rewrite elegir_alfabeto, Ha. reflexivity.
Qed.

(** The generated code: ["RST"] and eight capital letters or digits. *)
Lemma codigo_generado g :
  ∃ sufijo, fst (_generar_codigo_carrito g) = "RST" +:+ sufijo ∧
            len sufijo = 8%nat ∧
            all_chars (fun c => is_upper c || is_digit c) sufijo = true.
Proof.
  exists (choices alfabeto 8 g). split; [reflexivity|]. apply choices_alfabeto.
Qed.

Section Checkout.

Variable repr_float : Q → string.
Variable float_of_str : string → option Q.
Variable bq : BigQueryService.
Variable ejecutar_busqueda : string → list Producto.

Local Abbreviation parser := (_procesar_acciones repr_float float_of_str bq ejecutar_busqueda).

Lemma paso_agregar_carrito raw st k :
  carrito (conv st) = Some k →
  ∃ k', carrito (conv (paso_agregar float_of_str bq raw st)) = Some k'.
Proof.
  intros Hk. unfold paso_agregar. destruct (re_search _ raw); [|eauto].
  destruct (resolver_producto _ _ _); [|eauto].
  simpl. destruct (no_vacio _); simpl; eauto.
Qed.

(** Without a cart, the placeholder code is replaced by a generated one
    and the recorded URL embeds it. *)
Lemma paso_checkout_sin_carrito raw st m :
  re_search P_CHECKOUT raw = Some m →
  strip (group 1 m) = "codigo_random" →
  carrito (conv st) = None →
  ∃ st', paso_checkout raw st = Ok st' ∧
         acciones st' = acciones st ++
           [ACheckout (fst (_generar_codigo_carrito (gen st)))
              (checkout_url (fst (_generar_codigo_carrito (gen st)))) PNone].
Proof.
  intros Hm Hc Hk. unfold paso_checkout. rewrite Hm, Hc, Hk. simpl.
  eexists. split; reflexivity.
Qed.

(** With a cart, which every conversation of the session manager has, the
    checkout directive raises: the snapshot calls [to_dict], which no model
    defines. *)
Lemma checkout_con_carrito_falla raw c g m k :
  re_search P_CHECKOUT raw = Some m →
  carrito c = Some k →
  ∃ e, parser raw c g = Raise e.
Proof.
  intros Hm Hk. unfold _procesar_acciones.
  destruct (pasos_producto _ _) as [st1|e] eqn:E1; simpl; [|eauto].
  apply pasos_producto_conv in E1. simpl in E1.
  set (st2 := paso_buscar repr_float ejecutar_busqueda raw st1).
  assert (H2 : carrito (conv st2) = Some k).
  { unfold st2. rewrite paso_buscar_conv, E1. exact Hk. }
  destruct (paso_agregar_carrito raw st2 k H2) as [k' H3].
  unfold paso_checkout. rewrite Hm.
  destruct (if eqs _ _ then _ else _) as [codigo g'].
  rewrite H3. simpl. eauto.
Qed.

End Checkout.

(** C8 fails on the code.  On the conversation the session manager
    creates, which has a cart, the checkout directive with the placeholder
    code records no side effect: the parser raises [AttributeError]. *)
Theorem C8_checkout_placeholder_falla :
  _procesar_acciones repr_decimal decimal_of_str bq_demo (fun _ => [])
    "Listo! [CHECKOUT:codigo_random]" conversacion_nueva sin_azar
  = Raise AttributeError.
Proof. vm_compute. reflexivity. Qed.

(** The same response on a conversation without a cart records the side
    effect the claim describes. *)
Lemma checkout_placeholder_sin_carrito :
  let c := mkConversacion "widget_6" WIDGET None [] None ∅ in
  match _procesar_acciones repr_decimal decimal_of_str bq_demo (fun _ => [])
          "Listo! [CHECKOUT:codigo_random]" c sin_azar with
  | Ok st =>
      acciones st = [ACheckout "RSTABCDEFGH" "https://rosatel.pe/checkout/RSTABCDEFGH" PNone]
  | Raise _ => False
  end.
Proof. vm_compute. reflexivity. Qed.

(** * The directive parser on incomplete directives *)

Section Incompletas.

Variable repr_float : Q → string.
Variable float_of_str : string → option Q.
Variable bq : BigQueryService.
Variable ejecutar_busqueda : string → list Producto.

Local Abbreviation parser := (_procesar_acciones repr_float float_of_str bq ejecutar_busqueda).

(** The loop body does nothing on such a match: no card, no action, no
    rewrite. *)
Lemma paso_producto_incompleta st m : incompleta m → paso_producto st m = Ok st.
Proof.
  unfold incompleta, paso_producto. intros H.
  destruct (3 <=? length (split "|" m))%nat eqn:E; [|reflexivity].
  apply Nat.leb_le in E. lia.
Qed.

Lemma pasos_producto_incompletas ms : ∀ st,
  Forall incompleta ms → pasos_producto st ms = Ok st.
Proof.
  induction ms as [|m ms IH]; intros st H; simpl; [reflexivity|].
  apply Forall_cons in H as [Hm Hms].
  rewrite (paso_producto_incompleta st m Hm). simpl. apply IH. exact Hms.
Qed.

(** Nor does the legacy checkout directive when there is nothing in the
    cart. *)
Lemma paso_generar_checkout_vacio raw st :
  carrito_con_items (conv st) = None → paso_generar_checkout raw st = Ok st.
Proof.
  intros H. unfold paso_generar_checkout. rewrite H.
  destruct (str_in _ raw); reflexivity.
Qed.

Lemma completa_incompleta m : completa m = false → incompleta m.
Proof. unfold completa, incompleta. intros H. apply Nat.leb_gt in H. exact H. Qed.

(** The loop over the matches is the loop over the complete ones: an
    incomplete match in between changes nothing and stops nothing. *)
Lemma pasos_producto_completas ms : ∀ st,
  pasos_producto st ms = pasos_producto st (List.filter completa ms).
Proof.
  induction ms as [|m ms IH]; intros st; simpl; [reflexivity|].
  destruct (completa m) eqn:E; simpl.
  - destruct (paso_producto st m) as [st1|e]; simpl; [apply IH|reflexivity].
  - rewrite (paso_producto_incompleta st m (completa_incompleta m E)). simpl.
    apply IH.
Qed.

(** C3, as the code has it.  In every response the loop over the
    [PRODUCTO] directives passes over those with fewer than three fields:
    it behaves as on the complete ones alone; and the [GENERAR_CHECKOUT]
    step does nothing while the cart is absent or empty.  Neither strips
    its tag: in a response whose [PRODUCTO] directives all have fewer than
    three fields, with or without a [GENERAR_CHECKOUT] directive while the
    cart is absent or empty, and with no other directive, the parser does
    not abort, shows no card, records no side effect and leaves the
    conversation as it was, and the text it returns is the response
    itself, stripped of surrounding blanks only. *)
Theorem C3_directivas_incompletas (raw : string) (c : Conversacion) (g : rng) :
  (∀ st ms, pasos_producto st ms = pasos_producto st (List.filter completa ms))
  ∧ (∀ st, carrito_con_items (conv st) = None →
           paso_generar_checkout raw st = Ok st)
  ∧ (Forall incompleta (re_findall P_PRODUCTO raw) →
     re_search P_BUSCAR_PRODUCTO raw = None →
     re_search P_AGREGAR_CARRITO raw = None →
     re_search P_CHECKOUT raw = None →
     str_in T_VER_CARRITO raw = false →
     carrito_con_items c = None →
     parser raw c g = Ok (mkEstado (strip raw) [] [] c g)).
Proof.
  split; [intros st ms; apply pasos_producto_completas|].
  split; [intros st; apply paso_generar_checkout_vacio|].
  intros Hp Hb Ha Hc Hv Hk. unfold _procesar_acciones.
  rewrite (pasos_producto_incompletas _ _ Hp). simpl.
  unfold paso_buscar. rewrite Hb.
  unfold paso_agregar. rewrite Ha.
  unfold paso_checkout. rewrite Hc. simpl.
  unfold paso_ver_carrito. rewrite Hv. simpl.
  rewrite paso_generar_checkout_vacio by exact Hk. reflexivity.
Qed.

End Incompletas.

Lemma C3_witness :
  Forall incompleta (re_findall P_PRODUCTO respuesta_incompleta) ∧
  re_search P_BUSCAR_PRODUCTO respuesta_incompleta = None ∧
  re_search P_AGREGAR_CARRITO respuesta_incompleta = None ∧
  re_search P_CHECKOUT respuesta_incompleta = None ∧
  str_in T_VER_CARRITO respuesta_incompleta = false ∧
  carrito_con_items conversacion_nueva = None ∧
  _procesar_acciones repr_decimal decimal_of_str bq_demo (fun _ => [])
    respuesta_incompleta conversacion_nueva sin_azar
  = Ok (mkEstado (strip respuesta_incompleta) [] [] conversacion_nueva sin_azar).
Proof.
  assert (H1 : Forall incompleta (re_findall P_PRODUCTO respuesta_incompleta)).
  { vm_compute. constructor; [|constructor]. lia. }
  assert (H2 : re_search P_BUSCAR_PRODUCTO respuesta_incompleta = None) by reflexivity.
  assert (H3 : re_search P_AGREGAR_CARRITO respuesta_incompleta = None) by reflexivity.
  assert (H4 : re_search P_CHECKOUT respuesta_incompleta = None) by reflexivity.
  assert (H5 : str_in T_VER_CARRITO respuesta_incompleta = false) by reflexivity.
  assert (H6 : carrito_con_items conversacion_nueva = None) by reflexivity.
  exact (conj H1 (conj H2 (conj H3 (conj H4 (conj H5 (conj H6
    (proj2 (proj2 (C3_directivas_incompletas repr_decimal decimal_of_str bq_demo
                     (fun _ => []) _ _ sin_azar)) H1 H2 H3 H4 H5 H6))))))).
Defined.

(** C3 as stated fails: the incomplete tags are not stripped from the text
    the parser returns. *)
Lemma C3_counterexample :
  match _procesar_acciones repr_decimal decimal_of_str bq_demo (fun _ => [])
          respuesta_incompleta conversacion_nueva sin_azar with
  | Ok st =>
      str_in "[PRODUCTO:12|Rosas]" (respuesta_procesada st) = true ∧
      str_in "[GENERAR_CHECKOUT]" (respuesta_procesada st) = true ∧
      productos_display st = [] ∧ acciones st = []
  | Raise _ => False
  end.
Proof. vm_compute. repeat split; reflexivity. Qed.

(** * Strings and patterns: the facts the parser proofs use *)

Lemma sapp_cons c s t : String c s +:+ t = String c (s +:+ t).
Proof. reflexivity. Qed.

Lemma sapp_nil_l s : "" +:+ s = s.
Proof. reflexivity. Qed.

Lemma sapp_nil_r s : s +:+ "" = s.
Proof. induction s as [|c s IH]; [reflexivity|]. rewrite sapp_cons, IH. reflexivity. Qed.

Lemma sapp_assoc s t u : (s +:+ t) +:+ u = s +:+ t +:+ u.
Proof. induction s as [|c s IH]; [reflexivity|]. rewrite !sapp_cons, IH. reflexivity. Qed.

Lemma len_app s t : len (s +:+ t) = (len s + len t)%nat.
Proof.
  unfold len. induction s as [|c s IH]; [reflexivity|].
  rewrite sapp_cons. simpl. rewrite IH. reflexivity.
Qed.

Lemma len_cons c s : len (String c s) = S (len s).
Proof. reflexivity. Qed.

Lemma take_app s t : take (len s) (s +:+ t) = s.
Proof.
  induction s as [|c s IH]; [destruct t; reflexivity|].
  rewrite sapp_cons, len_cons. simpl. rewrite IH. reflexivity.
Qed.

Lemma drop_app s t : drop (len s) (s +:+ t) = t.
Proof.
  induction s as [|c s IH]; [destruct t; reflexivity|].
  rewrite sapp_cons, len_cons. simpl. exact IH.
Qed.

Lemma consumed_app s t : consumed (s +:+ t) t = s.
Proof.
  unfold consumed. rewrite len_app.
  replace (len s + len t - len t)%nat with (len s) by lia. apply take_app.
Qed.

Lemma startswith_app p s : startswith p (p +:+ s) = true.
Proof.
  induction p as [|c p IH]; [reflexivity|].
  rewrite sapp_cons. simpl. rewrite Ascii.eqb_refl. exact IH.
Qed.

Lemma startswith_choca p w s : choca p w = true → startswith p (w +:+ s) = false.
Proof.
  revert w. induction p as [|a p IH]; intros [|b w]; simpl; try discriminate.
  rewrite ?sapp_cons. simpl. destruct (Ascii.eqb a b); simpl; [apply IH|reflexivity].
Qed.

(** ** Matching a literal *)

Lemma rmatch_lit {R} w : ∀ s g (k : cont R),
  rmatch (lit w) s g k = if startswith w s then k (drop (len w) s) g else None.
Proof.
  induction w as [|c w IH]; intros s g k.
  - destruct s; reflexivity.
  - destruct w as [|c2 w].
    + destruct s as [|b s]; simpl; [reflexivity|].
      destruct (Ascii.eqb c b); [destruct s|]; reflexivity.
    + change (lit (String c (String c2 w))) with (RCat (RLit c) (lit (String c2 w))).
      destruct s as [|b s]; [reflexivity|].
      cbn [rmatch startswith]. destruct (Ascii.eqb c b); [|reflexivity].
      rewrite IH. reflexivity.
Qed.

(** ** Matching a run of a character class *)

Lemma rmatch_clase {R} f : @rmatch R (RClass f) = paso_clase f.
Proof. reflexivity. Qed.

Lemma star_loop_clase {R} f run : ∀ fuel t g (k : cont R) x,
  all_chars f run = true → (len run ≤ fuel)%nat → corta f t →
  k t g = Some x →
  star_loop (paso_clase f) fuel (run +:+ t) g k = Some x.
Proof.
  induction run as [|c run IH]; intros fuel t g k x Hall Hfuel Hcorta Hk.
  - rewrite sapp_nil_l. destruct fuel as [|fuel]; [exact Hk|].
    cbn [star_loop]. unfold paso_clase at 1.
    destruct t as [|b t]; [exact Hk|]. simpl in Hcorta. rewrite Hcorta. exact Hk.
  - rewrite sapp_cons. simpl in Hall. apply andb_true_iff in Hall as [Hc Hall].
    rewrite len_cons in Hfuel.
    destruct fuel as [|fuel]; [lia|].
    cbn [star_loop]. unfold paso_clase at 1. rewrite Hc.
    replace (len (run +:+ t) <? len (String c (run +:+ t)))%nat with true
      by (symmetry; apply Nat.ltb_lt; rewrite len_cons; lia).
    rewrite (IH fuel t g k x Hall ltac:(lia) Hcorta Hk). reflexivity.
Qed.

Lemma rmatch_plus_clase {R} f run t g (k : cont R) x :
  run ≠ "" → all_chars f run = true → corta f t → k t g = Some x →
  rmatch (RPlus (RClass f)) (run +:+ t) g k = Some x.
Proof.
  intros Hne Hall Hcorta Hk. destruct run as [|c run]; [congruence|].
  rewrite sapp_cons. simpl in Hall. apply andb_true_iff in Hall as [Hc Hall].
  change (rmatch (RPlus (RClass f)) ?s g k)
    with (paso_clase f s g
            (fun s1 g1 => star_loop (paso_clase f) (len s1) s1 g1 k)).
  unfold paso_clase at 1. rewrite Hc.
  apply star_loop_clase; auto. rewrite len_app. lia.
Qed.

(** ** The directive tags *)

Lemma tag_pattern_eq name :
  tag_pattern name
  = RCat (lit (prefijo name)) (RCat (RGroup 1 (RPlus (RClass no_cierra))) (RLit "]")).
Proof. reflexivity. Qed.

Lemma match_at_tag_pattern name s :
  match_at (tag_pattern name) s
  = if startswith (prefijo name) s
    then rmatch (RCat (RGroup 1 (RPlus (RClass no_cierra))) (RLit "]"))
           (drop (len (prefijo name)) s) [] (fun s1 g1 => Some (s1, g1))
    else None.
Proof.
  unfold match_at. rewrite tag_pattern_eq.
  change (rmatch (RCat ?a ?b) ?s ?g ?k) with (rmatch a s g (fun s1 g1 => rmatch b s1 g1 k)).
  rewrite rmatch_lit. reflexivity.
Qed.

Lemma sin_corchetes_no_cierra s : sin_corchetes s → all_chars no_cierra s = true.
Proof.
  unfold sin_corchetes, no_cierra. induction s as [|c s IH]; simpl; [reflexivity|].
  intros H. apply andb_true_iff in H as [Hc Hs].
  apply andb_true_iff in Hc as [_ Hc]. rewrite Hc. simpl. apply IH. exact Hs.
Qed.

Lemma sin_corchetes_sin_abre s : sin_corchetes s → sin_abre s.
Proof.
  unfold sin_corchetes, sin_abre. induction s as [|c s IH]; simpl; [reflexivity|].
  intros H. apply andb_true_iff in H as [Hc Hs].
  apply andb_true_iff in Hc as [Hc _]. rewrite Hc. simpl. apply IH. exact Hs.
Qed.

(** A tag with a plain, non-empty content matches its pattern where it
    stands. *)
Lemma match_at_tag name contenido resto :
  contenido ≠ "" → sin_corchetes contenido →
  match_at (tag_pattern name) (tag name contenido +:+ resto)
  = Some (resto, [(1%nat, contenido)]).
Proof.
  intros Hne Hsc. rewrite match_at_tag_pattern. unfold tag.
  rewrite !sapp_assoc, startswith_app, drop_app.
  change (rmatch (RCat ?a ?b) ?s ?g ?k) with (rmatch a s g (fun s1 g1 => rmatch b s1 g1 k)).
  cbn [rmatch].
  apply rmatch_plus_clase.
  - exact Hne.
  - apply sin_corchetes_no_cierra. exact Hsc.
  - rewrite sapp_cons. reflexivity.
  - rewrite consumed_app, sapp_cons, sapp_nil_l. cbn. reflexivity.
Qed.

(** ** Scanning over text without an opening bracket *)

Lemma no_abre_eqb c : negb (Ascii.eqb c "[") = true → Ascii.eqb "[" c = false.
Proof. rewrite Ascii.eqb_sym. apply negb_true_iff. Qed.

Lemma tag_pattern_empieza name : empieza_en_corchete (tag_pattern name).
Proof.
  split; [rewrite match_at_tag_pattern; reflexivity|].
  intros c s Hc. rewrite match_at_tag_pattern.
  unfold prefijo. rewrite sapp_cons. cbn [startswith]. rewrite Hc. reflexivity.
Qed.

Lemma search_from_salta r : empieza_en_corchete r →
  ∀ pre pos resto, sin_abre pre →
  search_from r pos (pre +:+ resto) = search_from r (pos + len pre) resto.
Proof.
  intros [_ Hr]. induction pre as [|c pre IH]; intros pos resto Hpre.
  - rewrite sapp_nil_l. f_equal. unfold len. simpl. lia.
  - unfold sin_abre in Hpre. simpl in Hpre. apply andb_true_iff in Hpre as [Hc Hpre].
    rewrite sapp_cons. cbn [search_from].
    rewrite (Hr c _ (no_abre_eqb c Hc)).
    rewrite (IH (S pos) resto Hpre). f_equal. rewrite len_cons. lia.
Qed.

Lemma search_from_sin_abre r s pos :
  empieza_en_corchete r → sin_abre s → search_from r pos s = None.
Proof.
  intros Hr Hs. rewrite <- (sapp_nil_r s).
  rewrite (search_from_salta r Hr s pos "" Hs).
  destruct Hr as [H0 _]. cbn [search_from]. rewrite H0. reflexivity.
Qed.

Lemma str_in_salta w : ∀ pre resto,
  sin_abre pre → str_in (String "[" w) (pre +:+ resto) = str_in (String "[" w) resto.
Proof.
  induction pre as [|c pre IH]; intros resto Hpre; [reflexivity|].
  unfold sin_abre in Hpre. simpl in Hpre. apply andb_true_iff in Hpre as [Hc Hpre].
  rewrite sapp_cons. cbn [str_in startswith].
  rewrite (no_abre_eqb c Hc). cbn [andb orb]. apply IH. exact Hpre.
Qed.

Lemma str_in_sin_abre w s : sin_abre s → str_in (String "[" w) s = false.
Proof.
  intros Hs. rewrite <- (sapp_nil_r s), (str_in_salta w s "" Hs). reflexivity.
Qed.

Lemma replace_from_salta old' new : ∀ pre resto,
  sin_abre pre →
  replace_from (String "[" old') new 0 (pre +:+ resto)
  = pre +:+ replace_from (String "[" old') new 0 resto.
Proof.
  induction pre as [|c pre IH]; intros resto Hpre; [reflexivity|].
  unfold sin_abre in Hpre. simpl in Hpre. apply andb_true_iff in Hpre as [Hc Hpre].
  rewrite !sapp_cons. cbn [replace_from startswith].
  rewrite (no_abre_eqb c Hc). cbn [andb]. rewrite (IH resto Hpre). reflexivity.
Qed.

Lemma replace_from_sin_abre old' new s :
  sin_abre s → replace_from (String "[" old') new 0 s = s.
Proof.
  intros Hs. rewrite <- (sapp_nil_r s) at 1.
  rewrite (replace_from_salta old' new s "" Hs). apply sapp_nil_r.
Qed.

Lemma replace_from_skip old new : ∀ u resto,
  replace_from old new (len u) (u +:+ resto) = replace_from old new 0 resto.
Proof.
  induction u as [|c u IH]; intros resto; [reflexivity|].
  rewrite sapp_cons, len_cons. cbn [replace_from]. apply IH.
Qed.

(** An occurrence is replaced, and the scan goes on after it. *)
Lemma replace_from_hit c old' new resto :
  replace_from (String c old') new 0 (String c old' +:+ resto)
  = new +:+ replace_from (String c old') new 0 resto.
Proof.
  rewrite sapp_cons. cbn [replace_from].
  change (startswith (String c old') (String c (old' +:+ resto)))
    with (startswith (String c old') (String c old' +:+ resto)).
  rewrite startswith_app. rewrite len_cons.
  replace (S (len old') - 1)%nat with (len old') by lia.
  rewrite replace_from_skip. reflexivity.
Qed.

Lemma sin_abre_app s t : sin_abre s → sin_abre t → sin_abre (s +:+ t).
Proof.
  unfold sin_abre. induction s as [|c s IH]; intros Hs Ht; [exact Ht|].
  rewrite sapp_cons. simpl in *. apply andb_true_iff in Hs as [Hc Hs].
  rewrite Hc. simpl. apply IH; assumption.
Qed.

Lemma startswith_app_app p a b : startswith (p +:+ a) (p +:+ b) = startswith a b.
Proof.
  induction p as [|c p IH]; [reflexivity|].
  rewrite !sapp_cons. cbn [startswith]. rewrite Ascii.eqb_refl. exact IH.
Qed.

(** Two plain contents followed by the closing bracket: one is a prefix of
    the other only when they are equal. *)
Lemma startswith_contenido g1 : ∀ g2 resto,
  sin_corchetes g1 → sin_corchetes g2 →
  startswith (g1 +:+ "]") (g2 +:+ "]" +:+ resto) = true → g1 = g2.
Proof.
  unfold sin_corchetes.
  induction g1 as [|a g1 IH]; intros [|b g2] resto H1 H2; rewrite ?sapp_cons, ?sapp_nil_l;
    cbn [startswith]; simpl in H1, H2.
  - intros _. reflexivity.
  - apply andb_true_iff in H2 as [Hb _]. apply andb_true_iff in Hb as [_ Hb].
    intros H. apply andb_true_iff in H as [H _].
    rewrite Ascii.eqb_sym, H in Hb. discriminate.
  - apply andb_true_iff in H1 as [Ha _]. apply andb_true_iff in Ha as [_ Ha].
    intros H. apply andb_true_iff in H as [H _]. rewrite H in Ha. discriminate.
  - apply andb_true_iff in H1 as [_ H1]. apply andb_true_iff in H2 as [_ H2].
    intros H. apply andb_true_iff in H as [Hab H].
    apply Ascii.eqb_eq in Hab. subst b. f_equal. apply (IH g2 resto H1 H2). exact H.
Qed.

(** ** A tag inside a text *)

Lemma tag_cuerpo name g : tag name g = String "[" (name +:+ ":" +:+ g +:+ "]").
Proof. unfold tag, prefijo. rewrite !sapp_cons, sapp_nil_l, !sapp_assoc. reflexivity. Qed.

Lemma tag_prefijo name g resto :
  tag name g +:+ resto = prefijo name +:+ g +:+ "]" +:+ resto.
Proof. unfold tag. rewrite !sapp_assoc. reflexivity. Qed.

Lemma sin_abre_cuerpo name g :
  sin_abre name → sin_corchetes g → sin_abre (name +:+ ":" +:+ g +:+ "]").
Proof.
  intros Hn Hg. apply sin_abre_app; [exact Hn|].
  apply (sin_abre_app ":"); [reflexivity|].
  apply sin_abre_app; [apply sin_corchetes_sin_abre; exact Hg|reflexivity].
Qed.

(** A pattern that starts at a bracket but not with the prefix of [name]
    finds nothing in a tag of [name], and the scan goes on after the tag. *)
Lemma search_from_otro_tag r name g pos resto :
  empieza_en_corchete r →
  (∀ s, match_at r (prefijo name +:+ s) = None) →
  sin_abre name → sin_corchetes g →
  search_from r pos (tag name g +:+ resto)
  = search_from r (pos + len (tag name g)) resto.
Proof.
  intros Hr Hno Hn Hg.
  pose proof (Hno (g +:+ "]" +:+ resto)) as H0. rewrite <- tag_prefijo in H0.
  rewrite tag_cuerpo in *. rewrite sapp_cons in *. cbn [search_from]. rewrite H0.
  rewrite (search_from_salta r Hr _ (S pos) resto (sin_abre_cuerpo name g Hn Hg)).
  f_equal. rewrite len_cons. lia.
Qed.

Lemma str_in_otro_tag w name g resto :
  (∀ s, startswith (String "[" w) (prefijo name +:+ s) = false) →
  sin_abre name → sin_corchetes g →
  str_in (String "[" w) (tag name g +:+ resto) = str_in (String "[" w) resto.
Proof.
  intros Hno Hn Hg.
  pose proof (Hno (g +:+ "]" +:+ resto)) as H0. rewrite <- tag_prefijo in H0.
  rewrite tag_cuerpo in *. rewrite sapp_cons in *. cbn [str_in]. rewrite H0.
  cbn [orb]. apply str_in_salta. apply sin_abre_cuerpo; assumption.
Qed.

(** Replacing a tag: a tag of the same name is replaced when its content
    is the same, and stays when it is not. *)
Lemma replace_from_mismo_tag name g new resto :
  replace_from (tag name g) new 0 (tag name g +:+ resto)
  = new +:+ replace_from (tag name g) new 0 resto.
Proof. rewrite tag_cuerpo. apply replace_from_hit. Qed.

Lemma replace_from_otro_tag name g1 g2 new resto :
  sin_abre name → sin_corchetes g1 → sin_corchetes g2 → g1 ≠ g2 →
  replace_from (tag name g1) new 0 (tag name g2 +:+ resto)
  = tag name g2 +:+ replace_from (tag name g1) new 0 resto.
Proof.
  intros Hn H1 H2 Hne.
  assert (Hs : startswith (tag name g1) (tag name g2 +:+ resto) = false).
  { destruct (startswith _ _) eqn:E; [|reflexivity]. exfalso. apply Hne.
    unfold tag in E. rewrite !sapp_assoc, startswith_app_app in E.
    eapply startswith_contenido; eassumption. }
  pose proof (sin_abre_cuerpo name g2 Hn H2) as Hc.
  revert Hs. rewrite (tag_cuerpo name g2), (tag_cuerpo name g1).
  generalize (name +:+ ":" +:+ g1 +:+ "]"). generalize dependent (name +:+ ":" +:+ g2 +:+ "]").
  intros cuerpo2 Hc cuerpo1 Hs.
  rewrite sapp_cons in *. cbn [replace_from]. rewrite Hs.
  rewrite (replace_from_salta _ new _ resto Hc). reflexivity.
Qed.

Lemma replace_tag name g new s :
  replace (tag name g) new s = replace_from (tag name g) new 0 s.
Proof. rewrite tag_cuerpo. reflexivity. Qed.

Lemma re_findall_nada r s : re_search r s = None → re_findall r s = [].
Proof. intros H. unfold re_findall. cbn [findall_from]. rewrite H. reflexivity. Qed.

(** ** A response with tags of one directive *)

Lemma search_from_hit r pos s s1 g1 :
  match_at r s = Some (s1, g1) →
  search_from r pos s = Some (mkMatch pos (consumed s s1) g1 s1).
Proof. intros H. destruct s; simpl; rewrite H; reflexivity. Qed.

Lemma otro_prefijo name otro s :
  choca (prefijo otro) (prefijo name) = true →
  match_at (tag_pattern otro) (prefijo name +:+ s) = None.
Proof.
  intros H. rewrite match_at_tag_pattern, (startswith_choca _ _ _ H). reflexivity.
Qed.

Lemma otro_literal name w s :
  choca (String "[" w) (prefijo name) = true →
  startswith (String "[" w) (prefijo name +:+ s) = false.
Proof. apply startswith_choca. Qed.

Lemma search_from_con_tags r name :
  sin_abre name → empieza_en_corchete r →
  (∀ s, match_at r (prefijo name +:+ s) = None) →
  ∀ ts pos, Forall trozo_llano ts → search_from r pos (con_tags (tag name) ts) = None.
Proof.
  intros Hn Hr Hotro. induction ts as [|[g post] ts IH]; intros pos Hts.
  - apply search_from_sin_abre; [exact Hr|reflexivity].
  - apply Forall_cons in Hts as [(Hg & _ & Hpost) Hts]. cbn [fst snd] in *.
    cbn [con_tags].
    rewrite (search_from_otro_tag r name g _ _ Hr Hotro Hn Hg).
    rewrite (search_from_salta r Hr) by exact Hpost.
    apply IH, Hts.
Qed.

Lemma re_search_varios_tags_otro r name pre g1 mid ts :
  sin_abre name → prosa_y_tags pre g1 mid ts →
  empieza_en_corchete r →
  (∀ s, match_at r (prefijo name +:+ s) = None) →
  re_search r (varios_tags name pre g1 mid ts) = None.
Proof.
  intros Hn [Hp H1 _ Hm Hts] Hr Hotro. unfold re_search, varios_tags.
  rewrite (search_from_salta r Hr) by exact Hp.
  rewrite (search_from_otro_tag r name g1 _ _ Hr Hotro Hn H1).
  rewrite (search_from_salta r Hr) by exact Hm.
  apply search_from_con_tags; assumption.
Qed.

Lemma re_search_varios_tags name pre g1 mid ts :
  sin_abre name → prosa_y_tags pre g1 mid ts →
  re_search (tag_pattern name) (varios_tags name pre g1 mid ts)
  = Some (mkMatch (len pre) (tag name g1) [(1%nat, g1)]
            (mid +:+ con_tags (tag name) ts)).
Proof.
  intros Hn [Hp H1 Hne Hm Hts]. unfold re_search, varios_tags.
  rewrite (search_from_salta _ (tag_pattern_empieza name)) by exact Hp.
  rewrite (search_from_hit _ _ _ _ _ (match_at_tag name g1 _ Hne H1)).
  rewrite consumed_app. reflexivity.
Qed.

Lemma str_in_con_tags w name :
  sin_abre name →
  (∀ s, startswith (String "[" w) (prefijo name +:+ s) = false) →
  ∀ ts, Forall trozo_llano ts → str_in (String "[" w) (con_tags (tag name) ts) = false.
Proof.
  intros Hn Hotro. induction ts as [|[g post] ts IH]; intros Hts; [reflexivity|].
  apply Forall_cons in Hts as [(Hg & _ & Hpost) Hts]. cbn [fst snd] in *.
  cbn [con_tags].
  rewrite (str_in_otro_tag w name g _ Hotro Hn Hg).
  rewrite str_in_salta by exact Hpost. apply IH, Hts.
Qed.

Lemma str_in_varios_tags w name pre g1 mid ts :
  sin_abre name → prosa_y_tags pre g1 mid ts →
  (∀ s, startswith (String "[" w) (prefijo name +:+ s) = false) →
  str_in (String "[" w) (varios_tags name pre g1 mid ts) = false.
Proof.
  intros Hn [Hp H1 _ Hm Hts] Hotro. unfold varios_tags.
  rewrite str_in_salta by exact Hp.
  rewrite (str_in_otro_tag w name g1 _ Hotro Hn H1).
  rewrite str_in_salta by exact Hm.
  apply str_in_con_tags; assumption.
Qed.

(** [str.replace] of the first tag over the tags that follow it: the
    verbatim copies go, the others stay. *)
Lemma replace_from_con_tags name g1 new :
  sin_abre name → sin_corchetes g1 →
  ∀ ts, Forall trozo_llano ts →
  replace_from (tag name g1) new 0 (con_tags (tag name) ts)
  = con_tags (fun g => segundo_tag name g1 g new) ts.
Proof.
  intros Hn H1. induction ts as [|[g post] ts IH]; intros Hts.
  - rewrite tag_cuerpo. reflexivity.
  - apply Forall_cons in Hts as [(Hg & _ & Hpost) Hts]. cbn [fst snd] in *.
    cbn [con_tags]. unfold segundo_tag at 1.
    destruct (eqs g1 g) eqn:E.
    + apply eqs_true in E. subst g. rewrite replace_from_mismo_tag.
      rewrite (tag_cuerpo name g1). rewrite replace_from_salta by exact Hpost.
      rewrite <- (tag_cuerpo name g1). rewrite (IH Hts). reflexivity.
    + assert (g1 ≠ g) as Hd by (intros ->; rewrite eqs_refl in E; discriminate).
      rewrite (replace_from_otro_tag name g1 g new _ Hn H1 Hg Hd).
      rewrite (tag_cuerpo name g1). rewrite replace_from_salta by exact Hpost.
      rewrite <- (tag_cuerpo name g1). rewrite (IH Hts). reflexivity.
Qed.

Lemma replace_varios_tags name pre g1 mid ts new :
  sin_abre name → prosa_y_tags pre g1 mid ts →
  replace (tag name g1) new (varios_tags name pre g1 mid ts)
  = pre +:+ new +:+ mid +:+ con_tags (fun g => segundo_tag name g1 g new) ts.
Proof.
  intros Hn [Hp H1 _ Hm Hts]. unfold varios_tags.
  rewrite replace_tag, tag_cuerpo.
  rewrite replace_from_salta by exact Hp.
  rewrite <- !tag_cuerpo. rewrite replace_from_mismo_tag.
  rewrite (tag_cuerpo name g1).
  rewrite replace_from_salta by exact Hm.
  rewrite <- !tag_cuerpo.
  rewrite (replace_from_con_tags name g1 new Hn H1 ts Hts). reflexivity.
Qed.

(** * At most one add-to-cart, legacy search and explicit checkout *)

Section UnaVez.

Variable repr_float : Q → string.
Variable float_of_str : string → option Q.
Variable bq : BigQueryService.
Variable ejecutar_busqueda : string → list Producto.

Local Abbreviation parser := (_procesar_acciones repr_float float_of_str bq ejecutar_busqueda).

Lemma aplicar_agregar_a_lo_mas_una contenido c :
  (length (fst (aplicar_agregar float_of_str bq contenido c)) ≤ 1)%nat.
Proof.
  unfold aplicar_agregar. destruct (resolver_producto _ _ _); simpl; lia.
Qed.

Lemma paso_agregar_aplicar raw st m :
  re_search P_AGREGAR_CARRITO raw = Some m →
  paso_agregar float_of_str bq raw st
  = mkEstado (replace (group 0 m) "" (respuesta_procesada st)) (productos_display st)
      (acciones st ++ fst (aplicar_agregar float_of_str bq (group 1 m) (conv st)))
      (snd (aplicar_agregar float_of_str bq (group 1 m) (conv st))) (gen st).
Proof.
  intros Hm. unfold paso_agregar, aplicar_agregar. rewrite Hm.
  destruct (resolver_producto _ _ _); simpl; [reflexivity|].
  rewrite List.app_nil_r. reflexivity.
Qed.

Lemma paso_agregar_nada raw st :
  re_search P_AGREGAR_CARRITO raw = None → paso_agregar float_of_str bq raw st = st.
Proof. intros Hm. unfold paso_agregar. rewrite Hm. reflexivity. Qed.

Lemma ajenas_app l l' : ajenas l → ajenas l' → ajenas (l ++ l').
Proof.
  intros (A1 & B1 & D1) (A2 & B2 & D2). unfold ajenas.
  rewrite !List.filter_app, A1, A2, B1, B2, D1, D2. auto.
Qed.

Lemma pasos_producto_acciones ms : ∀ st st',
  pasos_producto st ms = Ok st' →
  ∃ l, acciones st' = acciones st ++ l ∧ ajenas l.
Proof.
  induction ms as [|m ms IH]; intros st st'; simpl.
  - intros [= <-]. exists []. rewrite List.app_nil_r. repeat split.
  - destruct (paso_producto st m) as [st1|e] eqn:E; simpl; [|discriminate].
    intros H. destruct (IH _ _ H) as (l & Hl & Hal).
    unfold paso_producto in E.
    destruct (3 <=? length (split "|" m))%nat.
    + destruct (precio_num_de _); simpl in E; [|discriminate].
      injection E as <-. simpl in Hl. rewrite <- List.app_assoc in Hl.
      eexists. split; [exact Hl|]. apply ajenas_app; [repeat split|exact Hal].
    + injection E as <-. eauto.
Qed.

Lemma paso_buscar_acciones raw st :
  acciones (paso_buscar repr_float ejecutar_busqueda raw st)
  = acciones st ++
    match re_search P_BUSCAR_PRODUCTO raw with
    | Some m => aplicar_buscar ejecutar_busqueda (group 1 m)
    | None => []
    end.
Proof.
  unfold paso_buscar, aplicar_buscar.
  destruct (re_search _ raw); [|rewrite List.app_nil_r; reflexivity].
  destruct (ejecutar_busqueda _); simpl; reflexivity.
Qed.

Lemma paso_checkout_acciones raw st st' :
  paso_checkout raw st = Ok st' →
  ∃ l, acciones st' = acciones st ++ l ∧
       List.filter es_agregar l = [] ∧ List.filter es_buscar l = [] ∧
       length (List.filter es_checkout l)
       = match re_search P_CHECKOUT raw with Some _ => 1%nat | None => 0%nat end.
Proof.
  unfold paso_checkout. destruct (re_search _ raw).
  - destruct (if eqs _ _ then _ else _) as [codigo g'].
    destruct (carrito_to_dict _); simpl; [|discriminate].
    intros [= <-]. eexists. split; [reflexivity|]. repeat split.
  - intros [= <-]. exists []. rewrite List.app_nil_r. repeat split.
Qed.

Lemma paso_ver_carrito_acciones raw st st' :
  paso_ver_carrito raw st = Ok st' → ∃ l, acciones st' = acciones st ++ l ∧ ajenas l.
Proof.
  unfold paso_ver_carrito. destruct (str_in _ raw).
  - destruct (re_sub_lit _ _ _); simpl; [|discriminate].
    intros [= <-]. eexists. split; [reflexivity|]. repeat split.
  - intros [= <-]. exists []. rewrite List.app_nil_r. repeat split.
Qed.

Lemma paso_generar_checkout_acciones raw st st' :
  paso_generar_checkout raw st = Ok st' →
  ∃ l, acciones st' = acciones st ++ l ∧ ajenas l.
Proof.
  unfold paso_generar_checkout.
  destruct (str_in _ raw); [|intros [= <-]; exists []; rewrite List.app_nil_r; repeat split].
  destruct (carrito_con_items _);
    [|intros [= <-]; exists []; rewrite List.app_nil_r; repeat split].
  destruct (_generar_codigo_carrito _) as [codigo g'].
  destruct (re_sub_lit _ _ _); simpl; [|discriminate].
  intros [= <-]. eexists. split; [reflexivity|]. repeat split.
Qed.

(** Every response: the add-to-cart and legacy search side effects are
    those of the first occurrence of their directive, once; the explicit
    checkout is recorded once at most; the conversation changes by the one
    add-to-cart only. *)
Lemma parser_una_vez raw c g st :
  parser raw c g = Ok st →
  match re_search P_AGREGAR_CARRITO raw with
  | Some m =>
      List.filter es_agregar (acciones st)
      = fst (aplicar_agregar float_of_str bq (group 1 m) c)
      ∧ conv st = snd (aplicar_agregar float_of_str bq (group 1 m) c)
  | None => List.filter es_agregar (acciones st) = [] ∧ conv st = c
  end
  ∧ List.filter es_buscar (acciones st)
    = match re_search P_BUSCAR_PRODUCTO raw with
      | Some m => aplicar_buscar ejecutar_busqueda (group 1 m)
      | None => []
      end
  ∧ length (List.filter es_checkout (acciones st))
    = match re_search P_CHECKOUT raw with Some _ => 1%nat | None => 0%nat end.
Proof.
  unfold _procesar_acciones.
  destruct (pasos_producto _ _) as [st1|] eqn:E1; simpl; [|discriminate].
  destruct (paso_checkout raw _) as [st4|] eqn:E4; simpl; [|discriminate].
  destruct (paso_ver_carrito raw st4) as [st5|] eqn:E5; simpl; [|discriminate].
  destruct (paso_generar_checkout raw st5) as [st6|] eqn:E6; simpl; [|discriminate].
  intros [= <-]. simpl.
  pose proof (paso_generar_checkout_conv _ _ _ E6) as K6.
  pose proof (paso_ver_carrito_conv _ _ _ E5) as K5.
  pose proof (paso_checkout_conv _ _ _ E4) as K4.
  pose proof (pasos_producto_conv _ _ _ E1) as K1. simpl in K1.
  destruct (paso_generar_checkout_acciones _ _ _ E6) as (l6 & A6 & (X6 & Y6 & Z6)).
  destruct (paso_ver_carrito_acciones _ _ _ E5) as (l5 & A5 & (X5 & Y5 & Z5)).
  destruct (paso_checkout_acciones _ _ _ E4) as (l4 & A4 & X4 & Y4 & Z4).
  destruct (pasos_producto_acciones _ _ _ E1) as (l1 & A1 & (X1 & Y1 & Z1)).
  simpl in A1.
  set (st2 := paso_buscar repr_float ejecutar_busqueda raw st1) in *.
  assert (K2 : conv st2 = c) by (unfold st2; rewrite paso_buscar_conv; exact K1).
  assert (A2 : acciones st2 = l1 ++ match re_search P_BUSCAR_PRODUCTO raw with
                                     | Some m => aplicar_buscar ejecutar_busqueda (group 1 m)
                                     | None => []
                                     end)
    by (unfold st2; rewrite paso_buscar_acciones, A1; reflexivity).
  rewrite A6, A5, A4, K6, K5, K4.
  destruct (re_search P_AGREGAR_CARRITO raw) as [m|] eqn:Em.
  - rewrite (paso_agregar_aplicar raw st2 m Em). simpl. rewrite A2, K2.
    rewrite !List.filter_app, X1, X4, X5, X6, Y1, Y4, Y5, Y6, Z1, Z5, Z6.
    rewrite !length_app, Z4.
    destruct (re_search P_BUSCAR_PRODUCTO raw); simpl;
      rewrite ?List.app_nil_r;
      (split; [split; [|reflexivity]|split]);
      unfold aplicar_agregar;
      destruct (resolver_producto _ _ _); simpl; try reflexivity; try lia.
  - rewrite (paso_agregar_nada raw st2 Em). rewrite A2, K2.
    rewrite !List.filter_app, X1, X4, X5, X6, Y1, Y4, Y5, Y6, Z1, Z5, Z6.
    rewrite !length_app, Z4.
    destruct (re_search P_BUSCAR_PRODUCTO raw); simpl;
      rewrite ?List.app_nil_r; (split; [split; reflexivity|split]);
      try reflexivity; try lia.
Qed.

(** ** Tags of one directive *)

Lemma sin_otras_directivas_varios name pre g1 mid ts :
  sin_abre name → prosa_y_tags pre g1 mid ts →
  choca "[PRODUCTO:" (prefijo name) = true →
  choca "[VER_CARRITO]" (prefijo name) = true →
  choca "[GENERAR_CHECKOUT]" (prefijo name) = true →
  re_findall P_PRODUCTO (varios_tags name pre g1 mid ts) = [] ∧
  str_in T_VER_CARRITO (varios_tags name pre g1 mid ts) = false ∧
  str_in T_GENERAR_CHECKOUT (varios_tags name pre g1 mid ts) = false.
Proof.
  intros Hn Hp H1 H2 H3. split; [|split].
  - apply re_findall_nada, re_search_varios_tags_otro;
      [exact Hn|exact Hp|apply tag_pattern_empieza|].
    intros s. apply otro_prefijo. exact H1.
  - apply str_in_varios_tags; [exact Hn|exact Hp|]. intros s. apply otro_literal. exact H2.
  - apply str_in_varios_tags; [exact Hn|exact Hp|]. intros s. apply otro_literal. exact H3.
Qed.

Ltac otra_directiva_varios Hp :=
  apply re_search_varios_tags_otro;
  [reflexivity|exact Hp|apply tag_pattern_empieza|
   intros ?; apply otro_prefijo; reflexivity].

Lemma parser_varios_agregar pre g1 mid ts c g :
  prosa_y_tags pre g1 mid ts →
  parser (varios_tags "AGREGAR_CARRITO" pre g1 mid ts) c g
  = Ok (mkEstado (texto_varios_tags "AGREGAR_CARRITO" pre g1 mid ts "") []
          (fst (aplicar_agregar float_of_str bq g1 c))
          (snd (aplicar_agregar float_of_str bq g1 c)) g).
Proof.
  intros Hp.
  destruct (sin_otras_directivas_varios "AGREGAR_CARRITO" _ _ _ _ eq_refl Hp
              eq_refl eq_refl eq_refl) as (Hprod & Hver & Hgen).
  assert (Hb : re_search P_BUSCAR_PRODUCTO
                 (varios_tags "AGREGAR_CARRITO" pre g1 mid ts) = None)
    by otra_directiva_varios Hp.
  assert (Hc : re_search P_CHECKOUT
                 (varios_tags "AGREGAR_CARRITO" pre g1 mid ts) = None)
    by otra_directiva_varios Hp.
  unfold _procesar_acciones. rewrite Hprod. cbn [pasos_producto bind].
  unfold paso_buscar at 1. rewrite Hb.
  rewrite (paso_agregar_aplicar _ _ _
             (re_search_varios_tags "AGREGAR_CARRITO" _ _ _ _ eq_refl Hp)).
  unfold paso_checkout. rewrite Hc. cbn [bind].
  unfold paso_ver_carrito. rewrite Hver. cbn [bind].
  unfold paso_generar_checkout. rewrite Hgen. cbn [bind].
  cbn [respuesta_procesada productos_display acciones conv gen group m_text
       m_groups lookup_group Nat.eqb app].
  rewrite (replace_varios_tags "AGREGAR_CARRITO" _ _ _ _ _ eq_refl Hp). reflexivity.
Qed.

Lemma parser_varios_buscar pre g1 mid ts c g :
  prosa_y_tags pre g1 mid ts →
  parser (varios_tags "BUSCAR_PRODUCTO" pre g1 mid ts) c g
  = Ok (mkEstado
          (texto_varios_tags "BUSCAR_PRODUCTO" pre g1 mid ts
             (fst (reemplazo_buscar repr_float ejecutar_busqueda g1)))
          (snd (reemplazo_buscar repr_float ejecutar_busqueda g1))
          (aplicar_buscar ejecutar_busqueda g1) c g).
Proof.
  intros Hp.
  destruct (sin_otras_directivas_varios "BUSCAR_PRODUCTO" _ _ _ _ eq_refl Hp
              eq_refl eq_refl eq_refl) as (Hprod & Hver & Hgen).
  assert (Ha : re_search P_AGREGAR_CARRITO
                 (varios_tags "BUSCAR_PRODUCTO" pre g1 mid ts) = None)
    by otra_directiva_varios Hp.
  assert (Hc : re_search P_CHECKOUT
                 (varios_tags "BUSCAR_PRODUCTO" pre g1 mid ts) = None)
    by otra_directiva_varios Hp.
  unfold _procesar_acciones. rewrite Hprod. cbn [pasos_producto bind].
  rewrite paso_agregar_nada by exact Ha.
  unfold paso_checkout. rewrite Hc. cbn [bind].
  unfold paso_ver_carrito. rewrite Hver. cbn [bind].
  unfold paso_generar_checkout. rewrite Hgen. cbn [bind].
  unfold paso_buscar, P_BUSCAR_PRODUCTO.
  rewrite (re_search_varios_tags "BUSCAR_PRODUCTO" _ _ _ _ eq_refl Hp).
  unfold reemplazo_buscar, aplicar_buscar, texto_varios_tags.
  cbn [respuesta_procesada productos_display acciones conv gen group m_text
       m_groups lookup_group Nat.eqb app].
  destruct (ejecutar_busqueda (strip g1)) as [|p ps];
    cbn [respuesta_procesada productos_display acciones conv gen app fst snd];
    rewrite (replace_varios_tags "BUSCAR_PRODUCTO" _ _ _ _ _ eq_refl Hp); reflexivity.
Qed.

Lemma parser_varios_checkout pre g1 mid ts c g :
  prosa_y_tags pre g1 mid ts →
  parser (varios_tags "CHECKOUT" pre g1 mid ts) c g
  = match carrito c with
    | Some _ => Raise AttributeError
    | None =>
        let '(codigo, g') := codigo_checkout g1 g in
        Ok (mkEstado
              (texto_varios_tags "CHECKOUT" pre g1 mid ts (enlace_checkout codigo))
              [] [ACheckout codigo (checkout_url codigo) PNone] c g')
    end.
Proof.
  intros Hp.
  destruct (sin_otras_directivas_varios "CHECKOUT" _ _ _ _ eq_refl Hp
              eq_refl eq_refl eq_refl) as (Hprod & Hver & Hgen).
  assert (Ha : re_search P_AGREGAR_CARRITO
                 (varios_tags "CHECKOUT" pre g1 mid ts) = None)
    by otra_directiva_varios Hp.
  assert (Hb : re_search P_BUSCAR_PRODUCTO
                 (varios_tags "CHECKOUT" pre g1 mid ts) = None)
    by otra_directiva_varios Hp.
  unfold _procesar_acciones. rewrite Hprod. cbn [pasos_producto bind].
  unfold paso_buscar at 1. rewrite Hb.
  rewrite paso_agregar_nada by exact Ha.
  unfold paso_checkout, P_CHECKOUT.
  rewrite (re_search_varios_tags "CHECKOUT" _ _ _ _ eq_refl Hp).
  cbn [respuesta_procesada productos_display acciones conv gen group m_text
       m_groups lookup_group Nat.eqb app].
  unfold codigo_checkout.
  destruct (if eqs (strip g1) "codigo_random" then _ else _) as [codigo g'].
  destruct (carrito c) as [k|]; cbn [carrito_to_dict bind]; [reflexivity|].
  unfold paso_ver_carrito. rewrite Hver. cbn [bind].
  unfold paso_generar_checkout. rewrite Hgen. cbn [bind].
  cbn [respuesta_procesada productos_display acciones conv gen app].
  rewrite (replace_varios_tags "CHECKOUT" _ _ _ _ _ eq_refl Hp). reflexivity.
Qed.

End UnaVez.

(** C9 (amended).  For every response on which the parser returns, the
    add-to-cart and the legacy search side effects are those of the first
    occurrence of their directive, once, the explicit checkout is recorded
    once at most, and the conversation changes by the one add-to-cart only:
    a later occurrence is never applied.  For a response made of prose
    without an opening bracket and of tags of one of these directives,
    whose contents hold no bracket, the effects are those of the first tag
    alone, and each later tag stays in the text exactly when it differs
    from the first: a verbatim copy of the first tag is rewritten with it,
    without being applied.  (With a cart in the conversation the explicit
    checkout raises before anything is returned.) *)
Theorem C9_una_vez_y_copias_identicas
    (repr_float : Q → string) (float_of_str : string → option Q)
    (bq : BigQueryService) (ejecutar_busqueda : string → list Producto)
    (c : Conversacion) (g : rng) :
  let parser := _procesar_acciones repr_float float_of_str bq ejecutar_busqueda in
  (∀ raw st, parser raw c g = Ok st →
     match re_search P_AGREGAR_CARRITO raw with
     | Some m =>
         List.filter es_agregar (acciones st)
         = fst (aplicar_agregar float_of_str bq (group 1 m) c)
         ∧ conv st = snd (aplicar_agregar float_of_str bq (group 1 m) c)
     | None => List.filter es_agregar (acciones st) = [] ∧ conv st = c
     end
     ∧ (length (List.filter es_agregar (acciones st)) ≤ 1)%nat
     ∧ List.filter es_buscar (acciones st)
       = match re_search P_BUSCAR_PRODUCTO raw with
         | Some m => aplicar_buscar ejecutar_busqueda (group 1 m)
         | None => []
         end
     ∧ length (List.filter es_checkout (acciones st))
       = match re_search P_CHECKOUT raw with Some _ => 1%nat | None => 0%nat end)
  ∧ (∀ pre g1 mid ts, prosa_y_tags pre g1 mid ts →
     parser (varios_tags "AGREGAR_CARRITO" pre g1 mid ts) c g
     = Ok (mkEstado (texto_varios_tags "AGREGAR_CARRITO" pre g1 mid ts "") []
             (fst (aplicar_agregar float_of_str bq g1 c))
             (snd (aplicar_agregar float_of_str bq g1 c)) g)
     ∧ parser (varios_tags "BUSCAR_PRODUCTO" pre g1 mid ts) c g
       = Ok (mkEstado
               (texto_varios_tags "BUSCAR_PRODUCTO" pre g1 mid ts
                  (fst (reemplazo_buscar repr_float ejecutar_busqueda g1)))
               (snd (reemplazo_buscar repr_float ejecutar_busqueda g1))
               (aplicar_buscar ejecutar_busqueda g1) c g)
     ∧ parser (varios_tags "CHECKOUT" pre g1 mid ts) c g
       = match carrito c with
         | Some _ => Raise AttributeError
         | None =>
             let '(codigo, g') := codigo_checkout g1 g in
             Ok (mkEstado
                   (texto_varios_tags "CHECKOUT" pre g1 mid ts
                      (enlace_checkout codigo))
                   [] [ACheckout codigo (checkout_url codigo) PNone] c g')
         end).
Proof.
  intros parser. split.
  - intros raw st H.
    destruct (parser_una_vez _ _ _ _ _ _ _ _ H) as (Ha & Hb & Hc).
    split; [exact Ha|]. split; [|split; [exact Hb|exact Hc]].
    destruct (re_search P_AGREGAR_CARRITO raw) as [m|]; destruct Ha as [-> _].
    + apply aplicar_agregar_a_lo_mas_una.
    + simpl. lia.
  - intros pre g1 mid ts Hp. split; [|split].
    + apply parser_varios_agregar, Hp.
    + apply parser_varios_buscar, Hp.
    + apply parser_varios_checkout, Hp.
Qed.

Lemma prosa_tres_tags :
  prosa_y_tags "Listo " "26|Caja Rosatel con 12 Rosas Rojas|125" " y "
    [("26|Caja Rosatel con 12 Rosas Rojas|125", " y ");
     ("27|Ramo con Rosas y Chocolates|145", " Algo mas?")].
Proof.
  split; try reflexivity; try discriminate.
  repeat constructor; cbn [fst snd]; discriminate.
Qed.

Lemma C9_witness :
  prosa_y_tags "Listo " "26|Caja Rosatel con 12 Rosas Rojas|125" " y "
    [("26|Caja Rosatel con 12 Rosas Rojas|125", " y ");
     ("27|Ramo con Rosas y Chocolates|145", " Algo mas?")] ∧
  let r := _procesar_acciones repr_decimal decimal_of_str bq_demo (fun _ => [])
             respuesta_tres_tags conversacion_nueva sin_azar in
  r = Ok (mkEstado
            "Listo  y  y [AGREGAR_CARRITO:27|Ramo con Rosas y Chocolates|145] Algo mas?"
            [] [AAgregarCarrito "26" "Caja Rosatel con 12 Rosas Rojas" (PFloat 125)]
            (con_carrito conversacion_nueva (Some carrito_con_caja)) sin_azar) ∧
  ∀ st, r = Ok st →
    (length (List.filter es_agregar (acciones st)) ≤ 1)%nat ∧
    List.filter es_buscar (acciones st) = [] ∧
    length (List.filter es_checkout (acciones st)) = 0%nat.
Proof.
  pose proof (C9_una_vez_y_copias_identicas repr_decimal decimal_of_str bq_demo
                (fun _ => []) conversacion_nueva sin_azar) as [Hgen Hdos].
  split; [exact prosa_tres_tags|]. split.
  - destruct (Hdos _ _ _ _ prosa_tres_tags) as [H _].
    etransitivity; [exact H|]. vm_compute. reflexivity.
  - intros st Hst. destruct (Hgen _ _ Hst) as (_ & H1 & H2 & H3).
    split; [exact H1|]. split; [exact H2|exact H3].
Defined.

(** C9 as stated fails: of two identical add-to-cart tags one is applied
    and both are removed from the text. *)
Lemma C9_counterexample :
  length (re_findall P_AGREGAR_CARRITO respuesta_dos_copias) = 2%nat ∧
  match _procesar_acciones repr_decimal decimal_of_str bq_demo (fun _ => [])
          respuesta_dos_copias conversacion_nueva sin_azar with
  | Ok st =>
      respuesta_procesada st = "Listo  y" ∧
      str_in "[AGREGAR_CARRITO:" (respuesta_procesada st) = false ∧
      acciones st = [AAgregarCarrito "26" "Caja Rosatel con 12 Rosas Rojas" (PFloat 125)] ∧
      option_map total_items (carrito (conv st)) = Some 1%Z
  | Raise _ => False
  end.
Proof. vm_compute. repeat split; reflexivity. Qed.

(** * The cart as a whole *)

Lemma incrementar_ids pid q l l' :
  incrementar pid q l = Some l' → map producto_id l' = map producto_id l.
Proof.
  revert l'. induction l as [|it l IH]; intros l'; simpl; [discriminate|].
  destruct (eqs (producto_id it) pid).
  - intros [= <-]. reflexivity.
  - destruct (incrementar pid q l) as [r|]; [|discriminate].
    intros [= <-]. simpl. rewrite (IH r eq_refl). reflexivity.
Qed.

Lemma incrementar_none pid q l :
  incrementar pid q l = None → pid ∉ map producto_id l.
Proof.
  induction l as [|it l IH]; simpl; [intros _; apply not_elem_of_nil|].
  destruct (eqs (producto_id it) pid) eqn:E; [discriminate|].
  destruct (incrementar pid q l); [discriminate|].
  intros _ H. apply elem_of_cons in H as [H|H].
  - subst pid. rewrite eqs_refl in E. discriminate.
  - exact (IH eq_refl H).
Qed.

Lemma incrementar_al_dia pid q l l' :
  incrementar pid q l = Some l' → Forall subtotal_al_dia l → Forall subtotal_al_dia l'.
Proof.
  revert l'. induction l as [|it l IH]; intros l'; simpl; [discriminate|].
  destruct (eqs (producto_id it) pid).
  - intros [= <-] H. apply Forall_cons in H as [_ H].
    constructor; [reflexivity|exact H].
  - destruct (incrementar pid q l) as [r|]; [|discriminate].
    intros [= <-] H. apply Forall_cons in H as [H1 H2].
    constructor; [exact H1|]. apply (IH r eq_refl H2).
Qed.

Lemma agregar_item_bien_formado c p q :
  bien_formado c → bien_formado (agregar_item c p q).
Proof.
  intros [Hn Hs]. unfold bien_formado, ids_carrito, agregar_item in *.
  destruct (incrementar (prod_id p) q (items c)) as [l|] eqn:E; simpl.
  - rewrite (incrementar_ids _ _ _ _ E). split; [exact Hn|].
    exact (incrementar_al_dia _ _ _ _ E Hs).
  - split.
    + rewrite map_app. simpl. apply NoDup_app. split; [exact Hn|]. split.
      * intros x Hx Hx'. apply list_elem_of_singleton in Hx'. subst x.
        exact (incrementar_none _ _ _ E Hx).
      * apply NoDup_singleton.
    + apply Forall_app. split; [exact Hs|]. constructor; [reflexivity|constructor].
Qed.

Lemma remover_item_bien_formado c pid :
  bien_formado c → bien_formado (remover_item c pid).
Proof.
  intros [Hn Hs]. unfold bien_formado, ids_carrito, remover_item in *. simpl. split.
  - induction (items c) as [|it l IH]; simpl; [constructor|].
    apply NoDup_cons in Hn as [Hi Hn]. apply Forall_cons in Hs as [_ Hs].
    rewrite filter_cons. destruct (decide (producto_id it ≠ pid)); [|auto].
    simpl. apply NoDup_cons. split; [|auto].
    intros H. apply Hi. apply list_elem_of_fmap in H as (x & Hx1 & Hx2).
    apply list_elem_of_filter in Hx2 as [_ Hx2].
    apply list_elem_of_fmap. eauto.
  - apply Forall_forall. intros x Hx. apply list_elem_of_filter in Hx as [_ Hx].
    exact (proj1 (Forall_forall _ _) Hs x Hx).
Qed.

(** X1.  Whatever sequence of [agregar_item], [remover_item] and [limpiar]
    calls is applied to a new cart, the cart holds at most one item per
    product id and the subtotal of every item is its quantity times its
    unit price. *)
Theorem carrito_alcanzable_bien_formado (sid : string) (ms : list mutacion) :
  bien_formado (mutaciones (nuevo_Carrito sid) ms).
Proof.
  unfold mutaciones.
  assert (H0 : bien_formado (nuevo_Carrito sid)) by (split; constructor).
  revert H0. generalize (nuevo_Carrito sid). induction ms as [|m ms IH]; intros c Hc.
  - exact Hc.
  - simpl. apply IH. destruct m as [p q|pid|]; simpl.
    + apply agregar_item_bien_formado, Hc.
    + apply remover_item_bien_formado, Hc.
    + split; constructor.
Qed.

Lemma suma_items_desde l : ∀ a,
  fold_left (fun acc it => (acc + cantidad it)%Z) l a
  = (a + fold_left (fun acc it => (acc + cantidad it)%Z) l 0)%Z.
Proof.
  induction l as [|it l IH]; intros a; simpl; [lia|].
  rewrite (IH (a + cantidad it)%Z), (IH (0 + cantidad it)%Z). lia.
Qed.

Lemma incrementar_total pid q l l' :
  incrementar pid q l = Some l' →
  fold_left (fun acc it => (acc + cantidad it)%Z) l' 0%Z
  = (fold_left (fun acc it => (acc + cantidad it)%Z) l 0 + q)%Z.
Proof.
  revert l'. induction l as [|it l IH]; intros l'; simpl; [discriminate|].
  destruct (eqs (producto_id it) pid).
  - intros [= <-]. cbn [fold_left cantidad].
    rewrite (suma_items_desde l (0 + (cantidad it + q))%Z).
    rewrite (suma_items_desde l (0 + cantidad it)%Z). lia.
  - destruct (incrementar pid q l) as [r|]; [|discriminate].
    intros [= <-]. cbn [fold_left].
    rewrite (suma_items_desde r (0 + cantidad it)%Z).
    rewrite (suma_items_desde l (0 + cantidad it)%Z).
    rewrite (IH r eq_refl). lia.
Qed.

Lemma agregar_item_suma_unidades c p cant :
  total_items (agregar_item c p cant) = (total_items c + cant)%Z.
Proof.
  unfold total_items, agregar_item.
  destruct (incrementar (prod_id p) cant (items c)) as [l|] eqn:E; simpl.
  - exact (incrementar_total _ _ _ _ E).
  - rewrite fold_left_app. reflexivity.
Qed.

(** X2.  A sequence of [agregar_item] calls raises [total_items] by the sum
    of the quantities added, whether a call appends an item or increments
    one that is there. *)
Theorem total_items_agregar_llamadas (c : Carrito) (llamadas : list (Producto * Z)) :
  total_items (agregar_llamadas c llamadas)
  = (total_items c + suma_cantidades llamadas)%Z.
Proof.
  unfold agregar_llamadas, suma_cantidades.
  revert c. induction llamadas as [|[p q] llamadas IH]; intros c.
  - simpl. lia.
  - cbn [fold_left map fold_right fst snd].
    rewrite IH, agregar_item_suma_unidades. lia.
Qed.

Lemma filter_otros_incrementar pid q l l' :
  incrementar pid q l = Some l' →
  filter (fun it => producto_id it ≠ pid) l' = filter (fun it => producto_id it ≠ pid) l.
Proof.
  revert l'. induction l as [|it l IH]; intros l'; simpl; [discriminate|].
  destruct (eqs (producto_id it) pid) eqn:E.
  - intros [= <-]. apply eqs_true in E.
    rewrite !filter_cons. simpl.
    destruct (decide (producto_id it ≠ pid)); [contradiction|reflexivity].
  - destruct (incrementar pid q l) as [r|]; [|discriminate].
    intros [= <-]. rewrite !filter_cons, (IH r eq_refl). reflexivity.
Qed.

Lemma filter_otros_ausente pid (l : list CarritoItem) :
  pid ∉ map producto_id l → filter (fun it => producto_id it ≠ pid) l = l.
Proof.
  induction l as [|it l IH]; simpl; [reflexivity|].
  intros H. apply not_elem_of_cons in H as [H1 H2].
  rewrite filter_cons. destruct (decide (producto_id it ≠ pid)) as [_|n].
  - rewrite (IH H2). reflexivity.
  - exfalso. apply n. congruence.
Qed.

(** X3.  [remover_item] undoes [agregar_item]: after a product is added and
    its id removed, the cart holds no item of that id and is the cart that
    removing the id at once would have given; when the product was not in
    the cart, it is the cart as it was. *)
Theorem remover_item_deshace_agregar_item (c : Carrito) (p : Producto) (cant : Z) :
  (prod_id p ∉ ids_carrito (remover_item (agregar_item c p cant) (prod_id p)))
  ∧ remover_item (agregar_item c p cant) (prod_id p) = remover_item c (prod_id p)
  ∧ (prod_id p ∉ ids_carrito c →
     remover_item (agregar_item c p cant) (prod_id p) = c).
Proof.
  assert (Heq : remover_item (agregar_item c p cant) (prod_id p)
                = remover_item c (prod_id p)).
  { unfold remover_item, agregar_item.
    destruct (incrementar (prod_id p) cant (items c)) as [l|] eqn:E; simpl.
    - rewrite (filter_otros_incrementar _ _ _ _ E). reflexivity.
    - rewrite filter_app, filter_cons. simpl.
      destruct (decide (prod_id p ≠ prod_id p)); [contradiction|].
      rewrite filter_nil, app_nil_r. reflexivity. }
  split; [|split; [exact Heq|]].
  - rewrite Heq. unfold ids_carrito, remover_item. simpl. intros H.
    apply list_elem_of_fmap in H as (x & Hx1 & Hx2).
    apply list_elem_of_filter in Hx2 as [Hx2 _]. congruence.
  - intros H. rewrite Heq. unfold remover_item.
    rewrite (filter_otros_ausente _ _ H). destruct c; reflexivity.
Qed.

Lemma remover_item_deshace_witness :
  (prod_id producto_demo ∉ ids_carrito (nuevo_Carrito "widget_1")) ∧
  remover_item (agregar_item (nuevo_Carrito "widget_1") producto_demo 2)
    (prod_id producto_demo) = nuevo_Carrito "widget_1".
Proof.
  assert (H : prod_id producto_demo ∉ ids_carrito (nuevo_Carrito "widget_1"))
    by apply not_elem_of_nil.
  exact (conj H (proj2 (proj2 (remover_item_deshace_agregar_item
                                 (nuevo_Carrito "widget_1") producto_demo 2)) H)).
Defined.

Lemma agregar_item_al_dia k p q :
  Forall subtotal_al_dia (items k) → Forall subtotal_al_dia (items (agregar_item k p q)).
Proof.
  intros H. unfold agregar_item.
  destruct (incrementar (prod_id p) q (items k)) as [l|] eqn:E; cbn [items].
  - exact (incrementar_al_dia _ _ _ _ E H).
  - apply Forall_app. split; [exact H|]. constructor; [reflexivity|constructor].
Qed.

Lemma agregar_item_no_vacio k p q : items (agregar_item k p q) ≠ [].
Proof.
  unfold agregar_item. destruct (incrementar (prod_id p) q (items k)) as [l|] eqn:E;
    cbn [items].
  - destruct (items k) as [|it l0]; [discriminate|]. cbn [incrementar] in E.
    destruct (eqs _ _); [injection E as <-; discriminate|].
    destruct (incrementar _ _ l0); [injection E as <-; discriminate|discriminate].
  - destruct (items k); discriminate.
Qed.

(** * Preference extraction as a whole *)

Lemma solo_escribe_id : solo_escribe (fun c => c).
Proof.
  exists ∅. intros c. rewrite (left_id_L ∅ (∪)). destruct c; reflexivity.
Qed.

Lemma solo_escribe_actualizar k v : solo_escribe (fun c => actualizar_contexto c k v).
Proof.
  exists {[k := v]}. intros c. unfold actualizar_contexto.
  rewrite insert_union_singleton_l. reflexivity.
Qed.

Lemma solo_escribe_comp f g :
  solo_escribe f → solo_escribe g → solo_escribe (fun c => g (f c)).
Proof.
  intros [W1 H1] [W2 H2]. exists (W2 ∪ W1). intros c.
  rewrite H2, H1. unfold con_contexto. simpl.
  rewrite (assoc_L (∪)). reflexivity.
Qed.

Lemma solo_escribe_faceta t key ml : solo_escribe (extraer_faceta t key ml).
Proof.
  unfold extraer_faceta. destruct (primera_clave t ml).
  - apply solo_escribe_actualizar.
  - apply solo_escribe_id.
Qed.

Lemma solo_escribe_intencion kws key ml : solo_escribe (extraer_intencion kws key ml).
Proof.
  unfold extraer_intencion. destruct (any_in kws ml).
  - apply solo_escribe_actualizar.
  - apply solo_escribe_id.
Qed.

Lemma solo_escribe_presupuesto ml : solo_escribe (extraer_presupuesto ml).
Proof.
  unfold extraer_presupuesto.
  apply (solo_escribe_comp
           (fun c => match primer_monto patrones_precio ml with
                     | Some monto => actualizar_contexto c "presupuesto_max" (numero_ctx monto)
                     | None => c
                     end)
           (fun c1 => match re_search patron_rango ml with
                      | Some m =>
                          actualizar_contexto
                            (actualizar_contexto c1 "presupuesto_min"
                               (numero_ctx (monto_de 1 m)))
                            "presupuesto_max" (numero_ctx (monto_de 2 m))
                      | None => c1
                      end)).
  - destruct (primer_monto patrones_precio ml).
    + apply solo_escribe_actualizar.
    + apply solo_escribe_id.
  - destruct (re_search patron_rango ml).
    + apply (solo_escribe_comp (fun c => actualizar_contexto c _ _)
               (fun c => actualizar_contexto c _ _));
        apply solo_escribe_actualizar.
    + apply solo_escribe_id.
Qed.

Lemma solo_escribe_pasos fs :
  Forall solo_escribe fs → solo_escribe (fun c => fold_left (fun c f => f c) fs c).
Proof.
  induction fs as [|f fs IH] using rev_ind; intros H.
  - apply solo_escribe_id.
  - apply Forall_app in H as [H1 H2]. apply Forall_cons in H2 as [H2 _].
    destruct (IH H1) as [W1 E1]. destruct H2 as [W2 E2].
    exists (W2 ∪ W1). intros c. rewrite fold_left_app. cbn [fold_left].
    rewrite E2, E1. unfold con_contexto. cbn [session_id canal user_id mensajes carrito contexto].
    rewrite (assoc_L (∪)). reflexivity.
Qed.

(** The steps of [extraer_preferencias], in order. *)
Lemma extraer_preferencias_pasos mensaje c :
  extraer_preferencias mensaje c
  = fold_left (fun c f => f c) (pasos_preferencias (lower mensaje)) c.
Proof. reflexivity. Qed.

Lemma solo_escribe_preferencias mensaje : solo_escribe (extraer_preferencias mensaje).
Proof.
  destruct (solo_escribe_pasos (pasos_preferencias (lower mensaje))) as [W H].
  - unfold pasos_preferencias.
    repeat (constructor;
            [first [apply solo_escribe_faceta | apply solo_escribe_intencion
                   | apply solo_escribe_presupuesto]|]).
    constructor.
  - exists W. intros c. rewrite extraer_preferencias_pasos. apply H.
Qed.

Lemma extraer_preferencias_escritos mensaje c :
  extraer_preferencias mensaje c = con_contexto c (escritos mensaje ∪ contexto c).
Proof.
  destruct (solo_escribe_preferencias mensaje) as [W H].
  unfold escritos. rewrite (H conversacion_en_blanco).
  cbn [con_contexto contexto conversacion_en_blanco].
  rewrite (right_id_L ∅ (∪)). apply H.
Qed.

(** X4.  [extraer_preferencias] is idempotent: extracting a second time from
    the same message changes nothing.  It leaves the identity, the history
    and the cart of the conversation alone, writes the entries
    [escritos mensaje], which depend on the message only, and never removes
    a key of the context. *)
Theorem extraer_preferencias_idempotente (mensaje : string) (c : Conversacion) :
  let c' := extraer_preferencias mensaje c in
  extraer_preferencias mensaje c' = c'
  ∧ session_id c' = session_id c ∧ canal c' = canal c ∧ user_id c' = user_id c
  ∧ mensajes c' = mensajes c ∧ carrito c' = carrito c
  ∧ contexto c' = escritos mensaje ∪ contexto c
  ∧ (∀ k, is_Some (contexto c !! k) → is_Some (contexto c' !! k)).
Proof.
  intros c'. subst c'. rewrite !extraer_preferencias_escritos.
  generalize (escritos mensaje). intros W.
  cbn [con_contexto session_id canal user_id mensajes carrito contexto].
  split; [|repeat split].
  - rewrite (assoc_L (∪)), (idemp_L (∪)). reflexivity.
  - intros k [v Hv]. destruct (W !! k) as [w|] eqn:E.
    + exists w. apply lookup_union_Some_l. exact E.
    + exists v. rewrite lookup_union_r by exact E. exact Hv.
Qed.

(** * The store hours *)

(** Comparisons of integers that the hypotheses decide. *)
Ltac comparar :=
  repeat match goal with
         | |- context [(?a <=? ?b)%Z] =>
             first [rewrite (proj2 (Z.leb_le a b)) by lia
                   |rewrite (proj2 (Z.leb_gt a b)) by lia]
         | |- context [(?a <? ?b)%Z] =>
             first [rewrite (proj2 (Z.ltb_lt a b)) by lia
                   |rewrite (proj2 (Z.ltb_ge a b)) by lia]
         end.

(** X5.  At every hour the line on the stores that [_generar_respuesta] puts
    in the prompt agrees with the opening hours of [TIENDAS_ROSATEL]: it
    says that the stores are closed when no store of the table is open,
    that Surco and Surco Centro alone are open when these two are, and that
    all are open when the three are; the table gives no other set of open
    stores. *)
Theorem estado_tiendas_coherente (hora_actual : string) (hora : Z) :
  match abiertas hora with
  | [] =>
      Horarios.estado_tiendas hora_actual hora
      = "HORA ACTUAL: " +:+ hora_actual +:+
        " - Las tiendas fisicas estan CERRADAS (abren 8AM-10PM). Solo tienda online disponible."
  | ["Rosatel Surco"; "Rosatel Surco Centro"] =>
      Horarios.estado_tiendas hora_actual hora
      = "HORA ACTUAL: " +:+ hora_actual +:+
        " - Solo Surco y Surco Centro estan abiertas. La Fontana abre a las 10AM."
  | ["Rosatel La Fontana"; "Rosatel Surco"; "Rosatel Surco Centro"] =>
      Horarios.estado_tiendas hora_actual hora
      = "HORA ACTUAL: " +:+ hora_actual +:+ " - Todas las tiendas estan ABIERTAS."
  | _ => False
  end.
Proof.
  unfold abiertas, Horarios.estado_tiendas, Horarios.TIENDAS_ROSATEL,
    Horarios._verificar_tienda_abierta.
  cbn [List.filter Horarios.hora_apertura Horarios.hora_cierre].
  assert (H : (hora < 8 ∨ 8 ≤ hora < 10 ∨ 10 ≤ hora < 22 ∨ 22 ≤ hora)%Z) by lia.
  destruct H as [H|[H|[H|H]]]; comparar; reflexivity.
Qed.

(** * Drive addresses *)

Lemma corrida_tras f s : corrida f s +:+ tras f s = s.
Proof.
  induction s as [|c s IH]; [reflexivity|]. simpl.
  destruct (f c); [|reflexivity]. rewrite sapp_cons, IH. reflexivity.
Qed.

Lemma corrida_all f s : all_chars f (corrida f s) = true.
Proof.
  induction s as [|c s IH]; [reflexivity|]. simpl.
  destruct (f c) eqn:E; [|reflexivity]. simpl. rewrite E. exact IH.
Qed.

Lemma tras_corta f s : corta f (tras f s).
Proof.
  induction s as [|c s IH]; [exact I|]. simpl.
  destruct (f c) eqn:E; [exact IH|]. exact E.
Qed.

Lemma corrida_app f run t :
  all_chars f run = true → corta f t → corrida f (run +:+ t) = run ∧ tras f (run +:+ t) = t.
Proof.
  intros Hall Hc. induction run as [|c run IH].
  - rewrite sapp_nil_l. destruct t as [|b t]; [split; reflexivity|].
    simpl in Hc. simpl. rewrite Hc. split; reflexivity.
  - simpl in Hall. apply andb_true_iff in Hall as [H1 H2].
    rewrite sapp_cons. simpl. rewrite H1.
    destruct (IH H2) as [-> ->]. split; reflexivity.
Qed.

(** A group around a run of a class, with nothing after it in the
    pattern: the group is the longest run, which must not be empty. *)
Lemma rmatch_grupo_corrida n f s g :
  rmatch (RGroup n (RPlus (RClass f))) s g (fun s1 g1 => Some (s1, g1))
  = if is_empty (corrida f s) then None
    else Some (tras f s, (n, corrida f s) :: g).
Proof.
  destruct (is_empty (corrida f s)) eqn:E.
  - destruct s as [|c s]; [reflexivity|]. simpl in E. simpl.
    destruct (f c); [discriminate|reflexivity].
  - pose proof (corrida_tras f s) as Hs.
    pose proof (corrida_all f s) as Hall. pose proof (tras_corta f s) as Hc.
    revert E Hs Hall Hc. generalize (corrida f s) (tras f s). intros run t E Hs Hall Hc.
    subst s. cbn [rmatch]. apply rmatch_plus_clase.
    + destruct run; [discriminate|congruence].
    + exact Hall.
    + exact Hc.
    + rewrite consumed_app. reflexivity.
Qed.

Lemma startswith_partes a b s :
  startswith (a +:+ b) s = startswith a s && startswith b (drop (len a) s).
Proof.
  revert s. induction a as [|c a IH]; intros s.
  - rewrite sapp_nil_l. destruct s; reflexivity.
  - rewrite sapp_cons. destruct s as [|d s]; [reflexivity|].
    cbn [startswith]. rewrite IH, andb_assoc. reflexivity.
Qed.

Lemma drop_drop a b s : drop (a + b) s = drop b (drop a s).
Proof.
  revert s. induction a as [|a IH]; intros s; [destruct s; reflexivity|].
  destruct s as [|c s]; [destruct b; reflexivity|]. simpl. apply IH.
Qed.

Lemma match_at_drive_path s :
  match_at P_DRIVE_PATH s
  = match s with
    | String c s1 =>
        if Ascii.eqb "/" c then
          match (if startswith "file/d/" s1
                 then rmatch (RGroup 1 (RPlus (RClass id_char))) (drop 7 s1) [] K0
                 else None) with
          | Some x => Some x
          | None =>
              if startswith "d/" s1
              then rmatch (RGroup 1 (RPlus (RClass id_char))) (drop 2 s1) [] K0
              else None
          end
        else None
    | EmptyString => None
    end.
Proof.
  unfold match_at, P_DRIVE_PATH. cbn [cat]. cbn [rmatch].
  destruct s as [|c s1]; [reflexivity|].
  destruct (Ascii.eqb "/" c); [|reflexivity].
  rewrite (rmatch_lit "file/"). rewrite !(rmatch_lit "d/").
  change (len "file/") with 5%nat. change (len "d/") with 2%nat.
  change "file/d/" with ("file/" +:+ "d/").
  rewrite startswith_partes. change (len "file/") with 5%nat.
  change 7%nat with (5 + 2)%nat. rewrite drop_drop.
  destruct (startswith "file/" s1); reflexivity.
Qed.

Lemma match_at_drive_query s :
  match_at P_DRIVE_QUERY s
  = match s with
    | String c s1 =>
        if Ascii.eqb c "?" || Ascii.eqb c "&" then
          if startswith "id=" s1
          then rmatch (RGroup 1 (RPlus (RClass id_char))) (drop 3 s1) [] K0
          else None
        else None
    | EmptyString => None
    end.
Proof.
  unfold match_at, P_DRIVE_QUERY. cbn [cat]. cbn [rmatch].
  destruct s as [|c s1]; [reflexivity|].
  destruct (Ascii.eqb c "?" || Ascii.eqb c "&"); [|reflexivity].
  rewrite (rmatch_lit "id="). reflexivity.
Qed.

Lemma match_at_id s :
  match_at P_ID s
  = if startswith "id=" s
    then rmatch (RGroup 1 (RPlus (RClass id_char))) (drop 3 s) [] K0
    else None.
Proof.
  unfold match_at, P_ID. cbn [cat]. cbn [rmatch].
  rewrite (rmatch_lit "id="). reflexivity.
Qed.

Lemma grupo_id_es_file_id t rest g :
  rmatch (RGroup 1 (RPlus (RClass id_char))) t [] K0 = Some (rest, g) →
  es_file_id (lookup_group 1 g).
Proof.
  unfold K0. rewrite rmatch_grupo_corrida.
  destruct (is_empty (corrida id_char t)) eqn:E; [discriminate|].
  intros [= <- <-]. cbn [lookup_group Nat.eqb]. split.
  - destruct (corrida id_char t); [discriminate|congruence].
  - apply corrida_all.
Qed.

Lemma captura_id_drive_path : captura_id P_DRIVE_PATH.
Proof.
  intros s rest g. rewrite match_at_drive_path.
  destruct s as [|c s1]; [discriminate|].
  destruct (Ascii.eqb "/" c); [|discriminate].
  destruct (startswith "file/d/" s1).
  - destruct (rmatch _ (drop 7 s1) [] K0) as [[r1 g1]|] eqn:E1.
    + intros [= <- <-]. exact (grupo_id_es_file_id _ _ _ E1).
    + destruct (startswith "d/" s1); [|discriminate]. apply grupo_id_es_file_id.
  - destruct (startswith "d/" s1); [|discriminate]. apply grupo_id_es_file_id.
Qed.

Lemma captura_id_drive_query : captura_id P_DRIVE_QUERY.
Proof.
  intros s rest g. rewrite match_at_drive_query.
  destruct s as [|c s1]; [discriminate|].
  destruct (Ascii.eqb c "?" || Ascii.eqb c "&"); [|discriminate].
  destruct (startswith "id=" s1); [|discriminate]. apply grupo_id_es_file_id.
Qed.

Lemma captura_id_id : captura_id P_ID.
Proof.
  intros s rest g. rewrite match_at_id.
  destruct (startswith "id=" s); [|discriminate]. apply grupo_id_es_file_id.
Qed.

(** A match found by the search is a match at some suffix. *)
Lemma search_from_match r s : ∀ pos m,
  search_from r pos s = Some m →
  ∃ s', match_at r s' = Some (m_rest m, m_groups m).
Proof.
  induction s as [|c s IH]; intros pos m; simpl.
  - destruct (match_at r "") as [[s1 g1]|] eqn:E; [|discriminate].
    intros [= <-]. eauto.
  - destruct (match_at r (String c s)) as [[s1 g1]|] eqn:E.
    + intros [= <-]. eauto.
    + apply IH.
Qed.

Lemma re_search_captura_id r s m :
  captura_id r → re_search r s = Some m → es_file_id (group 1 m).
Proof.
  intros Hr H. apply search_from_match in H as [s' H]. exact (Hr _ _ _ H).
Qed.

Lemma search_from_paso r pos c s :
  match_at r (String c s) = None →
  search_from r pos (String c s) = search_from r (S pos) s.
Proof. intros H. simpl. rewrite H. reflexivity. Qed.

Lemma search_from_ninguno r f s : ∀ pos,
  match_at r "" = None →
  (∀ c t, f c = true → match_at r (String c t) = None) →
  all_chars f s = true →
  search_from r pos s = None.
Proof.
  induction s as [|c s IH]; intros pos H0 Hf Hall; simpl.
  - rewrite H0. reflexivity.
  - simpl in Hall. apply andb_true_iff in Hall as [Hc Hall].
    rewrite (Hf c s Hc). apply IH; assumption.
Qed.

Lemma corrida_todo f s : all_chars f s = true → corrida f s = s ∧ tras f s = "".
Proof.
  intros H. destruct (corrida_app f s "" H I) as [H1 H2].
  rewrite sapp_nil_r in H1, H2. split; assumption.
Qed.

Lemma id_char_no_barra c : id_char c = true → Ascii.eqb "/" c = false.
Proof.
  intros H. destruct (Ascii.eqb "/" c) eqn:E; [|reflexivity].
  apply Ascii.eqb_eq in E. subst c. discriminate H.
Qed.

Lemma id_char_no_query c :
  id_char c = true → Ascii.eqb c "?" || Ascii.eqb c "&" = false.
Proof.
  intros H. destruct (Ascii.eqb c "?") eqn:E1.
  - apply Ascii.eqb_eq in E1. subst c. discriminate H.
  - destruct (Ascii.eqb c "&") eqn:E2; [|reflexivity].
    apply Ascii.eqb_eq in E2. subst c. discriminate H.
Qed.

Ltac literal_a_cadena := repeat rewrite sapp_cons; rewrite ?sapp_nil_l.

(** The thumbnail URL of a file id holds that id, for the path pattern. *)
Lemma re_search_path_lh3 id :
  es_file_id id →
  ∃ m, re_search P_DRIVE_PATH (lh3 id) = Some m ∧ group 1 m = id.
Proof.
  intros [Hne Hall]. unfold re_search, lh3. literal_a_cadena.
  repeat (rewrite search_from_paso by (rewrite match_at_drive_path; reflexivity)).
  eexists. split.
  - apply search_from_hit. rewrite match_at_drive_path.
    cbn [Ascii.eqb Bool.eqb startswith andb drop].
    rewrite rmatch_grupo_corrida.
    destruct (corrida_app id_char id "=w300" Hall eq_refl) as [-> ->].
    destruct id; [congruence|]. reflexivity.
  - reflexivity.
Qed.

Lemma re_search_path_uc id :
  all_chars id_char id = true → re_search P_DRIVE_PATH (uc id) = None.
Proof.
  intros Hall. unfold re_search, uc. literal_a_cadena.
  repeat (rewrite search_from_paso by (rewrite match_at_drive_path; reflexivity)).
  apply (search_from_ninguno _ id_char); [reflexivity| |exact Hall].
  intros c t Hc. rewrite match_at_drive_path, (id_char_no_barra c Hc). reflexivity.
Qed.

Lemma re_search_query_uc id :
  es_file_id id →
  ∃ m, re_search P_DRIVE_QUERY (uc id) = Some m ∧ group 1 m = id.
Proof.
  intros [Hne Hall]. unfold re_search, uc. literal_a_cadena.
  repeat (rewrite search_from_paso by (rewrite match_at_drive_query; reflexivity)).
  eexists. split.
  - apply search_from_hit. rewrite match_at_drive_query.
    cbn [Ascii.eqb Bool.eqb startswith andb orb drop].
    rewrite rmatch_grupo_corrida.
    destruct (corrida_todo id_char id Hall) as [-> ->].
    destruct id; [congruence|]. reflexivity.
  - reflexivity.
Qed.

Lemma re_search_id_uc id :
  es_file_id id →
  ∃ m, re_search P_ID (uc id) = Some m ∧ group 1 m = id.
Proof.
  intros [Hne Hall]. unfold re_search, uc. literal_a_cadena.
  repeat (rewrite search_from_paso by (rewrite match_at_id; reflexivity)).
  eexists. split.
  - apply search_from_hit. rewrite match_at_id.
    cbn [Ascii.eqb Bool.eqb startswith andb orb drop].
    rewrite rmatch_grupo_corrida.
    destruct (corrida_todo id_char id Hall) as [-> ->].
    destruct id; [congruence|]. reflexivity.
  - reflexivity.
Qed.

Lemma convertir_lh3 id : es_file_id id → _convertir_drive_url (lh3 id) = lh3 id.
Proof.
  intros H. destruct (re_search_path_lh3 id H) as (m & Hm & Hg).
  unfold _convertir_drive_url. rewrite Hm, Hg. reflexivity.
Qed.

Lemma convertir_uc id : es_file_id id → _convertir_drive_url (uc id) = lh3 id.
Proof.
  intros H. destruct (re_search_query_uc id H) as (m & Hm & Hg).
  unfold _convertir_drive_url. rewrite (re_search_path_uc id (proj2 H)), Hm, Hg.
  reflexivity.
Qed.

(** X8.  [_convertir_drive_url] is idempotent: a converted address converts
    to itself; and only the empty address converts to the empty string. *)
Theorem convertir_drive_url_idempotente (url : string) :
  _convertir_drive_url (_convertir_drive_url url) = _convertir_drive_url url
  ∧ (_convertir_drive_url url = "" ↔ url = "").
Proof.
  split.
  - unfold _convertir_drive_url at 2 3.
    destruct (is_empty url) eqn:E0; [reflexivity|].
    destruct (re_search P_DRIVE_PATH url) as [m|] eqn:E1.
    { apply convertir_lh3. exact (re_search_captura_id _ _ _ captura_id_drive_path E1). }
    destruct (re_search P_DRIVE_QUERY url) as [m|] eqn:E2.
    { apply convertir_lh3. exact (re_search_captura_id _ _ _ captura_id_drive_query E2). }
    unfold _convertir_drive_url. rewrite E0, E1, E2. reflexivity.
  - unfold _convertir_drive_url. destruct url as [|c url]; [split; reflexivity|].
    cbn [is_empty]. split; [|discriminate].
    destruct (re_search P_DRIVE_PATH _); [discriminate|].
    destruct (re_search P_DRIVE_QUERY _); [discriminate|]. auto.
Qed.

(** X9.  The converters agree on the file id.  When [extract_drive_file_id]
    finds an id in an address, the id is a non-empty run of letters,
    digits, [_] and [-]; [_convertir_drive_url] turns what
    [convert_drive_url] returns into the [lh3] address of that id; and
    unless the address is a direct one already, [convert_drive_url]
    returns the [uc] address of that id and [get_image_thumbnail] the
    thumbnail address of that id. *)
Theorem file_id_a_traves_de_las_conversiones (url id : string) :
  extract_drive_file_id url = Some id →
  es_file_id id
  ∧ (∃ u, convert_drive_url url = Some u ∧ _convertir_drive_url u = lh3 id)
  ∧ (str_in "uc?export=view" url = false →
     convert_drive_url url = Some (uc id)
     ∧ ∀ size, get_image_thumbnail url size = Some (thumbnail id size)).
Proof.
  unfold extract_drive_file_id. destruct (is_empty url) eqn:E0; [discriminate|].
  intros H.
  assert (Hid : es_file_id id).
  { destruct (re_search P_DRIVE_PATH url) as [m|] eqn:E1.
    - injection H as <-. exact (re_search_captura_id _ _ _ captura_id_drive_path E1).
    - destruct (re_search P_DRIVE_QUERY url) as [m|] eqn:E2; [|discriminate].
      injection H as <-. exact (re_search_captura_id _ _ _ captura_id_drive_query E2). }
  assert (Hconv : _convertir_drive_url url = lh3 id).
  { unfold _convertir_drive_url. rewrite E0.
    destruct (re_search P_DRIVE_PATH url) as [m|]; [congruence|].
    destruct (re_search P_DRIVE_QUERY url) as [m|]; [congruence|discriminate]. }
  assert (Huc : str_in "uc?export=view" url = false → convert_drive_url url = Some (uc id)).
  { intros E. unfold convert_drive_url. rewrite E0, E.
    destruct (re_search P_DRIVE_PATH url) as [m|]; [congruence|].
    destruct (re_search P_DRIVE_QUERY url) as [m|]; [congruence|discriminate]. }
  split; [exact Hid|]. split.
  - destruct (str_in "uc?export=view" url) eqn:E.
    + exists url. split; [|exact Hconv].
      unfold convert_drive_url. rewrite E0, E. reflexivity.
    + exists (uc id). split; [exact (Huc eq_refl)|apply convertir_uc, Hid].
  - intros E. split; [exact (Huc E)|]. intros size.
    unfold get_image_thumbnail. rewrite E0, (Huc E).
    destruct (re_search_id_uc id Hid) as (m & Hm & Hg). rewrite Hm, Hg. reflexivity.
Qed.

Lemma file_id_witness :
  es_file_id "abc_1"
  ∧ convert_drive_url "https://drive.google.com/file/d/abc_1/view"
    = Some (uc "abc_1")
  ∧ get_image_thumbnail "https://drive.google.com/file/d/abc_1/view" "w400"
    = Some (thumbnail "abc_1" "w400").
Proof.
  destruct (file_id_a_traves_de_las_conversiones
              "https://drive.google.com/file/d/abc_1/view" "abc_1" eq_refl)
    as (Hid & _ & H).
  destruct (H eq_refl) as [Hc Ht].
  exact (conj Hid (conj Hc (Ht "w400"))).
Defined.

(** * The direct search and the cards of the detector *)

Section Solicitud.

Variable repr_float : Q → string.
Variable float_of_str : string → option Q.
Variable repr_dict : tarjeta → string.
Variable mcp : MCPToolboxService.

Lemma tarjeta_solicitud_id d t :
  tarjeta_solicitud repr_float float_of_str d = Ok t →
  t !! "id" = Some (get d "ID" (PStr "")).
Proof.
  unfold tarjeta_solicitud.
  destruct (as_str _); cbn [bind]; [|discriminate].
  destruct (precio_fila _ _); cbn [bind]; [|discriminate].
  destruct (convertir_drive_url_de _); cbn [bind]; [|discriminate].
  intros [= <-]. reflexivity.
Qed.

Lemma tarjetas_solicitud_de_filas ultimo l : ∀ ts,
  tarjetas_solicitud repr_float float_of_str ultimo l = Ok ts →
  (length ts ≤ length l)%nat ∧ Forall (de_fila_distinta repr_float ultimo l) ts.
Proof.
  induction l as [|x l IH]; intros ts; cbn [tarjetas_solicitud].
  - intros [= <-]. split; [reflexivity|constructor].
  - assert (Hmas : ∀ ts', (length ts' ≤ length l)%nat ∧
                          Forall (de_fila_distinta repr_float ultimo l) ts' →
                          (length ts' ≤ length (x :: l))%nat ∧
                          Forall (de_fila_distinta repr_float ultimo (x :: l)) ts').
    { intros ts' [H1 H2]. split; [simpl; lia|].
      eapply Forall_impl; [exact H2|]. intros t (d & Hd & Hid & Hne).
      exists d. split; [apply list_elem_of_further; exact Hd|auto]. }
    destruct x as [d|v]; [|intros H; apply Hmas, IH, H].
    destruct (eqs (str repr_float (get d "ID" (PStr ""))) ultimo) eqn:E;
      [intros H; apply Hmas, IH, H|].
    destruct (tarjeta_solicitud repr_float float_of_str d) as [t|] eqn:Et;
      cbn [bind]; [|discriminate].
    destruct (tarjetas_solicitud repr_float float_of_str ultimo l) as [ts'|];
      cbn [bind]; [|discriminate].
    intros [= <-]. destruct (IH ts' eq_refl) as [H0 _].
    destruct (Hmas ts' (IH ts' eq_refl)) as [_ H2].
    split; [simpl; lia|]. constructor; [|exact H2].
    exists d. split; [apply list_elem_of_here|].
    split; [exact (tarjeta_solicitud_id d t Et)|].
    intros H. rewrite H, eqs_refl in E. discriminate.
Qed.

(** X10.  [_buscar_por_solicitud] shows five cards at most, each made from
    one of the first five rows the catalogue answers with, and never a row
    whose id prints as the [ultimo_upsell_id] of the context: the product
    last offered as upsell, or, when the context has no such entry, a row
    without id. *)
Theorem buscar_por_solicitud_cinco_sin_ultimo_upsell (tipo : string) (c : Conversacion) :
  let l := _buscar_por_solicitud repr_float float_of_str repr_dict mcp tipo c in
  (length l ≤ 5)%nat
  ∧ Forall (de_fila_distinta repr_float (ultimo_upsell repr_float repr_dict c)
              (firstn 5 (buscar_productos mcp tipo))) l.
Proof.
  unfold _buscar_por_solicitud, ultimo_upsell.
  destruct (buscar_productos mcp tipo) as [|x xs] eqn:E.
  - split; [simpl; lia|constructor].
  - rewrite <- E. clear E.
    destruct (tarjetas_solicitud _ _ _ _) as [ts|e] eqn:Et; cbn [try_except].
    + destruct (tarjetas_solicitud_de_filas _ _ _ Et) as [H1 H2].
      split; [|exact H2]. rewrite length_take in H1. lia.
    + split; [simpl; lia|constructor].
Qed.

End Solicitud.

Section Detector.

Variable repr_float : Q → string.
Variable float_of_str : string → option Q.
Variable mcp : MCPToolboxService.

Lemma tarjeta_upsell_muestra d t :
  tarjeta_upsell repr_float float_of_str d = Ok t → muestra t d.
Proof.
  unfold tarjeta_upsell.
  destruct (precio_fila _ _); cbn [bind]; [|discriminate].
  destruct (convertir_drive_url_de _); cbn [bind]; [|discriminate].
  intros [= <-]. split; reflexivity.
Qed.

Lemma tarjetas_hasta_error_de_filas saltar l :
  (length (tarjetas_hasta_error repr_float float_of_str saltar l) ≤ length l)%nat
  ∧ Forall (fun t => ∃ d, RDict d ∈ l ∧ saltar d = false ∧ muestra t d)
      (tarjetas_hasta_error repr_float float_of_str saltar l).
Proof.
  induction l as [|x l [IH1 IH2]]; cbn [tarjetas_hasta_error].
  - split; [reflexivity|constructor].
  - assert (Hmas : Forall (fun t => ∃ d, RDict d ∈ x :: l ∧ saltar d = false ∧ muestra t d)
                     (tarjetas_hasta_error repr_float float_of_str saltar l)).
    { eapply Forall_impl; [exact IH2|]. intros t (d & Hd & Hs & Hm).
      exists d. split; [apply list_elem_of_further; exact Hd|auto]. }
    destruct x as [d|v]; [|split; [simpl; lia|constructor]].
    destruct (saltar d) eqn:Es; [split; [simpl; lia|exact Hmas]|].
    destruct (tarjeta_upsell repr_float float_of_str d) as [t|] eqn:Et;
      [|split; [simpl; lia|constructor]].
    split; [simpl; lia|]. constructor; [|exact Hmas].
    exists d. split; [apply list_elem_of_here|].
    split; [exact Es|exact (tarjeta_upsell_muestra d t Et)].
Qed.

Lemma chocolates_filtrados_fuera ids nombres l : ∀ f,
  chocolates_filtrados repr_float ids nombres l = Ok f →
  Forall (fun x => ∃ d, x = RDict d ∧ RDict d ∈ l
            ∧ existsb (eqs (str repr_float (get d "ID" (PStr "")))) ids = false
            ∧ ∀ nombre, get d "Producto" (PStr "") = PStr nombre →
                existsb (fun n => negb (is_empty n) && str_in n (lower nombre)) nombres
                = false) f.
Proof.
  induction l as [|x l IH]; intros f; cbn [chocolates_filtrados].
  - intros [= <-]. constructor.
  - destruct x as [d|v]; [|discriminate].
    destruct (as_str (get d "Producto" (PStr ""))) as [pn|] eqn:En;
      cbn [bind]; [|discriminate].
    destruct (chocolates_filtrados repr_float ids nombres l) as [rest|];
      cbn [bind]; [|discriminate].
    assert (Hmas : Forall (fun x => ∃ d0, x = RDict d0 ∧ RDict d0 ∈ RDict d :: l
            ∧ existsb (eqs (str repr_float (get d0 "ID" (PStr "")))) ids = false
            ∧ ∀ nombre, get d0 "Producto" (PStr "") = PStr nombre →
                existsb (fun n => negb (is_empty n) && str_in n (lower nombre)) nombres
                = false) rest).
    { eapply Forall_impl; [exact (IH rest eq_refl)|].
      intros y (d0 & -> & Hd & H). exists d0.
      split; [reflexivity|]. split; [apply list_elem_of_further; exact Hd|exact H]. }
    destruct (negb (existsb _ ids) && negb (existsb _ nombres)) eqn:E;
      intros [= <-]; [|exact Hmas].
    constructor; [|exact Hmas].
    apply andb_true_iff in E. destruct E as [E1 E2].
    apply negb_true_iff in E1, E2.
    exists d. split; [reflexivity|]. split; [apply list_elem_of_here|].
    split; [exact E1|]. intros nombre Hn. rewrite Hn in En.
    cbn in En. injection En as <-. exact E2.
Qed.

Lemma primeros_tres {A} (l : list A) : (length (firstn 3 l) ≤ 3)%nat.
Proof. rewrite length_take. lia. Qed.

Lemma elem_of_primeros {A} (x : A) n l : x ∈ firstn n l → x ∈ l.
Proof.
  intros H. rewrite <- (firstn_skipn n l). apply elem_of_app. left. exact H.
Qed.

Lemma detector_ramas m c r :
  _detectar_upselling_response repr_float float_of_str mcp m c = Some r →
  let oferta := oferta_encontrada (mensajes c) in
  let ids := map producto_id (items_carrito c) in
  let nombres := map (fun it => lower (producto_nombre it)) (items_carrito c) in
  ∃ texto productos,
    r = mkRespuesta (inl texto) (Some texto) [texto] productos [] (carrito c)
    ∧ productos ≠ []
    ∧ str_in "carrito" (strip (lower m)) || str_in "agregar" (strip (lower m)) = false
    ∧ is_empty oferta = false
    ∧ ((str_in "globo" oferta = true
        ∧ productos = tarjetas_hasta_error repr_float float_of_str
                        (fun g => en_ids (get g "ID" PNone) ids)
                        (firstn 3 (buscar_productos mcp "globos")))
       ∨ (str_in "globo" oferta = false ∧ str_in "chocolate" oferta = true
          ∧ ∃ filtrados,
              chocolates_filtrados repr_float ids nombres
                (buscar_productos mcp "chocolates") = Ok filtrados
              ∧ productos = tarjetas_hasta_error repr_float float_of_str
                              (fun _ => false) (firstn 3 filtrados))
       ∨ (str_in "globo" oferta = false ∧ str_in "chocolate" oferta = false
          ∧ productos = tarjetas_hasta_error repr_float float_of_str
                          (fun _ => false) (firstn 3 (buscar_productos mcp "peluche")))).
Proof.
  unfold _detectar_upselling_response, items_carrito.
  destruct (str_in "carrito" _ || str_in "agregar" _) eqn:Ec; [discriminate|].
  destruct (negb (existsb _ afirmaciones)); [discriminate|].
  destruct (is_empty (oferta_encontrada (mensajes c))) eqn:Eo; [discriminate|].
  cbv zeta.
  destruct (str_in "globo" _) eqn:Eg.
  { destruct (buscar_productos mcp "globos") as [|x xs] eqn:E; [discriminate|].
    rewrite <- E.
    destruct (tarjetas_hasta_error _ _ _ _) as [|t ts] eqn:Et; [discriminate|].
    intros [= <-]. do 2 eexists. repeat split; [discriminate|]. left. auto. }
  destruct (str_in "chocolate" _) eqn:Eh.
  { destruct (buscar_productos mcp "chocolates") as [|x xs] eqn:E; [discriminate|].
    rewrite <- E.
    destruct (chocolates_filtrados _ _ _ _) as [[|f fs]|] eqn:Ef; [discriminate| |discriminate].
    destruct (tarjetas_hasta_error _ _ _ _) as [|t ts] eqn:Et; [discriminate|].
    intros [= <-]. do 2 eexists. repeat split; [discriminate|].
    right. left. repeat split. exists (f :: fs). rewrite Et. auto. }
  destruct (str_in "peluche" _) eqn:Ep; [|discriminate].
  destruct (buscar_productos mcp "peluche") as [|x xs] eqn:E; [discriminate|].
  rewrite <- E.
  destruct (tarjetas_hasta_error _ _ _ _) as [|t ts] eqn:Et; [discriminate|].
  intros [= <-]. do 2 eexists. repeat split; [discriminate|]. right. right. auto.
Qed.

Lemma detector_sin_acciones m c r :
  _detectar_upselling_response repr_float float_of_str mcp m c = Some r →
  r_acciones r = [] ∧ r_carrito r = carrito c.
Proof.
  intros H. destruct (detector_ramas _ _ _ H) as (texto & ps & -> & _).
  split; reflexivity.
Qed.

Lemma existsb_eqs_false x ids : existsb (eqs x) ids = false → x ∉ ids.
Proof.
  intros H Hin. apply not_true_iff_false in H. apply H.
  apply existsb_exists. exists x. split; [|apply eqs_refl].
  apply list_elem_of_In. exact Hin.
Qed.

Lemma lower_from_no_vacio s : ∀ b, s ≠ "" → is_empty (lower_from b s) = false.
Proof.
  destruct s as [|a s]; intros b H; [congruence|].
  cbn [lower_from]. repeat match goal with |- context [if ?x then _ else _] => destruct x end;
    reflexivity.
Qed.

(** X11.  When the upsell-acceptance detector answers, the answer has one
    bubble, which is its text, between one and three cards, no action, and
    the cart of the conversation; the message mentions neither the cart
    nor adding, and an offer of the assistant was found in the history. *)
Theorem detector_respuesta_forma (m : string) (c : Conversacion) (r : Respuesta) :
  _detectar_upselling_response repr_float float_of_str mcp m c = Some r →
  (∃ texto, r_texto r = inl texto ∧ r_texto_limpio r = Some texto
            ∧ r_burbujas r = [texto])
  ∧ r_acciones r = []
  ∧ r_carrito r = carrito c
  ∧ (1 ≤ length (r_productos r) ≤ 3)%nat
  ∧ any_in ["carrito"; "agregar"] (strip (lower m)) = false
  ∧ oferta_encontrada (mensajes c) ≠ "".
Proof.
  intros H. destruct (detector_ramas m c r H) as (texto & ps & -> & Hne & Hm & Ho & Hr).
  cbn [r_texto r_texto_limpio r_burbujas r_acciones r_carrito r_productos].
  split; [exists texto; auto|]. split; [reflexivity|]. split; [reflexivity|].
  split; [|split].
  - split; [destruct ps; [congruence|simpl; lia]|].
    destruct Hr as [[_ ->]|[(_ & _ & f & _ & ->)|(_ & _ & ->)]];
      (etransitivity; [apply tarjetas_hasta_error_de_filas|apply primeros_tres]).
  - unfold any_in. cbn [existsb]. rewrite orb_false_r. exact Hm.
  - intros E. rewrite E in Ho. discriminate.
Qed.

(** X12.  How two of the three branches of the detector filter against
    the cart.  After an offer of balloons the id of a row is compared as
    it comes with the product ids of the cart, which are strings: every
    card shows a row of the catalogue whose id, when it is a string, is no
    product id of the cart, and a first row whose id is no string is shown
    whatever the cart holds.  After an offer of chocolates, where the id
    is compared through [str], every card shows a row that is in the cart
    neither by id nor by name. *)
Theorem detector_filtro_del_carrito (m : string) (c : Conversacion) (r : Respuesta) :
  _detectar_upselling_response repr_float float_of_str mcp m c = Some r →
  let oferta := oferta_encontrada (mensajes c) in
  (str_in "globo" oferta = true →
   Forall (fun t => ∃ d, RDict d ∈ buscar_productos mcp "globos" ∧ muestra t d
             ∧ ∀ i, get d "ID" PNone = PStr i → i ∉ map producto_id (items_carrito c))
     (r_productos r)
   ∧ ∀ d resto, buscar_productos mcp "globos" = RDict d :: resto →
       (∀ i, get d "ID" PNone ≠ PStr i) →
       ∃ t ts, r_productos r = t :: ts ∧ muestra t d)
  ∧ (str_in "globo" oferta = false → str_in "chocolate" oferta = true →
     Forall (fun t => ∃ d, RDict d ∈ buscar_productos mcp "chocolates" ∧ muestra t d
               ∧ ¬ en_carrito_por_id_o_nombre repr_float (items_carrito c) d)
       (r_productos r)).
Proof.
  intros H. destruct (detector_ramas m c r H) as (texto & ps & -> & Hne & Hm & Ho & Hr).
  cbn [r_productos]. cbv zeta. split.
  - intros Eg. destruct Hr as [[_ ->]|[(Eg' & _)|(Eg' & _)]]; [|congruence..]. split.
    + eapply Forall_impl; [apply tarjetas_hasta_error_de_filas|].
      intros t (d & Hd & Hs & Ht). exists d. split; [eapply elem_of_primeros; exact Hd|].
      split; [exact Ht|]. intros i Hi. rewrite Hi in Hs. cbn [en_ids] in Hs.
      apply existsb_eqs_false. exact Hs.
    + intros d resto Ed Hid. rewrite Ed in Hne |- *.
      cbn [firstn tarjetas_hasta_error] in Hne |- *.
      assert (Es : en_ids (get d "ID" PNone) (map producto_id (items_carrito c)) = false).
      { destruct (get d "ID" PNone) as [| | | |i] eqn:Ei; try reflexivity.
        exfalso. exact (Hid i eq_refl). }
      rewrite Es in Hne |- *.
      destruct (tarjeta_upsell repr_float float_of_str d) as [t|] eqn:Et;
        [|congruence].
      exists t. eexists. split; [reflexivity|].
      exact (tarjeta_upsell_muestra d t Et).
  - intros Eg Eh. destruct Hr as [[Eg' _]|[(_ & _ & f & Hf & ->)|(_ & Eh' & _)]];
      [congruence| |congruence].
    pose proof (chocolates_filtrados_fuera _ _ _ _ Hf) as Hfuera.
    eapply Forall_impl; [apply tarjetas_hasta_error_de_filas|].
    intros t (d & Hd & _ & Ht). apply elem_of_primeros in Hd.
    rewrite Forall_forall in Hfuera.
    destruct (Hfuera _ Hd) as (d' & [= <-] & Hin & Hid & Hnom).
    exists d. split; [exact Hin|]. split; [exact Ht|].
    intros [Hen|(it & nombre & Hit & Hn & Hp & Hs)].
    + exact (existsb_eqs_false _ _ Hid Hen).
    + specialize (Hnom nombre Hp). apply not_true_iff_false in Hnom. apply Hnom.
      apply existsb_exists. exists (lower (producto_nombre it)). split.
      * apply in_map_iff. exists it. split; [reflexivity|].
        apply list_elem_of_In. exact Hit.
      * unfold lower. rewrite lower_from_no_vacio by exact Hn. exact Hs.
Qed.

End Detector.

Lemma detector_respuesta_forma_witness :
  ∃ r, _detectar_upselling_response repr_decimal decimal_of_str mcp_peluches "si"
         conversacion_con_peluche = Some r
       ∧ r_acciones r = [] ∧ (1 ≤ length (r_productos r) ≤ 3)%nat.
Proof.
  destruct (_detectar_upselling_response repr_decimal decimal_of_str mcp_peluches "si"
              conversacion_con_peluche) as [r|] eqn:E; [|vm_compute in E; discriminate].
  exists r. split; [reflexivity|].
  destruct (detector_respuesta_forma repr_decimal decimal_of_str mcp_peluches "si"
              conversacion_con_peluche r E) as (_ & Ha & _ & Hl & _).
  split; [exact Ha|exact Hl].
Defined.

Lemma detector_filtro_del_carrito_witness :
  ∃ r, _detectar_upselling_response repr_decimal decimal_of_str mcp_globos "dale"
         conversacion_con_dos_globos = Some r
       ∧ map (fun t : tarjeta => t !! "id") (r_productos r)
         = [Some (PInt 9); Some (PStr "12")]
       ∧ Forall (fun t => ∃ d, RDict d ∈ buscar_productos mcp_globos "globos" ∧ muestra t d
                   ∧ ∀ i, get d "ID" PNone = PStr i →
                       i ∉ map producto_id (items_carrito conversacion_con_dos_globos))
           (r_productos r).
Proof.
  destruct (_detectar_upselling_response repr_decimal decimal_of_str mcp_globos "dale"
              conversacion_con_dos_globos) as [r|] eqn:E; [|vm_compute in E; discriminate].
  exists r. split; [reflexivity|].
  destruct (detector_filtro_del_carrito repr_decimal decimal_of_str mcp_globos "dale"
              conversacion_con_dos_globos r E) as [Hg _].
  destruct (Hg ltac:(vm_compute; reflexivity)) as [Hf _].
  split; [|exact Hf].
  vm_compute in E. injection E as <-. vm_compute. reflexivity.
Defined.

(** * The thread of the conversation through the parser and the turn *)

Lemma mismo_hilo_refl c : mismo_hilo c c.
Proof. repeat split. Qed.

Lemma mismo_hilo_trans c1 c2 c3 : mismo_hilo c1 c2 → mismo_hilo c2 c3 → mismo_hilo c1 c3.
Proof.
  intros (A1 & A2 & A3 & A4) (B1 & B2 & B3 & B4). unfold mismo_hilo.
  rewrite B1, B2, B3, B4. auto.
Qed.

Section Hilo.

Variable repr_float : Q → string.
Variable float_of_str : string → option Q.
Variable repr_dict : tarjeta → string.
Variable mcp : MCPToolboxService.
Variable bq : BigQueryService.
Variable ejecutar_busqueda : string → list Producto.
Variable modelo : option (Conversacion → string → string → res string).
Variable respuesta_demo : string → Conversacion → res (string * Conversacion).

Local Abbreviation turno :=
  (procesar_mensaje repr_float float_of_str repr_dict mcp bq ejecutar_busqueda
     modelo respuesta_demo).
Local Abbreviation parser := (_procesar_acciones repr_float float_of_str bq ejecutar_busqueda).

Lemma aplicar_agregar_hilo contenido c :
  mismo_hilo c (snd (aplicar_agregar float_of_str bq contenido c)).
Proof.
  unfold aplicar_agregar. destruct (resolver_producto _ _ _); [|apply mismo_hilo_refl].
  cbn [snd]. destruct (no_vacio _); repeat split.
Qed.

Lemma aplicar_agregar_unidades contenido c :
  unidades (snd (aplicar_agregar float_of_str bq contenido c))
  = (unidades c + Z.of_nat (length (fst (aplicar_agregar float_of_str bq contenido c))))%Z.
Proof.
  unfold aplicar_agregar. destruct (resolver_producto _ _ _) as [p|]; cbn [fst snd length].
  - assert (E : ∀ k, unidades (con_carrito c (Some (agregar_item k p 1)))
                    = (total_items k + 1)%Z).
    { intros k. unfold unidades. cbn [carrito con_carrito].
      apply agregar_item_suma_unidades. }
    destruct (no_vacio _); unfold unidades in *; cbn [carrito con_contexto con_carrito] in *;
      destruct (carrito c) as [k|]; rewrite agregar_item_suma_unidades; reflexivity.
  - lia.
Qed.

Lemma aplicar_agregar_contexto contenido c k :
  k ≠ "ultimo_upsell_id" →
  contexto (snd (aplicar_agregar float_of_str bq contenido c)) !! k = contexto c !! k.
Proof.
  intros Hk. unfold aplicar_agregar. destruct (resolver_producto _ _ _); [|reflexivity].
  cbn [snd]. destruct (no_vacio _); cbn [contexto con_contexto con_carrito]; [|reflexivity].
  apply lookup_delete_ne. congruence.
Qed.

Lemma parser_hilo raw c g st : parser raw c g = Ok st → mismo_hilo c (conv st).
Proof.
  intros H. destruct (parser_una_vez _ _ _ _ _ _ _ _ H) as (Ha & _ & _).
  destruct (re_search P_AGREGAR_CARRITO raw) as [m|]; destruct Ha as [_ ->].
  - apply aplicar_agregar_hilo.
  - apply mismo_hilo_refl.
Qed.

(** X6.  Whatever the response, when the parser returns it has left the
    identity and the history of the conversation alone, has changed no
    entry of the context but [ultimo_upsell_id], and the units in the cart
    have grown by the number of add-to-cart actions it records, which is
    one at most. *)
Theorem parser_conserva_hilo_y_carrito (raw : string) (c : Conversacion) (g : rng)
    (st : Estado) :
  parser raw c g = Ok st →
  mismo_hilo c (conv st)
  ∧ (∀ k, k ≠ "ultimo_upsell_id" → contexto (conv st) !! k = contexto c !! k)
  ∧ unidades (conv st)
    = (unidades c + Z.of_nat (length (List.filter es_agregar (acciones st))))%Z
  ∧ (length (List.filter es_agregar (acciones st)) ≤ 1)%nat.
Proof.
  intros H. destruct (parser_una_vez _ _ _ _ _ _ _ _ H) as (Ha & _ & _).
  destruct (re_search P_AGREGAR_CARRITO raw) as [m|]; destruct Ha as [-> ->].
  - split; [apply aplicar_agregar_hilo|].
    split; [intros k Hk; apply aplicar_agregar_contexto, Hk|].
    split; [apply aplicar_agregar_unidades|apply aplicar_agregar_a_lo_mas_una].
  - split; [apply mismo_hilo_refl|]. split; [reflexivity|]. split; simpl; lia.
Qed.

Hypothesis demo_conserva_hilo :
  ∀ m c r c', respuesta_demo m c = Ok (r, c') → mismo_hilo c c'.

Lemma anotar_hilo up c : mismo_hilo c (anotar up c).
Proof. destruct up as [[u i]|]; repeat split. Qed.

Lemma generar_hilo c mensaje raw c1 :
  _generar_respuesta repr_float float_of_str mcp modelo respuesta_demo c mensaje
  = Ok (raw, c1) →
  mismo_hilo c c1.
Proof.
  unfold _generar_respuesta. destruct modelo as [generate_content|].
  - rewrite proactivo_plan.
    destruct (plan_proactivo repr_float float_of_str mcp mensaje (contexto c))
      as [[texto up]|e]; cbn [bind].
    + destruct (generate_content _ _ _) as [text|e].
      * destruct (is_empty text); intros [= <- <-]; apply anotar_hilo.
      * intros H. apply demo_conserva_hilo in H.
        exact (mismo_hilo_trans _ _ _ (anotar_hilo up c) H).
    + apply demo_conserva_hilo.
  - apply demo_conserva_hilo.
Qed.

Lemma agregar_upsell_hilo productos c l c' :
  agregar_upsell repr_float productos c = Ok (l, c') → mismo_hilo c c'.
Proof.
  unfold agregar_upsell. destruct productos as [|p ps]; [intros [= <- <-]; repeat split|].
  destruct (contexto c !! "upsell_producto") as [v|]; [|intros [= <- <-]; repeat split].
  destruct (ctx_truthy v); [|intros [= <- <-]; repeat split].
  destruct v; [discriminate|]. intros [= <- <-]. repeat split.
Qed.

(** A turn that returns appends two messages to the history and keeps
    the identity of the conversation. *)
Lemma turno_hilo_y_mensajes (c : Conversacion) (mensaje : string) (g : rng)
    (r : Respuesta) (cF : Conversacion) (gF : rng) :
  turno c mensaje g = Ok (r, cF, gF) →
  session_id cF = session_id c ∧ canal cF = canal c ∧ user_id cF = user_id c
  ∧ mensajes cF
    = mensajes c ++
      [mkMensajeChat "user" mensaje;
       mkMensajeChat "assistant"
         (match r_texto_limpio r with
          | Some texto => texto
          | None => join " " (r_burbujas r)
          end)].
Proof.
  unfold procesar_mensaje.
  assert (Hp : mismo_hilo c (extraer_preferencias mensaje c))
    by (rewrite extraer_preferencias_escritos; repeat split).
  destruct Hp as (P1 & P2 & P3 & P4).
  set (c0 := extraer_preferencias mensaje c) in *.
  destruct (_detectar_upselling_response repr_float float_of_str mcp mensaje c0)
    as [ru|] eqn:Ed.
  - intros [= <- <- <-]. cbn [agregar_mensaje con_mensajes session_id canal user_id mensajes].
    rewrite P1, P2, P3, P4, <- app_assoc.
    assert (Ht : ∃ texto, r_texto_limpio ru = Some texto).
    { revert Ed. unfold _detectar_upselling_response.
      repeat match goal with
             | |- context [if ?b then _ else _] => destruct b; try discriminate
             end;
        match goal with
        | |- context [let '(_, _) := ?x in _] => destruct x as [t ps]
        end;
        destruct ps; try discriminate; intros [= <-]; eauto. }
    destruct Ht as [texto ->]. repeat split.
  - destruct (_generar_respuesta _ _ _ _ _ _ _) as [[raw c1]|e] eqn:Eg; cbn [bind];
      [|discriminate].
    apply generar_hilo in Eg.
    destruct (parser raw c1 g) as [st|e] eqn:Ep; cbn [bind]; [|discriminate].
    pose proof (parser_hilo _ _ _ _ Ep) as Hst.
    destruct (agregar_upsell repr_float (productos_display st) (conv st))
      as [[productos c2]|e] eqn:Eu; cbn [bind]; [|discriminate].
    apply agregar_upsell_hilo in Eu.
    destruct (match productos with [] => _ | _ => _ end) as [finales|e]; cbn [bind];
      [|discriminate].
    intros [= <- <- <-]. cbn [r_texto_limpio r_burbujas].
    pose proof (mismo_hilo_trans _ _ _ (mismo_hilo_trans _ _ _ Eg Hst) Eu)
      as (H1 & H2 & H3 & H4).
    cbn [agregar_mensaje con_mensajes session_id canal user_id mensajes] in *.
    rewrite H1, H2, H3, H4, P1, P2, P3, P4, <- app_assoc. repeat split.
Qed.

Hypothesis demo_conserva_carrito :
  ∀ m c r c', respuesta_demo m c = Ok (r, c') → carrito c' = carrito c.

Lemma parser_unidades raw c g st :
  parser raw c g = Ok st →
  unidades (conv st)
  = (unidades c + Z.of_nat (length (List.filter es_agregar (acciones st))))%Z.
Proof.
  intros H. destruct (parser_una_vez _ _ _ _ _ _ _ _ H) as (Ha & _ & _).
  destruct (re_search P_AGREGAR_CARRITO raw) as [m|]; destruct Ha as [-> ->].
  - apply aplicar_agregar_unidades.
  - simpl. lia.
Qed.

Lemma generar_carrito c mensaje raw c1 :
  _generar_respuesta repr_float float_of_str mcp modelo respuesta_demo c mensaje
  = Ok (raw, c1) →
  carrito c1 = carrito c.
Proof.
  assert (Ha : ∀ up, carrito (anotar up c) = carrito c)
    by (intros [[u i]|]; reflexivity).
  unfold _generar_respuesta. destruct modelo as [generate_content|].
  - rewrite proactivo_plan.
    destruct (plan_proactivo repr_float float_of_str mcp mensaje (contexto c))
      as [[texto up]|e]; cbn [bind].
    + destruct (generate_content _ _ _) as [text|e].
      * destruct (is_empty text); intros [= <- <-]; apply Ha.
      * intros H. apply demo_conserva_carrito in H. rewrite H. apply Ha.
    + apply demo_conserva_carrito.
  - apply demo_conserva_carrito.
Qed.

Lemma agregar_upsell_carrito productos c l c' :
  agregar_upsell repr_float productos c = Ok (l, c') → carrito c' = carrito c.
Proof.
  unfold agregar_upsell. destruct productos as [|p ps]; [intros [= <- <-]; reflexivity|].
  destruct (contexto c !! "upsell_producto") as [v|]; [|intros [= <- <-]; reflexivity].
  destruct (ctx_truthy v); [|intros [= <- <-]; reflexivity].
  destruct v; [discriminate|]. intros [= <- <-]. reflexivity.
Qed.

Lemma aplicar_agregar_al_dia contenido c :
  carrito_al_dia c → carrito_al_dia (snd (aplicar_agregar float_of_str bq contenido c)).
Proof.
  intros H. unfold aplicar_agregar. destruct (resolver_producto _ _ _) as [p|]; [|exact H].
  cbn [snd]. unfold carrito_al_dia in *.
  destruct (no_vacio _); cbn [carrito con_contexto con_carrito];
    apply agregar_item_al_dia; destruct (carrito c); [exact H|constructor|exact H|constructor].
Qed.

Lemma parser_al_dia raw c g st :
  parser raw c g = Ok st → carrito_al_dia c → carrito_al_dia (conv st).
Proof.
  intros H Hc. destruct (parser_una_vez _ _ _ _ _ _ _ _ H) as (Ha & _ & _).
  destruct (re_search P_AGREGAR_CARRITO raw) as [m|]; destruct Ha as [_ ->].
  - apply aplicar_agregar_al_dia, Hc.
  - exact Hc.
Qed.

Lemma turno_al_dia c mensaje g r cF gF :
  turno c mensaje g = Ok (r, cF, gF) → carrito_al_dia c → carrito_al_dia cF.
Proof.
  unfold procesar_mensaje. intros H Hc.
  assert (Hk : carrito_al_dia (extraer_preferencias mensaje c))
    by (rewrite extraer_preferencias_escritos; exact Hc).
  revert H. set (c0 := extraer_preferencias mensaje c) in *.
  destruct (_detectar_upselling_response repr_float float_of_str mcp mensaje c0)
    as [ru|] eqn:Ed.
  - intros [= _ <- _]. exact Hk.
  - destruct (_generar_respuesta _ _ _ _ _ _ _) as [[raw c1]|e] eqn:Eg; cbn [bind];
      [|discriminate].
    apply generar_carrito in Eg.
    destruct (parser raw c1 g) as [st|e] eqn:Ep; cbn [bind]; [|discriminate].
    apply parser_al_dia in Ep;
      [|unfold carrito_al_dia; rewrite Eg; exact Hk].
    destruct (agregar_upsell repr_float (productos_display st) (conv st))
      as [[productos c2]|e] eqn:Eu; cbn [bind]; [|discriminate].
    apply agregar_upsell_carrito in Eu.
    destruct (match productos with [] => _ | _ => _ end) as [finales|e]; cbn [bind];
      [|discriminate].
    intros [= _ <- _]. unfold carrito_al_dia in *.
    cbn [agregar_mensaje con_mensajes carrito]. rewrite Eu. exact Ep.
Qed.

(** The text that goes to the history is the bubbles joined by a blank,
    and an answer without bubbles has a list for text. *)
Lemma turno_texto c mensaje g r cF gF :
  turno c mensaje g = Ok (r, cF, gF) →
  match r_texto_limpio r with
  | Some texto => texto
  | None => join " " (r_burbujas r)
  end = join " " (r_burbujas r)
  ∧ (r_burbujas r = [] → r_texto r = inr []).
Proof.
  unfold procesar_mensaje.
  set (c0 := extraer_preferencias mensaje c).
  destruct (_detectar_upselling_response repr_float float_of_str mcp mensaje c0)
    as [ru|] eqn:Ed.
  - destruct (detector_ramas _ _ _ _ _ _ Ed) as (texto & ps & -> & _).
    intros [= <- _ _]. cbn [r_texto_limpio r_burbujas join]. split; [reflexivity|discriminate].
  - destruct (_generar_respuesta _ _ _ _ _ _ _) as [[raw c1]|e]; cbn [bind]; [|discriminate].
    destruct (parser raw c1 g) as [st|e]; cbn [bind]; [|discriminate].
    destruct (agregar_upsell repr_float (productos_display st) (conv st))
      as [[productos c2]|e]; cbn [bind]; [|discriminate].
    destruct (match productos with [] => _ | _ => _ end) as [finales|e]; cbn [bind];
      [|discriminate].
    intros [= <- _ _]. cbn [r_texto_limpio r_burbujas r_texto].
    split; [reflexivity|]. intros ->. reflexivity.
Qed.

(** X7.  A turn that returns appends two messages to the history, the
    message of the user and then the text of the assistant (the text of
    the detector, or the bubbles joined by a blank), and keeps the session
    id, the channel and the user id; the cart it answers with is the cart
    of the conversation after the turn, and the units in that cart have
    grown by the number of add-to-cart actions of the answer.  The offline
    reply generator is to keep the identity, the history and the cart. *)
Theorem turno_agrega_dos_mensajes (c : Conversacion) (mensaje : string) (g : rng)
    (r : Respuesta) (cF : Conversacion) (gF : rng) :
  turno c mensaje g = Ok (r, cF, gF) →
  (session_id cF = session_id c ∧ canal cF = canal c ∧ user_id cF = user_id c)
  ∧ mensajes cF
    = mensajes c ++
      [mkMensajeChat "user" mensaje;
       mkMensajeChat "assistant"
         (match r_texto_limpio r with
          | Some texto => texto
          | None => join " " (r_burbujas r)
          end)]
  ∧ r_carrito r = carrito cF
  ∧ unidades cF
    = (unidades c + Z.of_nat (length (List.filter es_agregar (r_acciones r))))%Z.
Proof.
  intros H.
  destruct (turno_hilo_y_mensajes c mensaje g r cF gF H) as (H1 & H2 & H3 & H4).
  split; [auto|]. split; [exact H4|]. revert H. unfold procesar_mensaje.
  assert (Hk : carrito (extraer_preferencias mensaje c) = carrito c)
    by (rewrite extraer_preferencias_escritos; reflexivity).
  set (c0 := extraer_preferencias mensaje c) in *.
  destruct (_detectar_upselling_response repr_float float_of_str mcp mensaje c0)
    as [ru|] eqn:Ed.
  - destruct (detector_sin_acciones _ _ _ _ _ _ Ed) as [Ha Hc].
    intros [= <- <- <-]. rewrite Ha, Hc. unfold unidades.
    cbn [agregar_mensaje con_mensajes carrito List.filter length]. rewrite Hk.
    split; [reflexivity|]. lia.
  - destruct (_generar_respuesta _ _ _ _ _ _ _) as [[raw c1]|e] eqn:Eg; cbn [bind];
      [|discriminate].
    apply generar_carrito in Eg.
    destruct (parser raw c1 g) as [st|e] eqn:Ep; cbn [bind]; [|discriminate].
    pose proof (parser_unidades _ _ _ _ Ep) as Hst.
    destruct (agregar_upsell repr_float (productos_display st) (conv st))
      as [[productos c2]|e] eqn:Eu; cbn [bind]; [|discriminate].
    apply agregar_upsell_carrito in Eu.
    destruct (match productos with [] => _ | _ => _ end) as [finales|e]; cbn [bind];
      [|discriminate].
    intros [= <- <- <-]. cbn [r_carrito r_acciones].
    split; [reflexivity|].
    unfold unidades in *. cbn [agregar_mensaje con_mensajes carrito] in *.
    rewrite Eu, Hst, Eg, Hk. reflexivity.
Qed.

End Hilo.

Lemma parser_conserva_hilo_y_carrito_witness :
  ∃ st, _procesar_acciones repr_decimal decimal_of_str bq_demo (fun _ => [])
          respuesta_agrega_caja conversacion_nueva sin_azar = Ok st
        ∧ mismo_hilo conversacion_nueva (conv st)
        ∧ unidades (conv st) = 1%Z.
Proof.
  destruct (_procesar_acciones repr_decimal decimal_of_str bq_demo (fun _ => [])
              respuesta_agrega_caja conversacion_nueva sin_azar) as [st|] eqn:E;
    [|vm_compute in E; discriminate].
  exists st. split; [reflexivity|].
  destruct (parser_conserva_hilo_y_carrito repr_decimal decimal_of_str bq_demo (fun _ => [])
              respuesta_agrega_caja conversacion_nueva sin_azar st E)
    as (Hh & _ & Hu & _).
  split; [exact Hh|]. rewrite Hu.
  vm_compute in E. injection E as <-. reflexivity.
Defined.

Lemma demo_nulo_conserva_hilo m c r c' :
  demo_nulo m c = Ok (r, c') → mismo_hilo c c'.
Proof. intros [= _ <-]. apply mismo_hilo_refl. Qed.

Lemma demo_nulo_conserva_carrito m c r c' :
  demo_nulo m c = Ok (r, c') → carrito c' = carrito c.
Proof. intros [= _ <-]. reflexivity. Qed.

Lemma turno_agrega_dos_mensajes_witness :
  let turno := procesar_mensaje repr_decimal decimal_of_str (fun _ => "") mcp_demo
                 bq_demo (fun _ => []) modelo_texto demo_nulo in
  ∃ r cF gF,
    turno conversacion_nueva mensaje_saludo sin_azar = Ok (r, cF, gF)
    ∧ mensajes cF
      = [mkMensajeChat "user" mensaje_saludo;
         mkMensajeChat "assistant" "Con gusto. Que ocasion es?"].
Proof.
  intros turno.
  destruct (turno conversacion_nueva mensaje_saludo sin_azar) as [[[r cF] gF]|] eqn:E;
    [|vm_compute in E; discriminate].
  exists r, cF, gF. split; [reflexivity|].
  destruct (turno_agrega_dos_mensajes repr_decimal decimal_of_str (fun _ => "") mcp_demo
              bq_demo (fun _ => []) modelo_texto demo_nulo
              demo_nulo_conserva_hilo demo_nulo_conserva_carrito
              conversacion_nueva mensaje_saludo sin_azar r cF gF E) as (_ & Hm & _).
  rewrite Hm. vm_compute in E. injection E as <- _ _. reflexivity.
Defined.

(** * The legacy checkout directive *)

Section Legacy.

Variable repr_float : Q → string.
Variable float_of_str : string → option Q.
Variable bq : BigQueryService.
Variable ejecutar_busqueda : string → list Producto.

Local Abbreviation parser := (_procesar_acciones repr_float float_of_str bq ejecutar_busqueda).

Lemma es_codigo_generado g : es_codigo_carrito (fst (_generar_codigo_carrito g)).
Proof.
  exists (choices alfabeto 8 g). split; [reflexivity|]. apply choices_alfabeto.
Qed.

Lemma carrito_con_items_items c :
  carrito_con_items c = None ↔ items_carrito c = [].
Proof.
  unfold carrito_con_items, items_carrito.
  destruct (carrito c) as [k|]; [|tauto]. destruct (items k); split; congruence.
Qed.

Lemma paso_generar_checkout_legacy raw st st' :
  paso_generar_checkout raw st = Ok st' →
  if str_in T_GENERAR_CHECKOUT raw && negb (bool_decide (items_carrito (conv st) = []))
  then ∃ codigo, es_codigo_carrito codigo
         ∧ acciones st' = acciones st ++ [ACheckoutLegacy codigo (checkout_url codigo)]
         ∧ gen st' = avanzar 8 (gen st)
  else st' = st.
Proof.
  unfold paso_generar_checkout.
  destruct (str_in _ raw); cbn [andb]; [|intros [= <-]; reflexivity].
  pose proof (carrito_con_items_items (conv st)) as Hk.
  destruct (carrito_con_items (conv st)) as [k|].
  - rewrite bool_decide_eq_false_2 by (intros E; apply Hk in E; discriminate).
    cbn [negb].
    pose proof (es_codigo_generado (gen st)) as Hc.
    assert (Hg : snd (_generar_codigo_carrito (gen st)) = avanzar 8 (gen st)) by reflexivity.
    destruct (_generar_codigo_carrito (gen st)) as [codigo g'].
    destruct (re_sub_lit _ _ _); cbn [bind]; [|discriminate].
    intros [= <-]. exists codigo. cbn. auto.
  - rewrite bool_decide_eq_true_2 by (apply Hk; reflexivity).
    intros [= <-]. reflexivity.
Qed.

Lemma sin_legacy_app l l' :
  List.filter es_checkout_legacy l = [] → List.filter es_checkout_legacy l' = [] →
  List.filter es_checkout_legacy (l ++ l') = [].
Proof. intros H H'. rewrite List.filter_app, H, H'. reflexivity. Qed.

Lemma pasos_producto_sin_legacy ms : ∀ st st',
  pasos_producto st ms = Ok st' →
  ∃ l, acciones st' = acciones st ++ l ∧ List.filter es_checkout_legacy l = [].
Proof.
  induction ms as [|m ms IH]; intros st st'; cbn [pasos_producto].
  - intros [= <-]. exists []. rewrite List.app_nil_r. auto.
  - destruct (paso_producto st m) as [st1|e] eqn:E; cbn [bind]; [|discriminate].
    intros H. destruct (IH _ _ H) as (l & Hl & Hal).
    unfold paso_producto in E.
    destruct (3 <=? _)%nat.
    + destruct (precio_num_de _); cbn [bind] in E; [|discriminate].
      injection E as <-. cbn [acciones] in Hl. rewrite <- List.app_assoc in Hl.
      eexists. split; [exact Hl|]. apply sin_legacy_app; [reflexivity|exact Hal].
    + injection E as <-. eauto.
Qed.

Lemma primeros_pasos_sin_legacy raw c g st5 :
  (let* st1 := pasos_producto (mkEstado raw [] [] c g) (re_findall P_PRODUCTO raw) in
   let* st4 := paso_checkout raw
                 (paso_agregar float_of_str bq raw
                    (paso_buscar repr_float ejecutar_busqueda raw st1)) in
   paso_ver_carrito raw st4) = Ok st5 →
  List.filter es_checkout_legacy (acciones st5) = [].
Proof.
  destruct (pasos_producto _ _) as [st1|] eqn:E1; cbn [bind]; [|discriminate].
  destruct (paso_checkout raw _) as [st4|] eqn:E4; cbn [bind]; [|discriminate].
  intros E5.
  destruct (pasos_producto_sin_legacy _ _ _ E1) as (l1 & A1 & L1). cbn in A1.
  assert (A5 : ∃ l, acciones st5 = acciones st4 ++ l
                    ∧ List.filter es_checkout_legacy l = []).
  { unfold paso_ver_carrito in E5. destruct (str_in _ raw).
    - destruct (re_sub_lit _ _ _); cbn [bind] in E5; [|discriminate].
      injection E5 as <-. eexists. split; [reflexivity|reflexivity].
    - injection E5 as <-. exists []. rewrite List.app_nil_r. auto. }
  destruct A5 as (l5 & A5 & L5).
  set (st2 := paso_buscar repr_float ejecutar_busqueda raw st1) in *.
  set (st3 := paso_agregar float_of_str bq raw st2) in *.
  assert (A4 : ∃ l, acciones st4 = acciones st3 ++ l
                    ∧ List.filter es_checkout_legacy l = []).
  { unfold paso_checkout in E4. destruct (re_search _ raw).
    - destruct (if eqs _ _ then _ else _) as [codigo g'].
      destruct (carrito_to_dict _); cbn [bind] in E4; [|discriminate].
      injection E4 as <-. eexists. split; [reflexivity|reflexivity].
    - injection E4 as <-. exists []. rewrite List.app_nil_r. auto. }
  destruct A4 as (l4 & A4 & L4).
  assert (A3 : ∃ l, acciones st3 = acciones st2 ++ l
                    ∧ List.filter es_checkout_legacy l = []).
  { unfold st3, paso_agregar. destruct (re_search _ raw).
    - destruct (resolver_producto _ _ _); cbn [acciones].
      + eexists. split; [reflexivity|reflexivity].
      + exists []. rewrite List.app_nil_r. auto.
    - exists []. rewrite List.app_nil_r. auto. }
  destruct A3 as (l3 & A3 & L3).
  assert (A2 : ∃ l, acciones st2 = acciones st1 ++ l
                    ∧ List.filter es_checkout_legacy l = []).
  { unfold st2. rewrite paso_buscar_acciones. eexists. split; [reflexivity|].
    destruct (re_search _ raw); reflexivity. }
  destruct A2 as (l2 & A2 & L2).
  rewrite A5, A4, A3, A2, A1.
  repeat apply sin_legacy_app; auto.
Qed.

(** X13.  The legacy checkout directive.  When the parser returns on a
    response that holds the directive while the cart is not empty, the
    last action is a checkout whose code is [RST] and eight capital
    letters or digits and whose URL is the checkout address of that code,
    and it is the only legacy checkout recorded; without the directive, or
    with an empty cart, none is recorded. *)
Theorem checkout_legacy_codigo_y_enlace (raw : string) (c : Conversacion) (g : rng)
    (st : Estado) :
  parser raw c g = Ok st →
  (str_in T_GENERAR_CHECKOUT raw = true → items_carrito (conv st) ≠ [] →
   ∃ previas codigo,
     acciones st = previas ++ [ACheckoutLegacy codigo (checkout_url codigo)]
     ∧ es_codigo_carrito codigo
     ∧ List.filter es_checkout_legacy previas = [])
  ∧ (str_in T_GENERAR_CHECKOUT raw = false ∨ items_carrito (conv st) = [] →
     List.filter es_checkout_legacy (acciones st) = []).
Proof.
  unfold _procesar_acciones.
  destruct (let* st1 := pasos_producto (mkEstado raw [] [] c g) (re_findall P_PRODUCTO raw) in
            let* st4 := paso_checkout raw
                          (paso_agregar float_of_str bq raw
                             (paso_buscar repr_float ejecutar_busqueda raw st1)) in
            paso_ver_carrito raw st4) as [st5|] eqn:E5.
  2:{ intros H. exfalso. revert E5 H.
      destruct (pasos_producto _ _); cbn [bind]; [|discriminate].
      destruct (paso_checkout raw _); cbn [bind]; [|discriminate].
      intros ->. discriminate. }
  pose proof (primeros_pasos_sin_legacy raw c g st5 E5) as L5.
  assert (E : _procesar_acciones repr_float float_of_str bq ejecutar_busqueda raw c g
              = let* st6 := paso_generar_checkout raw st5 in
                Ok (mkEstado (strip (respuesta_procesada st6)) (productos_display st6)
                      (acciones st6) (conv st6) (gen st6))).
  { unfold _procesar_acciones. revert E5.
    destruct (pasos_producto _ _); cbn [bind]; [|discriminate].
    destruct (paso_checkout raw _); cbn [bind]; [|discriminate].
    intros ->. reflexivity. }
  unfold _procesar_acciones in E. rewrite E. clear E.
  destruct (paso_generar_checkout raw st5) as [st6|] eqn:E6; cbn [bind]; [|discriminate].
  intros [= <-]. cbn [acciones conv].
  pose proof (paso_generar_checkout_conv _ _ _ E6) as K6.
  pose proof (paso_generar_checkout_legacy _ _ _ E6) as H6.
  rewrite K6. split.
  - intros Hs Hi. rewrite Hs, bool_decide_eq_false_2 in H6 by exact Hi.
    destruct H6 as (codigo & Hc & Ha & _). exists (acciones st5), codigo. auto.
  - intros [Hs|Hi].
    + rewrite Hs in H6. cbn in H6. subst st6. exact L5.
    + rewrite bool_decide_eq_true_2, andb_false_r in H6 by exact Hi.
      subst st6. exact L5.
Qed.

End Legacy.

Lemma checkout_legacy_witness :
  ∃ st, _procesar_acciones repr_decimal decimal_of_str bq_demo (fun _ => [])
          "Listo! [GENERAR_CHECKOUT]" conversacion_con_caja sin_azar = Ok st
        ∧ ∃ previas codigo,
            acciones st = previas ++ [ACheckoutLegacy codigo (checkout_url codigo)]
            ∧ es_codigo_carrito codigo
            ∧ List.filter es_checkout_legacy previas = [].
Proof.
  destruct (_procesar_acciones repr_decimal decimal_of_str bq_demo (fun _ => [])
              "Listo! [GENERAR_CHECKOUT]" conversacion_con_caja sin_azar)
    as [st|] eqn:E; [|vm_compute in E; discriminate].
  exists st. split; [reflexivity|].
  apply (checkout_legacy_codigo_y_enlace repr_decimal decimal_of_str bq_demo (fun _ => [])
           "Listo! [GENERAR_CHECKOUT]" conversacion_con_caja sin_azar st E).
  - vm_compute. reflexivity.
  - assert (K : conv st = conversacion_con_caja)
      by (vm_compute in E; injection E as <-; reflexivity).
    rewrite K. vm_compute. discriminate.
Defined.

(** * Product directives *)

Lemma all_chars_app f s t : all_chars f (s +:+ t) = all_chars f s && all_chars f t.
Proof.
  induction s as [|a s IH]; [reflexivity|].
  rewrite sapp_cons. cbn [all_chars]. rewrite IH, andb_assoc. reflexivity.
Qed.

Lemma all_chars_lstrip f s : all_chars f s = true → all_chars f (lstrip s) = true.
Proof.
  induction s as [|a s IH]; [reflexivity|]. cbn [lstrip all_chars].
  intros H. destruct (is_space a); [|exact H].
  apply andb_true_iff in H as [_ H]. apply IH, H.
Qed.

Lemma all_chars_rstrip f s : all_chars f s = true → all_chars f (rstrip s) = true.
Proof.
  induction s as [|a s IH]; [reflexivity|]. cbn [rstrip all_chars].
  intros H. apply andb_true_iff in H as [Ha H].
  destruct (is_space a && is_empty (rstrip s)); [reflexivity|].
  cbn [all_chars]. rewrite Ha, (IH H). reflexivity.
Qed.

Lemma all_chars_strip f s : all_chars f s = true → all_chars f (strip s) = true.
Proof. intros H. apply all_chars_rstrip, all_chars_lstrip, H. Qed.

Lemma rev_app_app cur : ∀ t, String.rev_app cur t = String.rev cur +:+ t.
Proof.
  unfold String.rev. induction cur as [|a cur IH]; intros t; [reflexivity|].
  cbn [String.rev_app]. rewrite (IH (String a t)), (IH (String a "")).
  rewrite sapp_assoc, sapp_cons, sapp_nil_l. reflexivity.
Qed.

Lemma rev_cons a cur : String.rev (String a cur) = String.rev cur +:+ String a "".
Proof. unfold String.rev at 1. cbn [String.rev_app]. apply rev_app_app. Qed.

Lemma split_campo s : ∀ cur resto, sin_barra s →
  split_from "|" 0 cur (s +:+ String "|" resto)
  = (String.rev cur +:+ s) :: split_from "|" 0 "" resto.
Proof.
  unfold sin_barra. induction s as [|a s IH]; intros cur resto H.
  - rewrite sapp_nil_l, sapp_nil_r. reflexivity.
  - cbn [all_chars] in H. apply andb_true_iff in H as [Ha H].
    rewrite sapp_cons. cbn [split_from startswith].
    rewrite Ascii.eqb_sym. apply negb_true_iff in Ha. rewrite Ha. cbn [andb].
    rewrite (IH _ _ H), rev_cons, sapp_assoc, sapp_cons, sapp_nil_l. reflexivity.
Qed.

Lemma split_ultimo s : ∀ cur, sin_barra s →
  split_from "|" 0 cur s = [String.rev cur +:+ s].
Proof.
  unfold sin_barra. induction s as [|a s IH]; intros cur H.
  - rewrite sapp_nil_r. reflexivity.
  - cbn [all_chars] in H. apply andb_true_iff in H as [Ha H].
    cbn [split_from startswith].
    rewrite Ascii.eqb_sym. apply negb_true_iff in Ha. rewrite Ha. cbn [andb].
    rewrite (IH _ H), rev_cons, sapp_assoc, sapp_cons, sapp_nil_l. reflexivity.
Qed.

(** [split] undoes [join] on fields without the separator. *)
Lemma split_join fs :
  fs ≠ [] → Forall sin_barra fs → split "|" (join "|" fs) = fs.
Proof.
  unfold split. induction fs as [|x fs IH]; [congruence|]. intros _ H.
  apply Forall_cons in H as [Hx H]. destruct fs as [|y fs].
  - cbn [join]. rewrite (split_ultimo x "" Hx). reflexivity.
  - change (join "|" (x :: y :: fs)) with (x +:+ String "|" (join "|" (y :: fs))).
    rewrite (split_campo x "" _ Hx). rewrite IH by (congruence || exact H).
    reflexivity.
Qed.

Lemma join_sin_corchetes fs : Forall sin_corchetes fs → sin_corchetes (join "|" fs).
Proof.
  unfold sin_corchetes. induction fs as [|x fs IH]; [reflexivity|]. intros H.
  apply Forall_cons in H as [Hx H]. destruct fs as [|y fs]; [exact Hx|].
  change (join "|" (x :: y :: fs)) with (x +:+ String "|" (join "|" (y :: fs))).
  rewrite all_chars_app, Hx. cbn [all_chars andb]. rewrite (IH H). reflexivity.
Qed.

Lemma join_no_vacio fs : (2 ≤ length fs)%nat → join "|" fs ≠ "".
Proof.
  destruct fs as [|x [|y fs]]; cbn [length]; [lia..|]. intros _.
  change (join "|" (x :: y :: fs)) with (x +:+ String "|" (join "|" (y :: fs))).
  destruct x; [rewrite sapp_nil_l|rewrite sapp_cons]; discriminate.
Qed.

Lemma parte_llana i fs : Forall campo_llano fs → sin_corchetes (parte i fs).
Proof.
  unfold parte. revert i. induction fs as [|x fs IH]; intros i H.
  - destruct i; reflexivity.
  - apply Forall_cons in H as [[Hx _] H]. destruct i; [exact Hx|]. apply IH, H.
Qed.

Lemma linea_directiva_sin_abre fs : Forall campo_llano fs → sin_abre (linea_directiva fs).
Proof.
  intros H. unfold linea_directiva.
  apply sin_abre_app; [reflexivity|]. apply (sin_abre_app "**"); [reflexivity|].
  apply sin_abre_app; [apply all_chars_strip, sin_corchetes_sin_abre, parte_llana, H|].
  apply (sin_abre_app "** - S/"); [reflexivity|].
  apply all_chars_strip, sin_corchetes_sin_abre, parte_llana, H.
Qed.

Lemma bien_escrita_contenido t :
  bien_escrita t →
  join "|" (fst t) ≠ "" ∧ sin_corchetes (join "|" (fst t))
  ∧ split "|" (join "|" (fst t)) = fst t.
Proof.
  intros (Hl & Hf & _ & _). split; [apply join_no_vacio; lia|]. split.
  - apply join_sin_corchetes. eapply Forall_impl; [exact Hf|]. intros s [H _]. exact H.
  - apply split_join; [destruct (fst t); [simpl in Hl; lia|discriminate]|].
    eapply Forall_impl; [exact Hf|]. intros s [_ H]. exact H.
Qed.

(** *** Scanning such a response *)

Lemma search_from_directivas r :
  empieza_en_corchete r →
  (∀ s, match_at r (prefijo "PRODUCTO" +:+ s) = None) →
  ∀ ts pre pos, sin_abre pre → Forall bien_escrita ts →
  search_from r pos (pre +:+ con_directivas directiva ts) = None.
Proof.
  intros Hr Hno. induction ts as [|[fs post] ts IH]; intros pre pos Hpre Hts.
  - cbn [con_directivas]. rewrite sapp_nil_r. apply search_from_sin_abre; assumption.
  - apply Forall_cons in Hts as [Ht Hts].
    destruct (bien_escrita_contenido _ Ht) as (_ & Hsc & _).
    destruct Ht as (_ & _ & Hpost & _). cbn [fst snd] in *.
    cbn [con_directivas]. rewrite (search_from_salta r Hr) by exact Hpre.
    change (directiva fs) with (tag "PRODUCTO" (join "|" fs)).
    rewrite (search_from_otro_tag r "PRODUCTO" _ _ _ Hr Hno eq_refl Hsc).
    apply IH; [exact Hpost|exact Hts].
Qed.

Lemma str_in_directivas w :
  (∀ s, startswith (String "[" w) (prefijo "PRODUCTO" +:+ s) = false) →
  ∀ ts pre, sin_abre pre → Forall bien_escrita ts →
  str_in (String "[" w) (pre +:+ con_directivas directiva ts) = false.
Proof.
  intros Hno. induction ts as [|[fs post] ts IH]; intros pre Hpre Hts.
  - cbn [con_directivas]. rewrite sapp_nil_r. apply str_in_sin_abre; assumption.
  - apply Forall_cons in Hts as [Ht Hts].
    destruct (bien_escrita_contenido _ Ht) as (_ & Hsc & _).
    destruct Ht as (_ & _ & Hpost & _). cbn [fst snd] in *.
    cbn [con_directivas]. rewrite str_in_salta by exact Hpre.
    change (directiva fs) with (tag "PRODUCTO" (join "|" fs)).
    rewrite (str_in_otro_tag w "PRODUCTO" _ _ Hno eq_refl Hsc).
    apply IH; [exact Hpost|exact Hts].
Qed.

Lemma findall_directivas : ∀ ts pre fuel,
  sin_abre pre → Forall bien_escrita ts → (length ts < fuel)%nat →
  findall_from fuel P_PRODUCTO (pre +:+ con_directivas directiva ts)
  = map (fun t => join "|" (fst t)) ts.
Proof.
  induction ts as [|[fs post] ts IH]; intros pre fuel Hpre Hts Hf;
    (destruct fuel as [|fuel]; [lia|]); cbn [findall_from].
  - unfold re_search. cbn [con_directivas]. rewrite sapp_nil_r.
    rewrite search_from_sin_abre by (apply tag_pattern_empieza || exact Hpre).
    reflexivity.
  - apply Forall_cons in Hts as [Ht Hts].
    destruct (bien_escrita_contenido _ Ht) as (Hne & Hsc & _).
    destruct Ht as (_ & _ & Hpost & _). cbn [fst snd] in *.
    unfold re_search. cbn [con_directivas].
    rewrite (search_from_salta _ (tag_pattern_empieza "PRODUCTO")) by exact Hpre.
    change (directiva fs) with (tag "PRODUCTO" (join "|" fs)). unfold P_PRODUCTO.
    rewrite (search_from_hit _ _ _ _ _ (match_at_tag "PRODUCTO" _ _ Hne Hsc)).
    rewrite consumed_app. unfold next_scan.
    cbn [group lookup_group Nat.eqb m_groups m_text m_rest map fst].
    assert (Hv : is_empty (tag "PRODUCTO" (join "|" fs)) = false)
      by (rewrite tag_cuerpo; reflexivity).
    rewrite Hv. f_equal.
    apply (IH post fuel); [exact Hpost|exact Hts|].
    cbn [length] in Hf. lia.
Qed.

Lemma len_con_directivas ts :
  (length ts ≤ len (con_directivas directiva ts))%nat.
Proof.
  induction ts as [|[fs post] ts IH]; [cbn [length]; lia|].
  cbn [con_directivas length]. change (directiva fs) with (tag "PRODUCTO" (join "|" fs)).
  rewrite tag_cuerpo, sapp_cons, len_cons.
  rewrite !len_app. lia.
Qed.

Lemma re_findall_directivas pre ts :
  sin_abre pre → Forall bien_escrita ts →
  re_findall P_PRODUCTO (pre +:+ con_directivas directiva ts)
  = map (fun t => join "|" (fst t)) ts.
Proof.
  intros Hpre Hts. unfold re_findall. apply findall_directivas; [exact Hpre|exact Hts|].
  rewrite len_app. pose proof (len_con_directivas ts). lia.
Qed.

Lemma replace_from_directivas g new : ∀ ts pre,
  sin_corchetes g → sin_abre pre → Forall bien_escrita ts →
  g ∉ map (fun t => join "|" (fst t)) ts →
  replace_from (tag "PRODUCTO" g) new 0 (pre +:+ con_directivas directiva ts)
  = pre +:+ con_directivas directiva ts.
Proof.
  intros ts. induction ts as [|[fs post] ts IH]; intros pre Hg Hpre Hts Hni.
  - cbn [con_directivas]. rewrite sapp_nil_r, tag_cuerpo.
    apply replace_from_sin_abre. exact Hpre.
  - apply Forall_cons in Hts as [Ht Hts].
    destruct (bien_escrita_contenido _ Ht) as (_ & Hsc & _).
    destruct Ht as (_ & _ & Hpost & _). cbn [fst snd] in *.
    cbn [map fst] in Hni. apply not_elem_of_cons in Hni as [Hne Hni].
    cbn [con_directivas]. rewrite (tag_cuerpo "PRODUCTO" g).
    rewrite replace_from_salta by exact Hpre.
    rewrite <- (tag_cuerpo "PRODUCTO" g).
    change (directiva fs) with (tag "PRODUCTO" (join "|" fs)).
    rewrite (replace_from_otro_tag "PRODUCTO" g _ new _ eq_refl Hg Hsc Hne).
    rewrite (IH post Hg Hpost Hts Hni). reflexivity.
Qed.

(** *** The loop over the product directives *)

Lemma pasos_directivas c g : ∀ ts pre cards acts,
  sin_abre pre → Forall bien_escrita ts → NoDup (map fst ts) →
  ∃ cs,
    pasos_producto (mkEstado (pre +:+ con_directivas directiva ts) cards acts c g)
      (map (fun t => join "|" (fst t)) ts)
    = Ok (mkEstado (pre +:+ con_directivas linea_directiva ts) (cards ++ cs)
            (acts ++ map AMostrarProducto cs) c g)
    ∧ Forall2 muestra_campos (map fst ts) cs.
Proof.
  induction ts as [|[fs post] ts IH]; intros pre cards acts Hpre Hts Hnd.
  - exists []. cbn [map pasos_producto con_directivas]. rewrite !List.app_nil_r.
    split; [reflexivity|constructor].
  - apply Forall_cons in Hts as [Ht Hts].
    destruct (bien_escrita_contenido _ Ht) as (Hne & Hsc & Hsp).
    pose proof Ht as (Hl & Hf & Hpost & Hok & _). cbn [fst snd] in *.
    cbn [map fst] in Hnd. apply NoDup_cons in Hnd as [Hni Hnd].
    destruct (precio_num_de (strip (parte 2 fs))) as [v|] eqn:Ev; [|discriminate].
    cbn [map fst pasos_producto con_directivas].
    unfold paso_producto at 1. rewrite Hsp.
    replace (3 <=? length fs)%nat with true by (symmetry; apply Nat.leb_le; exact Hl).
    rewrite Ev. cbn [bind respuesta_procesada productos_display acciones conv gen].
    change ("[PRODUCTO:" +:+ join "|" fs +:+ "]") with (tag "PRODUCTO" (join "|" fs)).
    rewrite replace_tag, (tag_cuerpo "PRODUCTO" (join "|" fs)).
    rewrite replace_from_salta by exact Hpre.
    rewrite <- (tag_cuerpo "PRODUCTO" (join "|" fs)).
    change (directiva fs) with (tag "PRODUCTO" (join "|" fs)).
    rewrite replace_from_mismo_tag.
    rewrite replace_from_directivas;
      [|exact Hsc|exact Hpost|exact Hts|].
    2:{ intros Hin. apply Hni. apply list_elem_of_fmap in Hin as ([fs' post'] & E & Hin).
        cbn [fst] in E. apply list_elem_of_fmap. exists (fs', post'). split; [|exact Hin].
        cbn [fst].
        assert (Ht' : bien_escrita (fs', post'))
          by (rewrite Forall_forall in Hts; apply Hts; exact Hin).
        destruct (bien_escrita_contenido _ Ht') as (_ & _ & Hsp'). cbn [fst] in Hsp'.
        rewrite <- Hsp, <- Hsp', E. reflexivity. }
    change (nl +:+ "**" +:+ strip (parte 1 fs) +:+ "** - S/" +:+ strip (parte 2 fs))
      with (linea_directiva fs).
    set (card := list_to_map _ : tarjeta).
    assert (Hpre' : sin_abre (pre +:+ linea_directiva fs +:+ post)).
    { apply sin_abre_app; [exact Hpre|].
      apply sin_abre_app; [apply linea_directiva_sin_abre; exact Hf|exact Hpost]. }
    destruct (IH (pre +:+ linea_directiva fs +:+ post) (cards ++ [card])
                (acts ++ [AMostrarProducto card]) Hpre' Hts Hnd) as (cs & Hcs & Hm).
    exists (card :: cs). split.
    + rewrite !sapp_assoc in Hcs. rewrite Hcs.
      rewrite <- !List.app_assoc. reflexivity.
    + constructor; [|exact Hm].
      unfold muestra_campos, card. repeat split. exists v. split; [exact Ev|reflexivity].
Qed.

(** *** Numerals, blanks and points *)

Lemma all_chars_impl (f g : ascii → bool) s :
  (∀ ch, f ch = true → g ch = true) → all_chars f s = true → all_chars g s = true.
Proof.
  intros H. induction s as [|a s IH]; [reflexivity|]. cbn [all_chars].
  intros E. apply andb_true_iff in E as [Ha Hs]. rewrite (H a Ha), (IH Hs). reflexivity.
Qed.

Lemma digit_chr_digit d : (0 ≤ d < 10)%Z → is_digit (digit_chr d) = true.
Proof.
  intros H.
  assert (E : (d = 0 ∨ d = 1 ∨ d = 2 ∨ d = 3 ∨ d = 4 ∨ d = 5 ∨ d = 6 ∨ d = 7
               ∨ d = 8 ∨ d = 9)%Z) by lia.
  repeat (destruct E as [->|E]; [reflexivity|]). subst d. reflexivity.
Qed.

Lemma show_pos_digitos fuel : ∀ n acc,
  (0 ≤ n)%Z → all_chars is_digit acc = true →
  all_chars is_digit (show_pos fuel n acc) = true.
Proof.
  induction fuel as [|fuel IH]; intros n acc Hn Hacc; [exact Hacc|].
  cbn [show_pos].
  assert (Hd : all_chars is_digit (String (digit_chr (n mod 10)) acc) = true).
  { cbn [all_chars]. rewrite digit_chr_digit by (apply Z.mod_pos_bound; lia). exact Hacc. }
  destruct (n <? 10)%Z; [exact Hd|].
  apply IH; [apply Z.div_pos; lia|exact Hd].
Qed.

Lemma str_int_digitos n : (0 ≤ n)%Z → all_chars is_digit (str_int n) = true.
Proof.
  intros Hn. unfold str_int.
  replace (n <? 0)%Z with false by (symmetry; apply Z.ltb_ge; exact Hn).
  apply show_pos_digitos; [exact Hn|reflexivity].
Qed.

Lemma fmt_f_0_numeral q : numeral (fmt_f 0 q).
Proof.
  unfold numeral, fmt_f. cbv zeta. cbv iota.
  set (ip := (_ / _)%Z).
  assert (Hip : (0 ≤ ip)%Z)
    by (apply Z.div_pos; [apply Z.abs_nonneg|apply Z.pow_pos_nonneg; lia]).
  assert (Hn : all_chars (fun ch => is_digit ch || Ascii.eqb ch "-") (str_int ip) = true).
  { eapply all_chars_impl; [|exact (str_int_digitos ip Hip)]. intros ch ->. reflexivity. }
  destruct (Qnum q <? 0)%Z; [|exact Hn]. cbn [all_chars]. rewrite Hn. reflexivity.
Qed.

(** *** What the parser makes of a numeral *)

Ltac por_caracter :=
  let ch := fresh "ch" in let H := fresh "H" in
  intros ch; destruct ch as [[] [] [] [] [] [] [] []]; intros H;
  first [reflexivity | discriminate H].

Lemma signo_o_digito_llano ch :
  is_digit ch || Ascii.eqb ch "-" = true →
  negb (Ascii.eqb ch "[") && negb (Ascii.eqb ch "]") = true.
Proof. revert ch. por_caracter. Qed.

Lemma signo_o_digito_sin_barra ch :
  is_digit ch || Ascii.eqb ch "-" = true → negb (Ascii.eqb ch "|") = true.
Proof. revert ch. por_caracter. Qed.

Lemma signo_o_digito_ascii ch :
  is_digit ch || Ascii.eqb ch "-" = true → (code ch <? 128)%nat = true.
Proof. revert ch. por_caracter. Qed.

Lemma signo_o_digito_no_espacio ch :
  is_digit ch || Ascii.eqb ch "-" = true → negb (is_space ch) = true.
Proof. revert ch. por_caracter. Qed.

Lemma signo_o_digito_no_punto ch :
  is_digit ch || Ascii.eqb ch "-" = true → negb (Ascii.eqb ch ".") = true.
Proof. revert ch. por_caracter. Qed.

Lemma numeral_llano s : numeral s → campo_llano s.
Proof.
  intros H. split.
  - exact (all_chars_impl _ _ s signo_o_digito_llano H).
  - exact (all_chars_impl _ _ s signo_o_digito_sin_barra H).
Qed.

Lemma numeral_ascii s : numeral s → solo_ascii s.
Proof. intros H. exact (all_chars_impl _ _ s signo_o_digito_ascii H). Qed.

(** [strip] leaves a text without blanks as it is, and does nothing the
    second time. *)
Lemma rstrip_sin_espacios s :
  all_chars (fun ch => negb (is_space ch)) s = true → rstrip s = s.
Proof.
  induction s as [|a s IH]; [reflexivity|]. cbn [all_chars rstrip]. intros H.
  apply andb_true_iff in H as [Ha H]. apply negb_true_iff in Ha.
  rewrite Ha, (IH H). reflexivity.
Qed.

Lemma strip_sin_espacios s :
  all_chars (fun ch => negb (is_space ch)) s = true → strip s = s.
Proof.
  intros H. unfold strip.
  assert (E : lstrip s = s).
  { destruct s as [|a s]; [reflexivity|]. cbn [all_chars] in H. cbn [lstrip].
    apply andb_true_iff in H as [Ha _]. apply negb_true_iff in Ha. rewrite Ha.
    reflexivity. }
  rewrite E. apply rstrip_sin_espacios, H.
Qed.

Lemma numeral_strip s : numeral s → strip s = s.
Proof.
  intros H. apply strip_sin_espacios.
  exact (all_chars_impl _ _ s signo_o_digito_no_espacio H).
Qed.

Lemma rstrip_idem s : rstrip (rstrip s) = rstrip s.
Proof.
  induction s as [|a s IH]; [reflexivity|]. cbn [rstrip].
  destruct (is_space a && is_empty (rstrip s)) eqn:E; [reflexivity|].
  cbn [rstrip]. rewrite IH, E. reflexivity.
Qed.

Lemma lstrip_cabeza s :
  lstrip s = "" ∨ ∃ a t, lstrip s = String a t ∧ is_space a = false.
Proof.
  induction s as [|a s IH]; [left; reflexivity|]. cbn [lstrip].
  destruct (is_space a) eqn:E; [exact IH|]. right. exists a, s. split; [reflexivity|exact E].
Qed.

Lemma strip_idem s : strip (strip s) = strip s.
Proof.
  unfold strip. destruct (lstrip_cabeza s) as [E|(a & t & E & Ha)]; rewrite E.
  - reflexivity.
  - assert (K : rstrip (String a t) = String a (rstrip t))
      by (cbn [rstrip]; rewrite Ha; reflexivity).
    rewrite K. cbn [lstrip]. rewrite Ha.
    rewrite <- K. apply rstrip_idem.
Qed.

(** Without a point there is nothing to take out and nothing to cut. *)
Lemma replace_sin_punto s :
  all_chars (fun ch => negb (Ascii.eqb ch ".")) s = true → replace "." "" s = s.
Proof.
  unfold replace. cbn [is_empty]. induction s as [|a s IH]; [reflexivity|].
  cbn [all_chars replace_from startswith]. intros H.
  apply andb_true_iff in H as [Ha H]. apply negb_true_iff in Ha.
  rewrite Ascii.eqb_sym, Ha. cbn [andb]. rewrite (IH H). reflexivity.
Qed.

Lemma split_sin_punto s : ∀ cur,
  all_chars (fun ch => negb (Ascii.eqb ch ".")) s = true →
  split_from "." 0 cur s = [String.rev cur +:+ s].
Proof.
  induction s as [|a s IH]; intros cur H.
  - rewrite sapp_nil_r. reflexivity.
  - cbn [all_chars] in H. apply andb_true_iff in H as [Ha H].
    cbn [split_from startswith].
    rewrite Ascii.eqb_sym. apply negb_true_iff in Ha. rewrite Ha. cbn [andb].
    rewrite (IH _ H), rev_cons, sapp_assoc, sapp_cons, sapp_nil_l. reflexivity.
Qed.

(** *** Reading back a printed integer *)

Lemma digits_val_app s : ∀ a t, digits_val a (s +:+ t) = digits_val (digits_val a s) t.
Proof.
  induction s as [|c s IH]; intros a t; [reflexivity|].
  rewrite sapp_cons. cbn [digits_val]. apply IH.
Qed.

Lemma digit_val_chr d : (0 ≤ d < 10)%Z → digit_val (digit_chr d) = d.
Proof.
  intros H.
  assert (E : (d = 0 ∨ d = 1 ∨ d = 2 ∨ d = 3 ∨ d = 4 ∨ d = 5 ∨ d = 6 ∨ d = 7
               ∨ d = 8 ∨ d = 9)%Z) by lia.
  repeat (destruct E as [->|E]; [reflexivity|]). subst d. reflexivity.
Qed.

(** With fuel enough, [show_pos] writes the digits of [n] before [acc]. *)
Lemma show_pos_valor fuel : ∀ n acc,
  (0 ≤ n < 10 ^ Z.of_nat fuel)%Z →
  ∃ ds k, show_pos fuel n acc = ds +:+ acc
          ∧ (0 ≤ k)%Z ∧ ∀ a, digits_val a ds = (a * 10 ^ k + n)%Z.
Proof.
  induction fuel as [|fuel IH]; intros n acc Hn.
  - exists "", 0%Z. change (10 ^ Z.of_nat 0)%Z with 1%Z in Hn.
    split; [reflexivity|]. split; [lia|]. intros a. cbn [digits_val]. lia.
  - cbn [show_pos]. destruct (n <? 10)%Z eqn:E.
    + apply Z.ltb_lt in E. exists (String (digit_chr (n mod 10)) ""), 1%Z.
      split; [reflexivity|]. split; [lia|]. intros a. cbn [digits_val].
      rewrite digit_val_chr by (apply Z.mod_pos_bound; lia).
      rewrite Z.mod_small by lia. lia.
    + apply Z.ltb_ge in E.
      assert (Hq : (0 ≤ n / 10 < 10 ^ Z.of_nat fuel)%Z).
      { split; [apply Z.div_pos; lia|]. apply Z.div_lt_upper_bound; [lia|].
        rewrite Nat2Z.inj_succ, Z.pow_succ_r in Hn by lia. lia. }
      destruct (IH (n / 10)%Z (String (digit_chr (n mod 10)) acc) Hq)
        as (ds & k & Es & Hk & Hv).
      exists (ds +:+ String (digit_chr (n mod 10)) ""), (k + 1)%Z.
      split; [rewrite Es, sapp_assoc, sapp_cons, sapp_nil_l; reflexivity|].
      split; [lia|]. intros a. rewrite digits_val_app, Hv. cbn [digits_val].
      rewrite digit_val_chr by (apply Z.mod_pos_bound; lia).
      rewrite Z.pow_add_r by lia. pose proof (Z.div_mod n 10 ltac:(lia)). lia.
Qed.

Lemma fuel_bastante n : (0 ≤ n)%Z → (n < 10 ^ Z.of_nat (S (Z.to_nat (Z.log2 n))))%Z.
Proof.
  intros Hn. rewrite Nat2Z.inj_succ, Z2Nat.id by apply Z.log2_nonneg.
  destruct (Z.eq_dec n 0%Z) as [->|Hz]; [reflexivity|].
  pose proof (Z.log2_spec n ltac:(lia)) as [_ Hlt].
  eapply Z.lt_le_trans; [exact Hlt|].
  apply Z.pow_le_mono_l. pose proof (Z.log2_nonneg n). lia.
Qed.

Lemma str_int_valor n : (0 ≤ n)%Z → digits_val 0%Z (str_int n) = n.
Proof.
  intros Hn. unfold str_int.
  replace (n <? 0)%Z with false by (symmetry; apply Z.ltb_ge; exact Hn).
  destruct (show_pos_valor _ n "" (conj Hn (fuel_bastante n Hn))) as (ds & k & Es & _ & Hv).
  rewrite Es, sapp_nil_r, Hv. lia.
Qed.

Lemma show_pos_no_vacio fuel : ∀ n acc,
  is_empty acc = false → is_empty (show_pos fuel n acc) = false.
Proof.
  induction fuel as [|fuel IH]; intros n acc H; [exact H|]. cbn [show_pos].
  destruct (n <? 10)%Z; [reflexivity|]. apply IH. reflexivity.
Qed.

Lemma str_int_isdigit n : (0 ≤ n)%Z → isdigit (str_int n) = true.
Proof.
  intros Hn. unfold isdigit. rewrite (str_int_digitos n Hn), andb_true_r.
  apply negb_true_iff. unfold str_int.
  replace (n <? 0)%Z with false by (symmetry; apply Z.ltb_ge; exact Hn).
  cbn [show_pos]. destruct (n <? 10)%Z; [reflexivity|].
  apply show_pos_no_vacio. reflexivity.
Qed.

Lemma digito_sin_signo ch : is_digit ch = true → is_digit ch || Ascii.eqb ch "-" = true.
Proof. intros ->. reflexivity. Qed.

(** [float] of a text made of digits is the integer they write. *)
Lemma decimal_of_str_digitos s :
  isdigit s = true → decimal_of_str s = Some (inject_Z (digits_val 0%Z s)).
Proof.
  intros H. pose proof H as H0. unfold isdigit in H0.
  apply andb_true_iff in H0 as [Hne Hd].
  assert (Hn : numeral s) by exact (all_chars_impl _ _ s digito_sin_signo Hd).
  unfold decimal_of_str. rewrite (numeral_strip s Hn).
  assert (Hp : all_chars (fun ch => negb (Ascii.eqb ch ".")) s = true)
    by exact (all_chars_impl _ _ s signo_o_digito_no_punto Hn).
  pose proof (split_sin_punto s "" Hp) as Hs. rewrite sapp_nil_l in Hs.
  fold (split "." s) in Hs.
  destruct s as [|ch s']; [discriminate Hne|].
  cbn [all_chars] in Hd. apply andb_true_iff in Hd as [Hc _].
  assert (E : (match String ch s' with
               | String "-" b => (true, b)
               | String "+" b => (false, b)
               | _ => (false, String ch s')
               end) = (false, String ch s')).
  { clear -Hc. destruct ch as [[] [] [] [] [] [] [] []];
      first [reflexivity | discriminate Hc]. }
  rewrite E. rewrite Hs, H. rewrite Z.mul_1_l. reflexivity.
Qed.

(** *** The whole soles of a price *)

Lemma round_half_even_comp x y : x == y → round_half_even x = round_half_even y.
Proof.
  intros E. unfold round_half_even.
  assert (E2 : (2 * x == 2 * y)%Q) by (rewrite E; reflexivity).
  rewrite (Qfloor_comp _ _ E), (Qfloor_comp _ _ E2).
  assert (Eb : Qeq_bool (2 * x) (inject_Z (Qfloor (2 * y)))
               = Qeq_bool (2 * y) (inject_Z (Qfloor (2 * y)))).
  { destruct (Qeq_bool (2 * y) (inject_Z (Qfloor (2 * y)))) eqn:Ey.
    - apply Qeq_bool_iff. apply Qeq_bool_iff in Ey. rewrite E2. exact Ey.
    - apply not_true_iff_false. intros Ex. apply Qeq_bool_iff in Ex.
      rewrite E2 in Ex. apply Qeq_bool_iff in Ex. congruence. }
  rewrite Eb. reflexivity.
Qed.

Lemma round_half_even_no_negativo q : (0 ≤ Qnum q)%Z → (0 ≤ round_half_even q)%Z.
Proof.
  intros H. unfold round_half_even.
  assert (Hf : (0 ≤ Qfloor q)%Z).
  { change 0%Z with (Qfloor 0). apply Qfloor_resp_le. unfold Qle. cbn. lia. }
  destruct (_ =? 0)%Z; [exact Hf|].
  destruct (Qeq_bool _ _); [destruct (Z.even _)|]; lia.
Qed.

(** What [format(q, ".0f")] writes and what the parser reads in it: the
    price in whole soles, and no number at all under a minus sign. *)
Lemma fmt_f_0_precio_num q :
  precio_num_de (fmt_f 0 q)
  = Ok (if (Qnum q <? 0)%Z then PInt 0 else PFloat (inject_Z (round_half_even q))).
Proof.
  pose proof (fmt_f_0_numeral q) as Hn.
  unfold precio_num_de.
  rewrite (replace_sin_punto _ (all_chars_impl _ _ _ signo_o_digito_no_punto Hn)).
  unfold fmt_f. cbv zeta. cbv iota.
  rewrite (round_half_even_comp (q * inject_Z (10 ^ Z.of_nat 0)) q (Qmult_1_r q)).
  change (10 ^ Z.of_nat 0)%Z with 1%Z. rewrite Z.div_1_r.
  destruct (Qnum q <? 0)%Z eqn:Es.
  - unfold isdigit. cbn [is_empty negb all_chars andb].
    change (is_digit "-") with false. reflexivity.
  - apply Z.ltb_ge in Es. pose proof (round_half_even_no_negativo q Es) as Hr.
    rewrite Z.abs_eq by exact Hr.
    rewrite (str_int_isdigit _ Hr), (decimal_of_str_digitos _ (str_int_isdigit _ Hr)).
    rewrite (str_int_valor _ Hr). reflexivity.
Qed.

Section Directivas.

Variable repr_float : Q → string.
Variable float_of_str : string → option Q.
Variable bq : BigQueryService.
Variable ejecutar_busqueda : string → list Producto.

Local Abbreviation parser := (_procesar_acciones repr_float float_of_str bq ejecutar_busqueda).

(** The parser on a response made of prose and product directives. *)
Lemma parser_de_directivas (pre : string) (ts : list (list string * string))
    (c : Conversacion) (g : rng) :
  sin_abre pre → Forall bien_escrita ts → NoDup (map fst ts) →
  ∃ cs, parser (pre +:+ con_directivas directiva ts) c g
        = Ok (mkEstado (strip (pre +:+ con_directivas linea_directiva ts)) cs
                (map AMostrarProducto cs) c g)
        ∧ Forall2 muestra_campos (map fst ts) cs.
Proof.
  intros Hpre Hts Hnd.
  destruct (pasos_directivas c g ts pre [] [] Hpre Hts Hnd) as (cs & Hcs & Hm).
  set (raw := pre +:+ con_directivas directiva ts) in *.
  assert (Hotra : ∀ name, choca (prefijo name) (prefijo "PRODUCTO") = true →
                          re_search (tag_pattern name) raw = None).
  { intros name Hch. apply search_from_directivas;
      [apply tag_pattern_empieza| |exact Hpre|exact Hts].
    intros s. apply otro_prefijo. exact Hch. }
  assert (Hlit : ∀ w, choca (String "[" w) (prefijo "PRODUCTO") = true →
                      str_in (String "[" w) raw = false).
  { intros w Hch. apply str_in_directivas; [|exact Hpre|exact Hts].
    intros s. apply otro_literal. exact Hch. }
  unfold _procesar_acciones. fold raw.
  unfold raw at 2. rewrite (re_findall_directivas pre ts Hpre Hts). rewrite Hcs.
  cbn [bind]. unfold paso_buscar. fold P_BUSCAR_PRODUCTO.
  unfold P_BUSCAR_PRODUCTO. rewrite (Hotra "BUSCAR_PRODUCTO" eq_refl).
  unfold paso_agregar, P_AGREGAR_CARRITO. rewrite (Hotra "AGREGAR_CARRITO" eq_refl).
  unfold paso_checkout, P_CHECKOUT. rewrite (Hotra "CHECKOUT" eq_refl). cbn [bind].
  unfold paso_ver_carrito, T_VER_CARRITO. rewrite (Hlit "VER_CARRITO]" eq_refl). cbn [bind].
  unfold paso_generar_checkout, T_GENERAR_CHECKOUT.
  rewrite (Hlit "GENERAR_CHECKOUT]" eq_refl). cbn [bind].
  exists cs. split; [reflexivity|exact Hm].
Qed.

(** X14.  A response made of prose and of distinct, well-written product
    directives.  The parser returns; the text is the response, stripped,
    with the line of name and price in place of each directive; there is
    one card per directive, in order, with the id, the name and the price
    of its fields, trimmed, and its photo converted; one show-product
    action per card is recorded and nothing else; the conversation and the
    generator are as they were.  With no directive at all the text is the
    stripped response. *)
Theorem directivas_de_producto_a_tarjetas (pre : string)
    (ts : list (list string * string)) (c : Conversacion) (g : rng) :
  sin_abre pre → Forall bien_escrita ts → NoDup (map fst ts) →
  ∃ st, parser (pre +:+ con_directivas directiva ts) c g = Ok st
        ∧ respuesta_procesada st = strip (pre +:+ con_directivas linea_directiva ts)
        ∧ Forall2 muestra_campos (map fst ts) (productos_display st)
        ∧ acciones st = map AMostrarProducto (productos_display st)
        ∧ conv st = c ∧ gen st = g.
Proof.
  intros Hpre Hts Hnd.
  destruct (parser_de_directivas pre ts c g Hpre Hts Hnd) as (cs & Ecs & Hm).
  eexists. split; [exact Ecs|].
  cbn [respuesta_procesada productos_display acciones conv gen].
  auto.
Qed.

(** X20.  A product line of the catalogue excerpt, copied into a response
    between prose without an opening bracket, for a row whose id, name and
    photo address hold no bracket and no bar.  The parser returns and
    makes one card of it: the id and the name of the row, trimmed; the
    price as the excerpt prints it, in whole soles; as number that many
    soles, or 0 when the price is negative; the photo address converted.
    The line of name and price stands in the text in place of the
    directive, one show-product action is recorded, and the conversation
    and the generator are as they were. *)
Theorem linea_del_catalogo_se_lee (d : gmap string pyval) (linea : string)
    (resto : list string) (pre post : string) (c : Conversacion) (g : rng) :
  lineas_producto repr_float float_of_str d = Ok (linea :: resto) →
  fila_llana repr_float d → sin_abre pre → sin_abre post →
  ∃ nombre precio foto t,
    get2 d "Producto" "producto" (PStr "Producto") = PStr nombre
    ∧ precio_fila float_of_str (get2 d "Precio_final" "precio_final" (PInt 0)) = Ok precio
    ∧ convertir_drive_url_de (get2 d "Foto" "foto" (PStr "")) = Ok foto
    ∧ parser (pre +:+ linea +:+ post) c g
      = Ok (mkEstado
              (strip (pre +:+ nl +:+ "**" +:+ strip nombre +:+ "** - S/"
                      +:+ fmt_f 0 precio +:+ post))
              [t] [AMostrarProducto t] c g)
    ∧ t !! "id" = Some (PStr (strip (py_str repr_float (get2 d "ID" "id" (PStr "")))))
    ∧ t !! "nombre" = Some (PStr (strip nombre))
    ∧ t !! "precio" = Some (PStr ("S/" +:+ fmt_f 0 precio))
    ∧ t !! "precio_num"
      = Some (if (Qnum precio <? 0)%Z then PInt 0
              else PFloat (inject_Z (round_half_even precio)))
    ∧ t !! "imagen" = Some (PStr (_convertir_drive_url (strip foto))).
Proof.
  intros Hl (Hid & Hnom & Hfoto) Hpre Hpost.
  unfold lineas_producto in Hl.
  destruct (get2 d "Producto" "producto" (PStr "Producto")) as [| | | |nombre] eqn:En;
    try discriminate Hl.
  cbn [as_str bind] in Hl.
  destruct (precio_fila float_of_str (get2 d "Precio_final" "precio_final" (PInt 0)))
    as [precio|] eqn:Ep; [|discriminate Hl].
  cbn [bind] in Hl.
  destruct (precio_fila float_of_str (get2 d "Precio" "precio" (PInt 0)))
    as [original|]; [|discriminate Hl].
  cbn [bind] in Hl.
  destruct (float_o_cero float_of_str (get2 d "Descuento" "descuento" (PInt 0)))
    as [descuento|]; [|discriminate Hl].
  cbn [bind] in Hl.
  destruct (float_o_cero float_of_str (get2 d "Stock" "stock" (PInt 0)))
    as [stock|]; [|discriminate Hl].
  cbn [bind] in Hl.
  destruct (convertir_drive_url_de (get2 d "Foto" "foto" (PStr ""))) as [foto|] eqn:Ef;
    [|discriminate Hl].
  cbn [bind] in Hl.
  destruct (linea_extra _ _ _ _ _) as [extra|]; [|discriminate Hl].
  cbn [bind] in Hl. injection Hl as Hlinea _.
  set (i := py_str repr_float (get2 d "ID" "id" (PStr ""))) in *.
  set (fs := [i; strip nombre; fmt_f 0 precio; foto]).
  assert (El : linea = directiva fs).
  { rewrite <- Hlinea. unfold directiva, tag, prefijo, fs. cbn [join].
    unfold str. fold i. rewrite !sapp_assoc. reflexivity. }
  pose proof (fmt_f_0_numeral precio) as Hnum.
  assert (Hbe : bien_escrita (fs, post)).
  { unfold bien_escrita. cbn [fst snd]. split; [cbn; lia|]. split.
    - assert (Hn' : campo_llano (strip nombre)).
      { destruct (Hnom nombre eq_refl) as [A B].
        split; apply all_chars_strip; assumption. }
      unfold fs. apply Forall_cons_2; [exact Hid|].
      apply Forall_cons_2; [exact Hn'|].
      apply Forall_cons_2; [apply numeral_llano, Hnum|].
      apply Forall_cons_2; [apply (Hfoto foto eq_refl)|apply Forall_nil_2].
    - split; [exact Hpost|]. unfold parte, fs. cbn [nth].
      rewrite (numeral_strip _ Hnum), fmt_f_0_precio_num.
      split; [reflexivity|apply numeral_ascii; exact Hnum]. }
  destruct (parser_de_directivas pre [(fs, post)] c g Hpre
              (Forall_cons_2 _ _ _ Hbe (Forall_nil_2 _))
              ltac:(cbn [map fst]; apply NoDup_singleton))
    as (cs & Ecs & Hm).
  cbn [map fst] in Hm. inversion Hm as [|? t ? cs' Ht Hm' E1 E2]; subst.
  inversion Hm'; subst.
  destruct Ht as (Ti & Tn & Tp & Tim & v & Ev & Tv).
  unfold parte, fs in Ti, Tn, Tp, Tim, Ev. cbn [nth length Nat.ltb Nat.leb] in Ti, Tn, Tp, Tim, Ev.
  rewrite (numeral_strip _ Hnum) in Tp, Ev. rewrite strip_idem in Tn.
  rewrite fmt_f_0_precio_num in Ev. injection Ev as <-.
  exists nombre, precio, foto, t.
  split; [reflexivity|]. split; [reflexivity|]. split; [reflexivity|].
  split.
  - rewrite El. cbn [con_directivas] in Ecs. rewrite !sapp_nil_r in Ecs.
    unfold linea_directiva, parte in Ecs. unfold fs in Ecs at 2 3. cbn [nth] in Ecs.
    rewrite (numeral_strip _ Hnum), strip_idem in Ecs.
    rewrite !sapp_assoc in Ecs. exact Ecs.
  - repeat split; assumption.
Qed.

End Directivas.

Lemma directivas_de_producto_witness :
  ∃ st, _procesar_acciones repr_decimal decimal_of_str bq_demo (fun _ => [])
          ("Te muestro: " +:+ con_directivas directiva trozos_demo)
          conversacion_nueva sin_azar = Ok st
        ∧ respuesta_procesada st
          = strip ("Te muestro: " +:+ con_directivas linea_directiva trozos_demo)
        ∧ Forall2 muestra_campos (map fst trozos_demo) (productos_display st)
        ∧ acciones st = map AMostrarProducto (productos_display st)
        ∧ conv st = conversacion_nueva ∧ gen st = sin_azar.
Proof.
  apply (directivas_de_producto_a_tarjetas repr_decimal decimal_of_str bq_demo (fun _ => [])
           "Te muestro: " trozos_demo conversacion_nueva sin_azar).
  - reflexivity.
  - repeat constructor; cbn [fst length]; try lia; reflexivity.
  - cbn [map fst trozos_demo]. repeat constructor; [|apply not_elem_of_nil].
    intros H. apply list_elem_of_singleton in H. discriminate.
Defined.

Lemma linea_del_catalogo_witness :
  ∃ t, _procesar_acciones repr_decimal decimal_of_str bq_demo (fun _ => [])
         ("Te recomiendo "
          +:+ "[PRODUCTO:31|Tulipanes en Caja|1250|https://lh3.googleusercontent.com/d/1AbC_dEf=w300]"
          +:+ " para hoy.")
         conversacion_nueva sin_azar
       = Ok (mkEstado
               (strip ("Te recomiendo " +:+ nl
                       +:+ "**Tulipanes en Caja** - S/1250 para hoy."))
               [t] [AMostrarProducto t] conversacion_nueva sin_azar)
       ∧ t !! "id" = Some (PStr "31")
       ∧ t !! "precio_num" = Some (PFloat (inject_Z 1250))
       ∧ t !! "imagen"
         = Some (PStr "https://lh3.googleusercontent.com/d/1AbC_dEf=w300").
Proof.
  destruct (linea_del_catalogo_se_lee repr_decimal decimal_of_str bq_demo (fun _ => [])
              fila_tulipanes
              "[PRODUCTO:31|Tulipanes en Caja|1250|https://lh3.googleusercontent.com/d/1AbC_dEf=w300]"
              ["   (Caja, Descuento: antes S/1300)"; ""]
              "Te recomiendo " " para hoy." conversacion_nueva sin_azar)
    as (nombre & precio & foto & t & En & Ep & Ef & Epars & Ti & _ & _ & Tv & Tim).
  - vm_compute. reflexivity.
  - split; [split; reflexivity|].
    split; intros x E; vm_compute in E; injection E as <-; split; reflexivity.
  - reflexivity.
  - reflexivity.
  - vm_compute in En. injection En as <-.
    vm_compute in Ep. injection Ep as <-.
    vm_compute in Ef. injection Ef as <-.
    exists t. split; [rewrite Epars; reflexivity|].
    split; [exact Ti|]. split; [exact Tv|exact Tim].
Defined.

(** * The session store and the cart end points *)

Lemma canal_de_value c : canal_de (canal_value c) = Ok c.
Proof. destruct c; reflexivity. Qed.

Lemma item_de_al_dia d : subtotal_al_dia (item_de d).
Proof. reflexivity. Qed.

Lemma item_ida_y_vuelta it :
  subtotal_al_dia it →
  item_de (mkItemData (producto_id it) (producto_nombre it) (cantidad it)
             (precio_unitario it) (subtotal it)) = it.
Proof.
  unfold subtotal_al_dia, item_de, nuevo_CarritoItem. cbn. intros <-.
  destruct it; reflexivity.
Qed.

Lemma deserializar_serializar c :
  _deserializar_conversacion (_serializar_conversacion c)
  = Ok (con_carrito c
          (match carrito c with
           | Some k =>
               Some (mkCarrito (carrito_session_id k)
                       (map (fun it => nuevo_CarritoItem (producto_id it) (producto_nombre it)
                                         (cantidad it) (precio_unitario it)) (items k)))
           | None => None
           end)).
Proof.
  unfold _deserializar_conversacion, _serializar_conversacion.
  cbn [d_session_id d_canal d_user_id d_mensajes d_carrito d_contexto].
  rewrite canal_de_value. cbn [bind]. unfold con_carrito. f_equal.
  rewrite map_map. cbn [m_role m_content].
  replace (map (fun x : MensajeChat => mkMensajeChat (role x) (content x)) (mensajes c))
    with (mensajes c)
    by (induction (mensajes c) as [|[r t] l IH]; [reflexivity|cbn; rewrite <- IH; reflexivity]).
  destruct (carrito c) as [k|]; [|reflexivity].
  cbn [k_session_id k_items]. rewrite map_map. reflexivity.
Qed.

Lemma deserializar_al_dia data c :
  _deserializar_conversacion data = Ok c → carrito_al_dia c.
Proof.
  unfold _deserializar_conversacion. destruct (canal_de _); cbn [bind]; [|discriminate].
  intros [= <-]. unfold carrito_al_dia. cbn [carrito].
  destruct (d_carrito data) as [kd|]; [|exact I]. cbn [items].
  apply Forall_forall. intros it Hit. apply list_elem_of_fmap in Hit as (d & -> & _).
  apply item_de_al_dia.
Qed.

Lemma ida_y_vuelta c :
  carrito_al_dia c →
  _deserializar_conversacion (_serializar_conversacion c) = Ok c.
Proof.
  intros H. rewrite deserializar_serializar. f_equal.
  unfold carrito_al_dia in H. destruct c as [sid cn uid ms [k|] ctx]; [|reflexivity].
  unfold con_carrito. cbn [session_id canal user_id mensajes carrito contexto] in *.
  f_equal. f_equal. destruct k as [ksid its]. cbn [carrito_session_id items] in *. f_equal.
  induction its as [|it its IH]; [reflexivity|].
  apply Forall_cons in H as [H1 H2]. cbn [map]. rewrite (IH H2). f_equal.
  unfold subtotal_al_dia in H1. unfold nuevo_CarritoItem. rewrite <- H1.
  destruct it; reflexivity.
Qed.

Lemma obtener_guardada s c canal uid :
  carrito_al_dia c →
  obtener_conversacion (guardar_conversacion s c) (session_id c) canal uid
  = Ok (c, guardar_conversacion s c).
Proof.
  intros H. unfold obtener_conversacion, guardar_conversacion.
  rewrite lookup_insert_eq, (ida_y_vuelta c H). reflexivity.
Qed.

(** X15.  A conversation that was saved is what the store returns for its
    session id, whatever channel and user id the call passes, when the
    subtotals of its cart are up to date; saving touches no other
    session. *)
Theorem sesion_guardada_se_recupera (s : sesiones) (c : Conversacion)
    (canal : CanalMensaje) (uid : option string) :
  carrito_al_dia c →
  obtener_conversacion (guardar_conversacion s c) (session_id c) canal uid
  = Ok (c, guardar_conversacion s c)
  ∧ (∀ sid, sid ≠ session_id c → guardar_conversacion s c !! sid = s !! sid).
Proof.
  intros H. split; [apply obtener_guardada, H|].
  intros sid Hsid. unfold guardar_conversacion. apply lookup_insert_ne. congruence.
Qed.

Lemma sesion_guardada_witness :
  obtener_conversacion (guardar_conversacion ∅ conversacion_con_peluche) "widget_5"
    WHATSAPP None
  = Ok (conversacion_con_peluche, guardar_conversacion ∅ conversacion_con_peluche).
Proof.
  apply (sesion_guardada_se_recupera ∅ conversacion_con_peluche WHATSAPP None).
  repeat constructor.
Defined.

(** X16.  The first call for an unknown session id creates a conversation
    with no message, an empty cart and an empty context, and files it; a
    second call on the store as the first call left it returns that
    conversation, with the channel and the user id of the first call, and
    files nothing; no other session is touched.  What is written to the
    conversation in hand between the two calls is outside the statement:
    see the convention of the store. *)
Theorem sesion_nueva_se_relee (s : sesiones) (sid : string)
    (canal canal' : CanalMensaje) (uid uid' : option string) :
  s !! sid = None →
  ∃ s', obtener_conversacion s sid canal uid = Ok (conversacion_inicial sid canal uid, s')
        ∧ obtener_conversacion s' sid canal' uid'
          = Ok (conversacion_inicial sid canal uid, s')
        ∧ (∀ otra, otra ≠ sid → s' !! otra = s !! otra).
Proof.
  intros H. exists (guardar_conversacion s (conversacion_inicial sid canal uid)).
  split; [unfold obtener_conversacion; rewrite H; reflexivity|]. split.
  - apply (obtener_guardada s (conversacion_inicial sid canal uid)). constructor.
  - intros otra Ho. unfold guardar_conversacion. apply lookup_insert_ne.
    cbn [session_id conversacion_inicial]. congruence.
Qed.

Lemma sesion_nueva_witness :
  ∃ s', obtener_conversacion ∅ "widget_9" WIDGET None
        = Ok (conversacion_inicial "widget_9" WIDGET None, s')
        ∧ obtener_conversacion s' "widget_9" WHATSAPP (Some "51999")
          = Ok (conversacion_inicial "widget_9" WIDGET None, s')
        ∧ (∀ otra, otra ≠ "widget_9" → s' !! otra = (∅ : sesiones) !! otra).
Proof.
  apply (sesion_nueva_se_relee ∅ "widget_9" WIDGET WHATSAPP None (Some "51999")).
  reflexivity.
Defined.

(** *** The cart end points *)

Lemma sesiones_guardadas_vacia : sesiones_guardadas ∅.
Proof. intros sid data H. rewrite lookup_empty in H. discriminate. Qed.

Lemma guardar_guardadas s c :
  sesiones_guardadas s → sesiones_guardadas (guardar_conversacion s c).
Proof.
  intros H sid data. unfold guardar_conversacion.
  destruct (decide (session_id c = sid)) as [<-|Hne].
  - rewrite lookup_insert_eq. intros [= <-]. eauto.
  - rewrite lookup_insert_ne by exact Hne. apply H.
Qed.

Lemma obtener_de_guardadas s sid canal uid :
  sesiones_guardadas s →
  ∃ c s1, obtener_conversacion s sid canal uid = Ok (c, s1)
          ∧ session_id c = sid ∧ carrito_al_dia c ∧ sesiones_guardadas s1.
Proof.
  intros H. unfold obtener_conversacion. destruct (s !! sid) as [data|] eqn:E.
  - destruct (H sid data E) as (c0 & -> & Hsid).
    rewrite deserializar_serializar. cbn [bind]. do 2 eexists.
    split; [reflexivity|]. split; [exact Hsid|]. split; [|exact H].
    eapply deserializar_al_dia. apply deserializar_serializar.
  - do 2 eexists. split; [reflexivity|]. split; [reflexivity|].
    split; [constructor|apply guardar_guardadas, H].
Qed.

Section CarritoWidget.

Variable widget_api_key : string.
Variable bq : BigQueryService.

(** X17.  When the add-to-cart end point answers, the product exists, the
    quantity is within its stock, the answer counts the items and gives
    the total of the cart of the session after [agregar_item], and the
    cart end point then returns the items and the total of that very
    cart: the addition is stored. *)
Theorem agregar_al_carrito_persistente (s s' : sesiones) (sid pid : string)
    (cant : Z) (key : option string) (r : Agregado) :
  sesiones_guardadas s →
  agregar_al_carrito widget_api_key bq s sid pid cant key = (Responde r, s') →
  ∃ producto c s1 k,
    obtener_producto bq pid = Some producto ∧ (cant ≤ prod_stock producto)%Z
    ∧ obtener_conversacion s sid WIDGET None = Ok (c, s1) ∧ carrito c = Some k
    ∧ carrito_items r = length (items (agregar_item k producto cant))
    ∧ carrito_total r = total (agregar_item k producto cant)
    ∧ ver_carrito widget_api_key s' sid key
      = (Responde (items (agregar_item k producto cant),
                   total (agregar_item k producto cant)), s')
    ∧ sesiones_guardadas s'.
Proof.
  intros Hs. unfold agregar_al_carrito, ver_carrito.
  destruct (verificar_api_key widget_api_key key) eqn:Ek; cbn [negb]; [|discriminate].
  destruct (obtener_producto bq pid) as [producto|]; [|discriminate].
  destruct (prod_stock producto <? cant)%Z eqn:Est; [discriminate|].
  destruct (obtener_de_guardadas s sid WIDGET None Hs) as (c & s1 & E & Hsid & Hal & Hs1).
  rewrite E. destruct (carrito c) as [k|] eqn:Ec; [|discriminate].
  intros [= <- <-]. exists producto, c, s1, k.
  split; [reflexivity|]. split; [apply Z.ltb_ge; exact Est|].
  split; [reflexivity|]. split; [exact Ec|]. split; [reflexivity|].
  split; [reflexivity|]. split; [|apply guardar_guardadas, Hs1].
  set (k' := agregar_item k producto cant).
  set (c' := con_carrito c (Some k')).
  assert (Hal' : carrito_al_dia c').
  { unfold carrito_al_dia, c'. cbn [carrito con_carrito]. apply agregar_item_al_dia.
    unfold carrito_al_dia in Hal. rewrite Ec in Hal. exact Hal. }
  assert (Hsid' : session_id c' = sid) by exact Hsid.
  rewrite <- Hsid' at 1. rewrite (obtener_guardada s1 c' WIDGET None Hal').
  cbn [carrito c' con_carrito].
  pose proof (agregar_item_no_vacio k producto cant) as Hne. fold k' in Hne.
  destruct (items k') eqn:Ei; [congruence|reflexivity].
Qed.

End CarritoWidget.

Lemma agregar_al_carrito_witness :
  ∃ r s', agregar_al_carrito "clave" bq_demo ∅ "widget_9" "26" 2 (Some "clave")
          = (Responde r, s')
          ∧ carrito_items r
            = length (items (agregar_item (nuevo_Carrito "widget_9") producto_demo 2))
          ∧ ver_carrito "clave" s' "widget_9" (Some "clave")
            = (Responde (items (agregar_item (nuevo_Carrito "widget_9") producto_demo 2),
                         total (agregar_item (nuevo_Carrito "widget_9") producto_demo 2)),
               s').
Proof.
  assert (Hb : respondio (fst (agregar_al_carrito "clave" bq_demo ∅ "widget_9" "26" 2
                                 (Some "clave"))) = true) by (vm_compute; reflexivity).
  destruct (agregar_al_carrito "clave" bq_demo ∅ "widget_9" "26" 2 (Some "clave"))
    as [[r| |] s'] eqn:E; [|discriminate Hb..].
  exists r, s'. split; [reflexivity|].
  destruct (agregar_al_carrito_persistente "clave" bq_demo ∅ s' "widget_9" "26" 2
              (Some "clave") r sesiones_guardadas_vacia E)
    as (producto & c & s1 & k & Hp & _ & Hc & Hk & Hi & _ & Hv & _).
  assert (Ep : producto = producto_demo)
    by (change (obtener_producto bq_demo "26") with (Some producto_demo) in Hp; congruence).
  unfold obtener_conversacion in Hc. rewrite lookup_empty in Hc.
  injection Hc as <- _. injection Hk as <-. subst producto.
  split; [exact Hi|exact Hv].
Defined.

(** ** The chat end points *)

Section Charla.

Variable widget_api_key : string.
Variable repr_float : Q → string.
Variable float_of_str : string → option Q.
Variable repr_dict : tarjeta → string.
Variable mcp : MCPToolboxService.
Variable bq : BigQueryService.
Variable ejecutar_busqueda : string → list Producto.
Variable modelo : option (Conversacion → string → string → res string).
Variable respuesta_demo : string → Conversacion → res (string * Conversacion).

Hypothesis demo_conserva_hilo :
  ∀ m c r c', respuesta_demo m c = Ok (r, c') → mismo_hilo c c'.

(** X18.  The chat is greeted once.  When the start end point answers for
    a session id, the session is stored with a history that is not
    empty, which for a new session is the welcome message alone, and
    starting the chat again answers the same and changes nothing. *)
Theorem iniciar_chat_saluda_una_vez (s s1 : sesiones) (sid u u' : string)
    (key : option string) (r : IniciarChatResponse) :
  sesiones_guardadas s → sid ≠ "" →
  iniciar_chat widget_api_key s (Some sid) u key = (Responde r, s1) →
  ic_session_id r = sid
  ∧ (∃ c, obtener_conversacion s1 sid WIDGET None = Ok (c, s1) ∧ mensajes c ≠ []
          ∧ (s !! sid = None →
             c = agregar_mensaje (conversacion_inicial sid WIDGET None)
                   "assistant" WELCOME_MESSAGE))
  ∧ iniciar_chat widget_api_key s1 (Some sid) u' key = (Responde r, s1).
Proof.
  intros Hs Hsid. unfold iniciar_chat.
  destruct (verificar_api_key widget_api_key key) eqn:Ek; cbn [negb]; [|discriminate].
  destruct sid as [|a sid]; [congruence|]. cbn [is_empty].
  set (sid' := String a sid) in *.
  destruct (obtener_de_guardadas s sid' WIDGET None Hs) as (c & s0 & E & Hc & Hal & Hs0).
  rewrite E.
  assert (Hr : ∀ c1, carrito_al_dia c1 → session_id c1 = sid' → mensajes c1 ≠ [] →
               obtener_conversacion (guardar_conversacion s0 c1) sid' WIDGET None
               = Ok (c1, guardar_conversacion s0 c1)).
  { intros c1 H1 H2 _. rewrite <- H2. apply obtener_guardada, H1. }
  destruct (mensajes c) as [|m ms] eqn:Em.
  - intros [= <- <-]. split; [reflexivity|].
    set (c1 := agregar_mensaje c "assistant" WELCOME_MESSAGE).
    assert (H1 : carrito_al_dia c1) by exact Hal.
    assert (H2 : session_id c1 = sid') by exact Hc.
    assert (H3 : mensajes c1 ≠ [])
      by (unfold c1; cbn [agregar_mensaje con_mensajes mensajes]; rewrite Em; discriminate).
    rewrite (Hr c1 H1 H2 H3). split.
    + exists c1. split; [reflexivity|]. split; [exact H3|].
      intros Hn. unfold obtener_conversacion in E. rewrite Hn in E.
      injection E as <- _. reflexivity.
    + destruct (mensajes c1) eqn:E1; [congruence|reflexivity].
  - intros [= <- <-]. split; [reflexivity|].
    assert (Hsame : obtener_conversacion s0 sid' WIDGET None = Ok (c, s0)).
    { unfold obtener_conversacion in E |- *. destruct (s !! sid') as [data|] eqn:Ed.
      - destruct (_deserializar_conversacion data) as [c'|] eqn:Edd; cbn [bind] in E;
          [|discriminate].
        injection E as <- <-. rewrite Ed, Edd. reflexivity.
      - injection E as <- _. cbn [mensajes] in Em. discriminate. }
    rewrite Hsame, Em. split; [|reflexivity].
    exists c. split; [reflexivity|]. split; [rewrite Em; discriminate|].
    intros Hn. unfold obtener_conversacion in E. rewrite Hn in E.
    injection E as <- _. cbn [mensajes] in Em. discriminate.
Qed.

Hypothesis demo_conserva_carrito :
  ∀ m c r c', respuesta_demo m c = Ok (r, c') → carrito c' = carrito c.

(** X19.  When the message end point answers, what the store then returns
    for the session is the conversation of before with two messages
    more, the stripped message of the user and the bubbles of the answer
    joined by a blank; the text of the answer is its first bubble, and
    its cart is the stored cart, absent when empty.  The offline reply
    generator is to keep the identity, the history and the cart. *)
Theorem enviar_mensaje_guarda_el_turno (s s' : sesiones) (sid mensaje : string)
    (key : option string) (g g' : rng) (r : MensajeResponse) :
  sesiones_guardadas s →
  enviar_mensaje widget_api_key bq repr_float float_of_str repr_dict mcp ejecutar_busqueda
    modelo respuesta_demo s sid mensaje key g = Responde (r, g', s') →
  ∃ c0 s0 cF,
    obtener_conversacion s sid WIDGET None = Ok (c0, s0)
    ∧ obtener_conversacion s' sid WIDGET None = Ok (cF, s')
    ∧ (session_id cF = sid ∧ canal cF = canal c0 ∧ user_id cF = user_id c0)
    ∧ mensajes cF
      = mensajes c0 ++ [mkMensajeChat "user" (strip mensaje);
                        mkMensajeChat "assistant" (join " " (mr_burbujas r))]
    ∧ head (mr_burbujas r) = Some (mr_texto r)
    ∧ mr_carrito r
      = match carrito cF with
        | Some k => match items k with [] => None | its => Some (its, total k) end
        | None => None
        end
    ∧ sesiones_guardadas s'.
Proof.
  intros Hs. unfold enviar_mensaje.
  destruct (verificar_api_key widget_api_key key); cbn [negb]; [|discriminate].
  destruct (is_empty mensaje || is_empty (strip mensaje)); [discriminate|].
  destruct (obtener_de_guardadas s sid WIDGET None Hs) as (c0 & s0 & E & Hsid & Hal & Hs0).
  rewrite E.
  destruct (procesar_mensaje _ _ _ _ _ _ _ _ c0 (strip mensaje) g)
    as [[[resp cT] gT]|e] eqn:Et; [|discriminate].
  destruct (turno_hilo_y_mensajes _ _ _ _ _ _ _ _ demo_conserva_hilo _ _ _ _ _ _ Et)
    as (T1 & T2 & T3 & T4).
  destruct (turno_texto _ _ _ _ _ _ _ _ _ _ _ _ _ _ Et) as [Tx Tv].
  pose proof (turno_al_dia _ _ _ _ _ _ _ _ demo_conserva_carrito _ _ _ _ _ _ Et Hal) as Tal.
  set (cF := extraer_preferencias mensaje cT) in *.
  assert (HF : cF = con_contexto cT (escritos mensaje ∪ contexto cT))
    by apply extraer_preferencias_escritos.
  assert (HalF : carrito_al_dia cF) by (rewrite HF; exact Tal).
  assert (HsF : session_id cF = sid) by (rewrite HF; cbn; congruence).
  assert (Hob : obtener_conversacion (guardar_conversacion s0 cF) sid WIDGET None
                = Ok (cF, guardar_conversacion s0 cF))
    by (rewrite <- HsF at 1; apply obtener_guardada, HalF).
  assert (Hm : ∀ bs, r_burbujas resp = bs →
               mensajes cF = mensajes c0 ++ [mkMensajeChat "user" (strip mensaje);
                                             mkMensajeChat "assistant" (join " " bs)]).
  { intros bs <-. rewrite HF. cbn [mensajes con_contexto]. rewrite T4, Tx. reflexivity. }
  destruct (r_burbujas resp) as [|b bs] eqn:Eb.
  - rewrite (Tv eq_refl). discriminate.
  - intros [= <- <- <-]. exists c0, s0, cF.
    cbn [mr_burbujas mr_texto mr_carrito head].
    split; [reflexivity|]. split; [exact Hob|].
    split; [rewrite HF; cbn [session_id canal user_id con_contexto]; repeat split; congruence|].
    split; [apply Hm; reflexivity|]. split; [reflexivity|].
    split; [reflexivity|apply guardar_guardadas, Hs0].
Qed.

End Charla.

Lemma iniciar_chat_witness :
  ∃ r s1, iniciar_chat "clave" ∅ (Some "widget_9") "0123456789ab" (Some "clave")
          = (Responde r, s1)
          ∧ ic_session_id r = "widget_9"
          ∧ iniciar_chat "clave" s1 (Some "widget_9") "ba9876543210" (Some "clave")
            = (Responde r, s1).
Proof.
  assert (Hb : respondio (fst (iniciar_chat "clave" ∅ (Some "widget_9") "0123456789ab"
                                 (Some "clave"))) = true) by (vm_compute; reflexivity).
  destruct (iniciar_chat "clave" ∅ (Some "widget_9") "0123456789ab" (Some "clave"))
    as [[r| |] s1] eqn:E; [|discriminate Hb..].
  exists r, s1. split; [reflexivity|].
  assert (Hsid : "widget_9" ≠ "") by discriminate.
  destruct (iniciar_chat_saluda_una_vez "clave" ∅ s1 "widget_9" "0123456789ab"
              "ba9876543210" (Some "clave") r sesiones_guardadas_vacia Hsid E)
    as (H1 & _ & H3).
  split; [exact H1|exact H3].
Defined.

Lemma enviar_mensaje_witness :
  let enviar := enviar_mensaje "clave" bq_demo repr_decimal decimal_of_str (fun _ => "")
                  mcp_demo (fun _ => []) modelo_texto demo_nulo in
  ∃ r g' s' cF,
    enviar ∅ "widget_9" " hola " (Some "clave") sin_azar = Responde (r, g', s')
    ∧ obtener_conversacion s' "widget_9" WIDGET None = Ok (cF, s')
    ∧ mensajes cF = [mkMensajeChat "user" "hola";
                     mkMensajeChat "assistant" (join " " (mr_burbujas r))].
Proof.
  intros enviar.
  assert (Hb : respondio (enviar ∅ "widget_9" " hola " (Some "clave") sin_azar) = true)
    by (vm_compute; reflexivity).
  destruct (enviar ∅ "widget_9" " hola " (Some "clave") sin_azar)
    as [[[r g'] s']| |] eqn:E; [|discriminate Hb..].
  destruct (enviar_mensaje_guarda_el_turno "clave" repr_decimal decimal_of_str (fun _ => "")
              mcp_demo bq_demo (fun _ => []) modelo_texto demo_nulo
              demo_nulo_conserva_hilo demo_nulo_conserva_carrito
              ∅ s' "widget_9" " hola " (Some "clave") sin_azar g' r
              sesiones_guardadas_vacia E)
    as (c0 & s0 & cF & H0 & HF & _ & Hm & _).
  exists r, g', s', cF. split; [reflexivity|]. split; [exact HF|].
  unfold obtener_conversacion in H0. rewrite lookup_empty in H0.
  injection H0 as <- _. exact Hm.
Defined.
